(** * Job application tracker: validation, repository actions, statistics and export

    A shallow embedding of the TypeScript sources

      - the zod schema [createAndEditJobSchema] and [sanitizeJobInput]
        (the types module),
      - the server actions of [utils/actions.ts],
      - the CSV and Excel builders and the grouping helper of
        [components/DownloadDropdown.tsx],
      - the route handlers of [app/api],
      - the status styles and [cn] of [lib/design-system.ts],
      - the client singleton of [utils/db.ts],
      - the submission of the form [CreateJobForm] and what the home page,
        the statistics cards and the chart show,

    together with the properties of these functions.

    Modelling conventions.
      - A JavaScript string is a [string]; a character is one code unit below
        256, so that [String.length] is the JavaScript [length].
      - A [Date] is its time value, the number of milliseconds since the epoch,
        as a [Z].  Local time is UTC shifted by a fixed offset.
      - Server actions run in a small state-and-exception monad over a [World]
        that holds the session, the clock, the job table, the pending storage
        faults, the console and the revalidated paths.
      - zod, dayjs and the Prisma client are libraries outside the sources;
        the parts of them that the sources call are modelled here after their
        documented behaviour.
      - A route handler runs in the same monad and answers with a status and
        the value given to [NextResponse.json]; a client component is
        modelled by the request it sends and by what it derives from the
        answer. *)

From stdpp Require Import gmap strings list pretty sorting.
From Stdlib Require Import ZArith Lia Ascii.

Open Scope Z_scope.

(** ** JavaScript strings *)

Module Js.

(** Code units removed by [String.prototype.trim]: white space and line
    terminators (tab, line feed, vertical tab, form feed, carriage return,
    space, no-break space). *)
Definition isWhiteSpace (c : ascii) : bool :=
  match N_of_ascii c with
  | 9%N | 10%N | 11%N | 12%N | 13%N | 32%N | 160%N => true
  | _ => false
  end.

Fixpoint trimStart (s : string) : string :=
  match s with
  | EmptyString => EmptyString
  | String c s' => if isWhiteSpace c then trimStart s' else s
  end.

Fixpoint trimEnd (s : string) : string :=
  match s with
  | EmptyString => EmptyString
  | String c s' =>
      match trimEnd s' with
      | EmptyString => if isWhiteSpace c then EmptyString else String c EmptyString
      | t => String c t
      end
  end.

Definition trim (s : string) : string := trimEnd (trimStart s).

(** Case folding of the letters a-z, as used by a case-insensitive match. *)
Definition lowerChar (c : ascii) : ascii :=
  let n := N_of_ascii c in
  if ((65 <=? n) && (n <=? 90))%N then ascii_of_N (n + 32) else c.

Definition upperChar (c : ascii) : ascii :=
  let n := N_of_ascii c in
  if ((97 <=? n) && (n <=? 122))%N then ascii_of_N (n - 32) else c.

Fixpoint toLowerCase (s : string) : string :=
  match s with
  | EmptyString => EmptyString
  | String c s' => String (lowerChar c) (toLowerCase s')
  end.

Fixpoint startsWith (p s : string) : bool :=
  match p, s with
  | EmptyString, _ => true
  | String _ _, EmptyString => false
  | String a p', String b s' => Ascii.eqb a b && startsWith p' s'
  end.

(** [includes s needle]: [needle] occurs in [s] as a substring. *)
Fixpoint includes (s needle : string) : bool :=
  startsWith needle s ||
  match s with
  | EmptyString => false
  | String _ s' => includes s' needle
  end.

(** [s.charAt(0).toUpperCase() + s.slice(1)] *)
Definition capitalize (s : string) : string :=
  match s with
  | EmptyString => EmptyString
  | String c s' => String (upperChar c) s'
  end.

(** [s.slice(-n)]: the last [n] code units. *)
Definition sliceLast (n : nat) (s : string) : string :=
  String.substring (String.length s - n) n s.

(** Truthiness of a string: [""] is falsy. *)
Definition truthy (s : string) : bool := negb (String.eqb s "").

(** [v || null] on an optional string. *)
Definition orNull (v : option string) : option string :=
  match v with
  | Some s => if truthy s then Some s else None
  | None => None
  end.

(** A JavaScript number as far as [Math.ceil (count / limit)] can produce it. *)
Inductive number : Type :=
  | Num (z : Z)
  | PosInfinity
  | NaN.

(** [Math.ceil (a / b)] for integers [a >= 0] and [b]. *)
Definition ceilDiv (a b : Z) : number :=
  if b =? 0 then (if a =? 0 then NaN else PosInfinity)
  else Num (- ((- a) / b)).

(** Stable sort by a comparator: [before x y] holds when [x] must come
    strictly before [y]; elements that compare equal keep their order, as
    [Array.prototype.sort] guarantees. *)
Section Sort.
Context {A : Type} (before : A -> A -> bool).

Fixpoint insertSorted (x : A) (l : list A) : list A :=
  match l with
  | [] => [x]
  | y :: l' => if before y x then y :: insertSorted x l' else x :: l
  end.

Fixpoint sort (l : list A) : list A :=
  match l with
  | [] => []
  | x :: l' => insertSorted x (sort l')
  end.
End Sort.

End Js.

(** ** dayjs: calendar fields, month arithmetic and formatting *)

Module Dayjs.

Definition msPerDay : Z := 86400000.
Definition msPerHour : Z := 3600000.
Definition msPerMinute : Z := 60000.

(** Calendar fields of a local time value. *)
Record Fields : Type := mkFields {
  f_year : Z;      (* $y *)
  f_month : Z;     (* $M, 0 = January *)
  f_date : Z;      (* $D, 1-based *)
  f_hour : Z;      (* $H *)
  f_minute : Z     (* $m *)
}.

(** Day of the month of the day [doy] of a year that begins on 1 March. *)
Definition dateInMarchYear (doy : Z) : Z :=
  let mp := (5 * doy + 2) / 153 in
  doy - (153 * mp + 2) / 5 + 1.

(** Proleptic Gregorian date of a day number (days since 1970-01-01):
    the year, the month from 0 and the day of the month from 1. *)
Definition civilFromDays (day : Z) : Z * Z * Z :=
  let z := day + 719468 in
  let era := z / 146097 in
  let doe := z - era * 146097 in
  let yoe := (doe - doe / 1460 + doe / 36524 - doe / 146096) / 365 in
  let doy := doe - (365 * yoe + yoe / 4 - yoe / 100) in
  let mp := (5 * doy + 2) / 153 in
  let d := dateInMarchYear doy in
  let m := if mp <? 10 then mp + 3 else mp - 9 in
  let y := yoe + era * 400 in
  ((if m <=? 2 then y + 1 else y), m - 1, d).

(** Day number of the first day of month [m] (0-based) of year [y]. *)
Definition daysFromCivil (y m : Z) : Z :=
  let y' := if m <=? 1 then y - 1 else y in
  let era := y' / 400 in
  let yoe := y' - era * 400 in
  let mp := if m <=? 1 then m + 10 else m - 2 in
  let doy := (153 * mp + 2) / 5 in
  let doe := yoe * 365 + yoe / 4 - yoe / 100 + doy in
  era * 146097 + doe - 719468.

Definition isLeapYear (y : Z) : bool :=
  ((y mod 4 =? 0) && negb (y mod 100 =? 0)) || (y mod 400 =? 0).

Definition daysInMonth (y m : Z) : Z :=
  match m with
  | 1 => if isLeapYear y then 29 else 28
  | 3 | 5 | 8 | 10 => 30
  | _ => 31
  end.

(** [MakeDay (y, m, date)] of the language: the month may lie outside 0..11
    and carries into the year. *)
Definition makeDay (y m date : Z) : Z :=
  daysFromCivil (y + m / 12) (m mod 12) + (date - 1).

(** [dayjs (t)]: the fields of the time value [t] in the local zone, which is
    [tz] milliseconds ahead of UTC. *)
Definition fields (tz t : Z) : Fields :=
  let l := t + tz in
  let '(y, m, d) := civilFromDays (l / msPerDay) in
  let w := l mod msPerDay in
  mkFields y m d (w / msPerHour) ((w mod msPerHour) / msPerMinute).

(** [dayjs (t).subtract (n, "month").toDate ()]: set the date to 1, move the
    month, then restore the date clamped to the length of the new month; the
    time within the day is kept. *)
Definition subtractMonths (tz : Z) (n : Z) (t : Z) : Z :=
  let l := t + tz in
  let '(y, m, d) := civilFromDays (l / msPerDay) in
  let m' := m - n in
  let y1 := y + m' / 12 in
  let m1 := m' mod 12 in
  let d1 := Z.min d (daysInMonth y1 m1) in
  makeDay y1 m1 d1 * msPerDay + l mod msPerDay - tz.

Definition monthShort (m : Z) : string :=
  match m with
  | 0 => "Jan" | 1 => "Feb" | 2 => "Mar" | 3 => "Apr"
  | 4 => "May" | 5 => "Jun" | 6 => "Jul" | 7 => "Aug"
  | 8 => "Sep" | 9 => "Oct" | 10 => "Nov" | _ => "Dec"
  end.

Fixpoint zeros (n : nat) : string :=
  match n with
  | O => EmptyString
  | S n' => String "0" (zeros n')
  end.

(** [Utils.s (n, len, "0")]: left padding with zeros up to [len]. *)
Definition padStart (len : nat) (n : Z) : string :=
  let s := pretty n in
  zeros (len - String.length s) +:+ s.

(** The formats used by the sources. *)
Definition formatMMM_YY (tz t : Z) : string :=
  let f := fields tz t in
  monthShort (f_month f) +:+ " " +:+ Js.sliceLast 2 (pretty (f_year f)).

Definition formatYYYY_MM (tz t : Z) : string :=
  let f := fields tz t in
  padStart 4 (f_year f) +:+ "-" +:+ padStart 2 (f_month f + 1).

Definition formatDD_MMM_YYYY (tz t : Z) : string :=
  let f := fields tz t in
  padStart 2 (f_date f) +:+ "-" +:+ monthShort (f_month f) +:+ "-" +:+
  padStart 4 (f_year f).

Definition formatDD_MMM_YYYY_HH_mm (tz t : Z) : string :=
  let f := fields tz t in
  formatDD_MMM_YYYY tz t +:+ " " +:+ padStart 2 (f_hour f) +:+ ":" +:+
  padStart 2 (f_minute f).

End Dayjs.

(** ** zod: the combinators used by the schema *)

Module Zod.

(** A value handed to [parse]: [undefined], a string, or anything else
    (a number, a boolean, [null], an object). *)
Inductive JsValue : Type :=
  | JsUndefined
  | JsString (s : string)
  | JsOther.

Inductive IssueCode : Type :=
  | invalid_type
  | too_small
  | too_big
  | invalid_string
  | invalid_enum_value
  | invalid_literal
  | invalid_union.

(** An issue before the object schema attaches the path; [imessage] is the
    message given in the schema, [None] standing for the library default. *)
Record RawIssue : Type := mkRawIssue {
  icode : IssueCode;
  imessage : option string
}.

Record ZodIssue : Type := mkIssue {
  code : IssueCode;
  path : string;
  message : option string
}.

(** The three outcomes of a schema on a value: valid with the output,
    dirty (checks failed on a value of the right type) or invalid. *)
Inductive ParseReturn (T : Type) : Type :=
  | OK (v : T)
  | DIRTY (issues : list RawIssue)
  | INVALID (issues : list RawIssue).
Arguments OK {T} v.
Arguments DIRTY {T} issues.
Arguments INVALID {T} issues.

Definition Schema (T : Type) : Type := JsValue -> ParseReturn T.

(** The checks of a string schema, in the order of the method chain. *)
Inductive Check : Type :=
  | Min (n : nat) (msg : string)
  | Max (n : nat) (msg : string)
  | Trim
  | Url (msg : string)
  | Uuid (msg : string).

(** The two syntactic tests that zod delegates to the platform:
    [new URL (s)] does not throw, and the UUID pattern matches. *)
Class Validators : Type := {
  isUrl : string -> bool;
  isUuid : string -> bool
}.

Section Combinators.
Context `{Validators}.

(** One pass over the checks, as [ZodString._parse] does: a check tests
    the current data, [Trim] replaces it. *)
Fixpoint runChecks (cs : list Check) (data : string) : string * list RawIssue :=
  match cs with
  | [] => (data, [])
  | c :: cs' =>
      match c with
      | Min n msg =>
          let '(d, iss) := runChecks cs' data in
          if (String.length data <? n)%nat
          then (d, mkRawIssue too_small (Some msg) :: iss) else (d, iss)
      | Max n msg =>
          let '(d, iss) := runChecks cs' data in
          if (n <? String.length data)%nat
          then (d, mkRawIssue too_big (Some msg) :: iss) else (d, iss)
      | Trim => runChecks cs' (Js.trim data)
      | Url msg =>
          let '(d, iss) := runChecks cs' data in
          if isUrl data then (d, iss)
          else (d, mkRawIssue invalid_string (Some msg) :: iss)
      | Uuid msg =>
          let '(d, iss) := runChecks cs' data in
          if isUuid data then (d, iss)
          else (d, mkRawIssue invalid_string (Some msg) :: iss)
      end
  end.

(** [z.string ()] followed by checks. *)
Definition zString (cs : list Check) : Schema string := fun v =>
  match v with
  | JsString s =>
      match runChecks cs s with
      | (d, []) => OK d
      | (_, iss) => DIRTY iss
      end
  | _ => INVALID [mkRawIssue invalid_type None]
  end.

(** [.optional ()] *)
Definition zOptional {T} (inner : Schema T) : Schema (option T) := fun v =>
  match v with
  | JsUndefined => OK None
  | _ =>
      match inner v with
      | OK x => OK (Some x)
      | DIRTY iss => DIRTY iss
      | INVALID iss => INVALID iss
      end
  end.

(** [z.literal (lit)] for a string literal. *)
Definition zLiteral (lit : string) : Schema string := fun v =>
  match v with
  | JsString s =>
      if String.eqb s lit then OK s
      else INVALID [mkRawIssue invalid_literal None]
  | _ => INVALID [mkRawIssue invalid_literal None]
  end.

(** [a.or (b)]: the first valid option wins; otherwise the issues of the
    first dirty option are reported, and an [invalid_union] issue when
    no option is dirty. *)
Definition zOr {T} (a b : Schema T) : Schema T := fun v =>
  match a v with
  | OK x => OK x
  | DIRTY ia =>
      match b v with
      | OK y => OK y
      | _ => DIRTY ia
      end
  | INVALID _ =>
      match b v with
      | OK y => OK y
      | DIRTY ib => DIRTY ib
      | INVALID _ => INVALID [mkRawIssue invalid_union None]
      end
  end.

(** [z.nativeEnum (E, { errorMap })] for an enum with string values. *)
Definition zNativeEnum {E} (values : list (string * E)) (msg : string) : Schema E :=
  fun v =>
    match v with
    | JsString s =>
        match List.find (fun p => String.eqb (fst p) s) values with
        | Some p => OK (snd p)
        | None => INVALID [mkRawIssue invalid_enum_value (Some msg)]
        end
    | _ => INVALID [mkRawIssue invalid_type (Some msg)]
    end.

(** The literal schema lifted to the output type of an optional string. *)
Definition literalOpt (lit : string) : Schema (option string) := fun v =>
  match zLiteral lit v with
  | OK s => OK (Some s)
  | DIRTY iss => DIRTY iss
  | INVALID iss => INVALID iss
  end.

Definition issuesAt {T} (p : string) (r : ParseReturn T) : list ZodIssue :=
  match r with
  | OK _ => []
  | DIRTY iss | INVALID iss => List.map (fun i => mkIssue (icode i) p (imessage i)) iss
  end.
End Combinators.

End Zod.

(** ** The types module: job records, enums, schema and sanitizer *)

Module Types.
Import Zod.

(** [JobType]: a row of the job table.  Dates are time values. *)
Record JobType : Type := mkJob {
  id : string;
  clerkId : string;
  position : string;
  company : string;
  location : string;
  status : string;
  mode : string;
  appliedDate : Z;
  lastContact : option Z;
  nextFollowUp : option Z;
  salaryRange : option string;
  jobUrl : option string;
  website : option string;
  resumeId : option string;
  coverLetterUrl : option string;
  notes : option string;
  createdAt : Z;
  updatedAt : Z
}.

Inductive JobStatus : Type := Applied | Screening | Interview | Offer | Rejected.

Definition JobStatus_value (s : JobStatus) : string :=
  match s with
  | Applied => "applied"
  | Screening => "screening"
  | Interview => "interview"
  | Offer => "offer"
  | Rejected => "rejected"
  end.

Definition JobStatus_values : list JobStatus :=
  [Applied; Screening; Interview; Offer; Rejected].

Inductive JobMode : Type := FullTime | PartTime | Contract | Remote | Hybrid.

Definition JobMode_value (m : JobMode) : string :=
  match m with
  | FullTime => "full-time"
  | PartTime => "part-time"
  | Contract => "contract"
  | Remote => "remote"
  | Hybrid => "hybrid"
  end.

Definition JobMode_values : list JobMode :=
  [FullTime; PartTime; Contract; Remote; Hybrid].

(** The object handed to [createAndEditJobSchema.parse]: at run time each
    property is an arbitrary value. *)
Record JobInput : Type := mkInput {
  in_position : JsValue;
  in_company : JsValue;
  in_location : JsValue;
  in_status : JsValue;
  in_mode : JsValue;
  in_salaryRange : JsValue;
  in_jobUrl : JsValue;
  in_website : JsValue;
  in_coverLetterUrl : JsValue;
  in_resumeId : JsValue;
  in_notes : JsValue
}.

(** [CreateAndEditJobType]: the output type of the schema. *)
Record CreateAndEditJobType : Type := mkValidated {
  v_position : string;
  v_company : string;
  v_location : string;
  v_status : JobStatus;
  v_mode : JobMode;
  v_salaryRange : option string;
  v_jobUrl : option string;
  v_website : option string;
  v_coverLetterUrl : option string;
  v_resumeId : option string;
  v_notes : option string
}.

(** The object returned by [sanitizeJobInput]; [None] is [null]. *)
Record SanitizedJob : Type := mkSanitized {
  s_position : string;
  s_company : string;
  s_location : string;
  s_status : JobStatus;
  s_mode : JobMode;
  s_salaryRange : option string;
  s_jobUrl : option string;
  s_website : option string;
  s_coverLetterUrl : option string;
  s_resumeId : option string;
  s_notes : option string
}.

Section Schema.
Context `{Validators}.

Definition positionSchema : Schema string :=
  zString [Min 2 "Position must be at least 2 characters";
           Max 200 "Position must not exceed 200 characters";
           Trim].

Definition companySchema : Schema string :=
  zString [Min 2 "Company must be at least 2 characters";
           Max 200 "Company must not exceed 200 characters";
           Trim].

Definition locationSchema : Schema string :=
  zString [Min 2 "Location must be at least 2 characters";
           Max 200 "Location must not exceed 200 characters";
           Trim].

Definition statusSchema : Schema JobStatus :=
  zNativeEnum (List.map (fun s => (JobStatus_value s, s)) JobStatus_values)
              "Please select a valid status".

Definition modeSchema : Schema JobMode :=
  zNativeEnum (List.map (fun m => (JobMode_value m, m)) JobMode_values)
              "Please select a valid employment type".

Definition salaryRangeSchema : Schema (option string) :=
  zOr (zOptional (zString [Max 100 "Salary range must not exceed 100 characters";
                           Trim]))
      (literalOpt "").

Definition urlSchema : Schema (option string) :=
  zOr (zOptional (zString [Url "Please enter a valid URL";
                           Max 500 "URL must not exceed 500 characters"]))
      (literalOpt "").

Definition jobUrlSchema : Schema (option string) := urlSchema.
Definition websiteSchema : Schema (option string) := urlSchema.
Definition coverLetterUrlSchema : Schema (option string) := urlSchema.

Definition resumeIdSchema : Schema (option string) :=
  zOr (zOptional (zString [Uuid "Invalid resume ID format"]))
      (literalOpt "").

Definition notesSchema : Schema (option string) :=
  zOr (zOptional (zString [Max 5000 "Notes must not exceed 5000 characters";
                           Trim]))
      (literalOpt "").

(** [createAndEditJobSchema.safeParse]: every property is parsed, the issues
    of all properties are collected under the property's name, and the
    output exists only when there is no issue. *)
Definition createAndEditJobSchema (input : JobInput)
  : list ZodIssue + CreateAndEditJobType :=
  let r1 := positionSchema (in_position input) in
  let r2 := companySchema (in_company input) in
  let r3 := locationSchema (in_location input) in
  let r4 := statusSchema (in_status input) in
  let r5 := modeSchema (in_mode input) in
  let r6 := salaryRangeSchema (in_salaryRange input) in
  let r7 := jobUrlSchema (in_jobUrl input) in
  let r8 := websiteSchema (in_website input) in
  let r9 := coverLetterUrlSchema (in_coverLetterUrl input) in
  let r10 := resumeIdSchema (in_resumeId input) in
  let r11 := notesSchema (in_notes input) in
  match r1, r2, r3, r4, r5, r6, r7, r8, r9, r10, r11 with
  | OK a1, OK a2, OK a3, OK a4, OK a5, OK a6, OK a7, OK a8, OK a9, OK a10, OK a11 =>
      inr (mkValidated a1 a2 a3 a4 a5 a6 a7 a8 a9 a10 a11)
  | _, _, _, _, _, _, _, _, _, _, _ =>
      inl (issuesAt "position" r1 ++ issuesAt "company" r2 ++
           issuesAt "location" r3 ++ issuesAt "status" r4 ++
           issuesAt "mode" r5 ++ issuesAt "salaryRange" r6 ++
           issuesAt "jobUrl" r7 ++ issuesAt "website" r8 ++
           issuesAt "coverLetterUrl" r9 ++ issuesAt "resumeId" r10 ++
           issuesAt "notes" r11)
  end.
End Schema.

Definition sanitizeJobInput (input : CreateAndEditJobType) : SanitizedJob :=
  {| s_position := v_position input;
     s_company := v_company input;
     s_location := v_location input;
     s_status := v_status input;
     s_mode := v_mode input;
     s_salaryRange := Js.orNull (v_salaryRange input);
     s_jobUrl := Js.orNull (v_jobUrl input);
     s_website := Js.orNull (v_website input);
     s_coverLetterUrl := Js.orNull (v_coverLetterUrl input);
     s_resumeId := Js.orNull (v_resumeId input);
     s_notes := Js.orNull (v_notes input) |}.

(** The six optional properties, and their readers on each record. *)
Inductive OptionalField : Type :=
  | FSalaryRange | FJobUrl | FWebsite | FCoverLetterUrl | FResumeId | FNotes.

Definition inputField (f : OptionalField) (i : JobInput) : JsValue :=
  match f with
  | FSalaryRange => in_salaryRange i
  | FJobUrl => in_jobUrl i
  | FWebsite => in_website i
  | FCoverLetterUrl => in_coverLetterUrl i
  | FResumeId => in_resumeId i
  | FNotes => in_notes i
  end.

Definition sanitizedField (f : OptionalField) (s : SanitizedJob) : option string :=
  match f with
  | FSalaryRange => s_salaryRange s
  | FJobUrl => s_jobUrl s
  | FWebsite => s_website s
  | FCoverLetterUrl => s_coverLetterUrl s
  | FResumeId => s_resumeId s
  | FNotes => s_notes s
  end.

Definition jobField (f : OptionalField) (j : JobType) : option string :=
  match f with
  | FSalaryRange => salaryRange j
  | FJobUrl => jobUrl j
  | FWebsite => website j
  | FCoverLetterUrl => coverLetterUrl j
  | FResumeId => resumeId j
  | FNotes => notes j
  end.

(** The three required text properties. *)
Inductive RequiredField : Type := FPosition | FCompany | FLocation.

Definition requiredName (f : RequiredField) : string :=
  match f with
  | FPosition => "position"
  | FCompany => "company"
  | FLocation => "location"
  end.

Definition inputRequired (f : RequiredField) (i : JobInput) : JsValue :=
  match f with
  | FPosition => in_position i
  | FCompany => in_company i
  | FLocation => in_location i
  end.

Definition sanitizedRequired (f : RequiredField) (s : SanitizedJob) : string :=
  match f with
  | FPosition => s_position s
  | FCompany => s_company s
  | FLocation => s_location s
  end.

End Types.

(** ** The server: world, exceptions and the Prisma client *)

Module Server.
Import Zod Types.

Inductive PrismaErrorKind : Type :=
  | StorageFault        (* the database cannot be reached or the query fails *)
  | InvalidArgument     (* the query is refused: negative [skip] *)
  | RecordNotFound.     (* [update] or [delete] found no row *)

(** What a [throw] can carry past a call. *)
Inductive Thrown : Type :=
  | ZodError (issues : list ZodIssue)
  | PrismaError (kind : PrismaErrorKind)
  | NextRedirect (url : string).

Record World : Type := mkWorld {
  session : option string;              (* [auth ().userId] *)
  now : Z;                              (* the clock *)
  tz : Z;                               (* local zone, ms ahead of UTC *)
  jobTable : list JobType;              (* rows of [prisma.job] *)
  faults : list bool;                   (* pending storage faults, one per query *)
  nextId : nat;                         (* id generator of the table *)
  console : list (string * Thrown);     (* [console.error] lines *)
  revalidated : list string             (* [revalidatePath] calls *)
}.

Definition setJobTable (t : list JobType) (w : World) : World :=
  mkWorld (session w) (now w) (tz w) t (faults w) (nextId w) (console w) (revalidated w).
Definition setFaults (f : list bool) (w : World) : World :=
  mkWorld (session w) (now w) (tz w) (jobTable w) f (nextId w) (console w) (revalidated w).
Definition setNextId (n : nat) (w : World) : World :=
  mkWorld (session w) (now w) (tz w) (jobTable w) (faults w) n (console w) (revalidated w).
Definition setConsole (c : list (string * Thrown)) (w : World) : World :=
  mkWorld (session w) (now w) (tz w) (jobTable w) (faults w) (nextId w) c (revalidated w).
Definition setRevalidated (r : list string) (w : World) : World :=
  mkWorld (session w) (now w) (tz w) (jobTable w) (faults w) (nextId w) (console w) r.

Inductive Completion (A : Type) : Type :=
  | Return (a : A)
  | Throw (e : Thrown).
Arguments Return {A} a.
Arguments Throw {A} e.

(** An asynchronous function: it reads and changes the world and either
    returns or throws. *)
Definition Action (A : Type) : Type := World -> Completion A * World.

#[export] Instance Action_ret : MRet Action := fun A a w => (Return a, w).

#[export] Instance Action_bind : MBind Action := fun A B f m w =>
  match m w with
  | (Return a, w') => f a w'
  | (Throw e, w') => (Throw e, w')
  end.

Definition throw {A} (e : Thrown) : Action A := fun w => (Throw e, w).

(** [try { body } catch (error) { handler (error) }] *)
Definition tryCatch {A} (body : Action A) (handler : Thrown -> Action A) : Action A :=
  fun w =>
    match body w with
    | (Return a, w') => (Return a, w')
    | (Throw e, w') => handler e w'
    end.

Definition getWorld : Action World := fun w => (Return w, w).

(** [redirect (url)] of next/navigation: it throws. *)
Definition redirect {A} (url : string) : Action A := throw (NextRedirect url).

Definition revalidatePath (p : string) : Action unit := fun w =>
  (Return tt, setRevalidated (revalidated w ++ [p]) w).

Definition consoleError (msg : string) (e : Thrown) : Action unit := fun w =>
  (Return tt, setConsole (console w ++ [(msg, e)]) w).

End Server.

(** ** The Prisma client on the job table *)

Module Prisma.
Import Zod Types Server.

Inductive SortOrder : Type := asc | desc.

(** The [where] objects built by the actions. *)
Record JobWhereInput : Type := mkWhere {
  where_id : option string;
  where_clerkId : option string;
  where_OR_contains : option string;    (* position or company, insensitive *)
  where_status : option string;
  where_appliedDate_gte : option Z
}.

Definition whereClerk (userId : string) : JobWhereInput :=
  mkWhere None (Some userId) None None None.

Definition optTest {A} (o : option A) (p : A -> bool) : bool :=
  match o with
  | Some a => p a
  | None => true
  end.

(** [contains] with [mode: "insensitive"], case folded on ASCII letters. *)
Definition containsInsensitive (field needle : string) : bool :=
  Js.includes (Js.toLowerCase field) (Js.toLowerCase needle).

(** A row satisfies a [where] object when it satisfies all its members. *)
Definition matches (wh : JobWhereInput) (j : JobType) : bool :=
  optTest (where_id wh) (String.eqb (id j)) &&
  optTest (where_clerkId wh) (String.eqb (clerkId j)) &&
  optTest (where_OR_contains wh)
    (fun s => containsInsensitive (position j) s || containsInsensitive (company j) s) &&
  optTest (where_status wh) (String.eqb (status j)) &&
  optTest (where_appliedDate_gte wh) (fun d => d <=? appliedDate j).

(** [orderBy: { appliedDate: o }]; rows with equal dates keep table order. *)
Definition orderByAppliedDate (o : SortOrder) (rows : list JobType) : list JobType :=
  match o with
  | asc => Js.sort (fun a b => appliedDate a <? appliedDate b) rows
  | desc => Js.sort (fun a b => appliedDate b <? appliedDate a) rows
  end.

(** An omitted [skip] is 0. *)
Definition skipOf (skip : option Z) : Z :=
  match skip with
  | Some s => s
  | None => 0
  end.

(** [skip] and [take]; a negative [take] selects from the end of the order. *)
Definition paginate (skip take : option Z) (rows : list JobType) : list JobType :=
  let s := Z.to_nat (skipOf skip) in
  match take with
  | None => drop s rows
  | Some t =>
      if 0 <=? t then List.firstn (Z.to_nat t) (drop s rows)
      else rev (List.firstn (Z.to_nat (- t)) (drop s (rev rows)))
  end.

(** Every query first meets the storage layer, which may fail. *)
Definition query {A} (run : Action A) : Action A := fun w =>
  match faults w with
  | true :: rest => (Throw (PrismaError StorageFault), setFaults rest w)
  | false :: rest => run (setFaults rest w)
  | [] => run w
  end.

Definition findMany (wh : JobWhereInput) (o : SortOrder) (skip take : option Z)
  : Action (list JobType) :=
  query (fun w =>
    if skipOf skip <? 0 then (Throw (PrismaError InvalidArgument), w)
    else (Return (paginate skip take
                    (orderByAppliedDate o (List.filter (matches wh) (jobTable w)))), w)).

Definition count (wh : JobWhereInput) : Action Z :=
  query (fun w =>
    (Return (Z.of_nat (length (List.filter (matches wh) (jobTable w)))), w)).

Definition findUnique (wh : JobWhereInput) : Action (option JobType) :=
  query (fun w => (Return (List.find (matches wh) (jobTable w)), w)).

(** [prisma.job.create]: the table assigns the id and the timestamps; the
    columns not given take their defaults.  The Prisma schema is not among
    the sources read here: the model takes [appliedDate] to default to the
    time of creation and the two follow-up dates to be null; no property
    below depends on these defaults. *)
Definition create (data : SanitizedJob) (owner : string) : Action JobType :=
  query (fun w =>
    let job :=
      {| id := "job-" +:+ pretty (nextId w);
         clerkId := owner;
         position := s_position data;
         company := s_company data;
         location := s_location data;
         status := JobStatus_value (s_status data);
         mode := JobMode_value (s_mode data);
         appliedDate := now w;
         lastContact := None;
         nextFollowUp := None;
         salaryRange := s_salaryRange data;
         jobUrl := s_jobUrl data;
         website := s_website data;
         resumeId := s_resumeId data;
         coverLetterUrl := s_coverLetterUrl data;
         notes := s_notes data;
         createdAt := now w;
         updatedAt := now w |} in
    (Return job, setNextId (S (nextId w)) (setJobTable (jobTable w ++ [job]) w))).

Definition applyUpdate (data : SanitizedJob) (t : Z) (j : JobType) : JobType :=
  {| id := id j;
     clerkId := clerkId j;
     position := s_position data;
     company := s_company data;
     location := s_location data;
     status := JobStatus_value (s_status data);
     mode := JobMode_value (s_mode data);
     appliedDate := appliedDate j;
     lastContact := lastContact j;
     nextFollowUp := nextFollowUp j;
     salaryRange := s_salaryRange data;
     jobUrl := s_jobUrl data;
     website := s_website data;
     resumeId := s_resumeId data;
     coverLetterUrl := s_coverLetterUrl data;
     notes := s_notes data;
     createdAt := createdAt j;
     updatedAt := t |}.

(** Replace the first row that satisfies [wh]. *)
Fixpoint replaceFirst (wh : JobWhereInput) (f : JobType -> JobType) (rows : list JobType)
  : list JobType :=
  match rows with
  | [] => []
  | j :: rest => if matches wh j then f j :: rest else j :: replaceFirst wh f rest
  end.

Fixpoint removeFirst (wh : JobWhereInput) (rows : list JobType) : list JobType :=
  match rows with
  | [] => []
  | j :: rest => if matches wh j then rest else j :: removeFirst wh rest
  end.

Definition update (wh : JobWhereInput) (data : SanitizedJob) : Action JobType :=
  query (fun w =>
    match List.find (matches wh) (jobTable w) with
    | None => (Throw (PrismaError RecordNotFound), w)
    | Some j =>
        (Return (applyUpdate data (now w) j),
         setJobTable (replaceFirst wh (applyUpdate data (now w)) (jobTable w)) w)
    end).

Definition delete (wh : JobWhereInput) : Action JobType :=
  query (fun w =>
    match List.find (matches wh) (jobTable w) with
    | None => (Throw (PrismaError RecordNotFound), w)
    | Some j => (Return j, setJobTable (removeFirst wh (jobTable w)) w)
    end).

(** [groupBy ({ by: ["status"], _count: { status: true }, where })]: one
    group per status that occurs, with the number of its rows. *)
Fixpoint addToGroup (s : string) (groups : list (string * Z)) : list (string * Z) :=
  match groups with
  | [] => [(s, 1)]
  | (k, n) :: rest =>
      if String.eqb k s then (k, n + 1) :: rest else (k, n) :: addToGroup s rest
  end.

Definition groupByStatus (wh : JobWhereInput) : Action (list (string * Z)) :=
  query (fun w =>
    (Return (fold_left (fun g j => addToGroup (status j) g)
                       (List.filter (matches wh) (jobTable w)) []), w)).

End Prisma.

(** ** The server actions of [utils/actions.ts] *)

Module Actions.
Import Zod Types Server.

(** [createAndEditJobSchema.parse]: the issues are thrown as a [ZodError]. *)
Definition parse `{Validators} (values : JobInput) : Action CreateAndEditJobType :=
  match createAndEditJobSchema values with
  | inr v => mret v
  | inl issues => throw (ZodError issues)
  end.

Definition authenticateAndRedirect : Action string := fun w =>
  match session w with
  | Some userId => if Js.truthy userId then (Return userId, w) else redirect "/" w
  | None => redirect "/" w
  end.

Definition createJobAction `{Validators} (values : JobInput) : Action (option JobType) :=
  userId ← authenticateAndRedirect;
  tryCatch
    (validatedData ← parse values;
     let sanitizedData := sanitizeJobInput validatedData in
     job ← Prisma.create sanitizedData userId;
     _ ← revalidatePath "/";
     _ ← revalidatePath "/jobs";
     mret (Some job))
    (fun error =>
       _ ← consoleError "Error creating job:" error;
       mret None).

Record GetAllJobsActionTypes : Type := mkArgs {
  search : option string;
  jobStatus : option string;
  page : option Z;
  limit : option Z
}.

Record JobsPage : Type := mkPage {
  jobs : list JobType;
  count : Z;
  pageNumber : Z;
  totalPages : Js.number
}.

(** The [where] object of the list query: the owner, then the search and
    the status filter when they are given and truthy. *)
Definition listWhere (userId : string) (search jobStatus : option string)
  : Prisma.JobWhereInput :=
  let w0 := Prisma.whereClerk userId in
  let w1 :=
    match search with
    | Some s =>
        if Js.truthy s
        then Prisma.mkWhere (Prisma.where_id w0) (Prisma.where_clerkId w0) (Some s)
                            (Prisma.where_status w0) (Prisma.where_appliedDate_gte w0)
        else w0
    | None => w0
    end in
  match jobStatus with
  | Some st =>
      if Js.truthy st && negb (String.eqb st "all")
      then Prisma.mkWhere (Prisma.where_id w1) (Prisma.where_clerkId w1)
                          (Prisma.where_OR_contains w1) (Some st)
                          (Prisma.where_appliedDate_gte w1)
      else w1
  | None => w1
  end.

Definition getAllJobsAction (args : GetAllJobsActionTypes) : Action JobsPage :=
  let page := default 1 (page args) in
  let limit := default 10 (limit args) in
  userId ← authenticateAndRedirect;
  tryCatch
    (let whereClause := listWhere userId (search args) (jobStatus args) in
     let skip := (page - 1) * limit in
     jobs ← Prisma.findMany whereClause Prisma.desc (Some skip) (Some limit);
     count ← Prisma.count whereClause;
     let totalPages := Js.ceilDiv count limit in
     mret (mkPage jobs count page totalPages))
    (fun error =>
       _ ← consoleError "Error fetching jobs:" error;
       mret (mkPage [] 0 1 (Js.Num 0))).

Definition whereIdClerk (id userId : string) : Prisma.JobWhereInput :=
  Prisma.mkWhere (Some id) (Some userId) None None None.

Definition deleteJobAction (id : string) : Action (option JobType) :=
  userId ← authenticateAndRedirect;
  tryCatch
    (job ← Prisma.delete (whereIdClerk id userId);
     _ ← revalidatePath "/";
     _ ← revalidatePath "/jobs";
     mret (Some job))
    (fun error =>
       _ ← consoleError "Error deleting job:" error;
       mret None).

Definition getSingleJobAction (id : string) : Action (option JobType) :=
  userId ← authenticateAndRedirect;
  tryCatch
    (job ← Prisma.findUnique (whereIdClerk id userId);
     match job with
     | None => redirect "/jobs"
     | Some j => mret (Some j)
     end)
    (fun error =>
       _ ← consoleError "Error fetching job:" error;
       redirect "/jobs").

Definition updateJobAction `{Validators} (id : string) (values : JobInput)
  : Action (option JobType) :=
  userId ← authenticateAndRedirect;
  tryCatch
    (validatedData ← parse values;
     let sanitizedData := sanitizeJobInput validatedData in
     job ← Prisma.update (whereIdClerk id userId) sanitizedData;
     _ ← revalidatePath "/";
     _ ← revalidatePath "/jobs";
     _ ← revalidatePath ("/jobs/" +:+ id);
     mret (Some job))
    (fun error =>
       _ ← consoleError "Error updating job:" error;
       mret None).

(** [acc[key] = value] on a plain object: the key ["__proto__"] reaches the
    prototype setter, which ignores a number, and creates no property. *)
Definition setProperty (key : string) (value : Z) (acc : gmap string Z) : gmap string Z :=
  if String.eqb key "__proto__" then acc else <[key := value]> acc.

(** The object literal with the five statuses at zero. *)
Definition zeroStats : gmap string Z :=
  <["applied" := 0]> (<["screening" := 0]> (<["interview" := 0]>
    (<["offer" := 0]> (<["rejected" := 0]> ∅)))).

Definition getStatsAction : Action (gmap string Z) :=
  userId ← authenticateAndRedirect;
  tryCatch
    (stats ← Prisma.groupByStatus (Prisma.whereClerk userId);
     let statsObject :=
       fold_left (fun acc curr => setProperty (fst curr) (snd curr) acc) stats ∅ in
     (* the spread of [statsObject] after the defaults overrides them *)
     let defaultStats := statsObject ∪ zeroStats in
     mret defaultStats)
    (fun error =>
       _ ← consoleError "Error fetching stats:" error;
       redirect "/jobs").

(** One step of the [reduce] of the chart: the first entry with this label
    is incremented in place, otherwise a new entry is pushed. *)
Fixpoint countMonth (date : string) (acc : list (string * Z)) : list (string * Z) :=
  match acc with
  | [] => [(date, 1)]
  | (d, c) :: rest =>
      if String.eqb d date then (d, c + 1) :: rest else (d, c) :: countMonth date rest
  end.

Definition applicationsPerMonth (tz : Z) (jobs : list JobType) : list (string * Z) :=
  fold_left (fun acc job => countMonth (Dayjs.formatMMM_YY tz (appliedDate job)) acc)
            jobs [].

Definition getChartsDataAction : Action (list (string * Z)) :=
  userId ← authenticateAndRedirect;
  w ← getWorld;
  let sixMonthsAgo := Dayjs.subtractMonths (tz w) 6 (now w) in
  tryCatch
    (jobs ← Prisma.findMany
              (Prisma.mkWhere None (Some userId) None None (Some sixMonthsAgo))
              Prisma.asc None None;
     mret (applicationsPerMonth (tz w) jobs))
    (fun error =>
       _ ← consoleError "Error fetching chart data:" error;
       redirect "/jobs").

Definition getAllJobsForDownloadAction : Action (list JobType) :=
  userId ← authenticateAndRedirect;
  tryCatch
    (Prisma.findMany (Prisma.whereClerk userId) Prisma.desc None None)
    (fun error =>
       _ ← consoleError "Error fetching jobs for download:" error;
       mret []).

End Actions.

(** ** The export of [components/DownloadDropdown.tsx] *)

Module DownloadDropdown.
Import Types.

(** The line feed. *)
Definition nl : string := String "010"%char EmptyString.

(** A double quote. *)
Definition dq : string := String "034"%char EmptyString.

(** A cell of the sheet: a string or a number. *)
Inductive Cell : Type :=
  | CStr (s : string)
  | CNum (n : Z).

Definition countWhere (p : JobType -> bool) (jobs : list JobType) : Z :=
  Z.of_nat (length (List.filter p jobs)).

Record CsvFile : Type := mkCsv {
  csvContent : string;
  csvName : string
}.

(** The state of the loop over the sorted jobs: the text so far, the next
    serial number and the month key of the previous row. *)
Definition csvRow (tz : Z) (st : string * Z * string) (job : JobType)
  : string * Z * string :=
  let '(csvContent, serial, lastMonthKey) := st in
  let appliedDate := Dayjs.formatDD_MMM_YYYY tz (createdAt job) in
  let monthKey := Dayjs.formatYYYY_MM tz (createdAt job) in
  let jobTitle := dq +:+ position job +:+ dq in
  let company := dq +:+ company job +:+ dq in
  let location := dq +:+ location job +:+ dq in
  let role :=
    if String.eqb (mode job) "full-time" then "Full Time"
    else if String.eqb (mode job) "part-time" then "Part Time"
    else "Internship" in
  let status := Js.capitalize (status job) in
  let csvContent :=
    if Js.truthy lastMonthKey && negb (String.eqb monthKey lastMonthKey)
    then csvContent +:+ nl else csvContent in
  (csvContent +:+ pretty serial +:+ "," +:+ appliedDate +:+ "," +:+ jobTitle +:+ "," +:+
     company +:+ "," +:+ location +:+ "," +:+ role +:+ "," +:+ status +:+ nl,
   serial + 1,
   monthKey).

Definition downloadAsCSV (now tz : Z) (jobs : list JobType) : CsvFile :=
  let totalApplied := Z.of_nat (length jobs) in
  let declined := countWhere (fun j => String.eqb (status j) "declined") jobs in
  let interview := countWhere (fun j => String.eqb (status j) "interview") jobs in
  let pending := countWhere (fun j => String.eqb (status j) "pending") jobs in
  let generatedAt := Dayjs.formatDD_MMM_YYYY_HH_mm tz now in
  let headingText :=
    "Total Applied: " +:+ pretty totalApplied +:+ ", Declined: " +:+ pretty declined +:+
    ", Interview: " +:+ pretty interview +:+ ", Pending: " +:+ pretty pending +:+
    "      Report Generated: " +:+ generatedAt in
  let sorted := Js.sort (fun a b => createdAt b <? createdAt a) jobs in
  let csvContent :=
    "Job Application History" +:+ nl +:+ dq +:+ headingText +:+ dq +:+ nl +:+ nl in
  let csvContent :=
    csvContent +:+
    "No.,Applied Date,Job Title,Company Name,Job Location,Role,Status" +:+ nl in
  let '(csvContent, _, _) := fold_left (csvRow tz) sorted (csvContent, 1, "") in
  mkCsv csvContent ("job-applications-" +:+ Dayjs.formatYYYY_MM tz now +:+ ".csv").

Record ExcelFile : Type := mkExcel {
  rows : list (list Cell);
  merges : list ((Z * Z) * (Z * Z));    (* start (r, c), end (r, c) *)
  sheetName : string;
  excelName : string
}.

Definition excelRow (tz : Z) (st : list (list Cell) * Z * string) (job : JobType)
  : list (list Cell) * Z * string :=
  let '(rows, serial, lastMonthKey) := st in
  let appliedDate := Dayjs.formatDD_MMM_YYYY tz (createdAt job) in
  let monthKey := Dayjs.formatYYYY_MM tz (createdAt job) in
  let role :=
    if String.eqb (mode job) "full-time" then "Full Time"
    else if String.eqb (mode job) "part-time" then "Part Time"
    else "Internship" in
  let status := Js.capitalize (status job) in
  let rows :=
    if Js.truthy lastMonthKey && negb (String.eqb monthKey lastMonthKey)
    then rows ++ [[]] else rows in
  (rows ++ [[CNum serial; CStr appliedDate; CStr (position job); CStr (company job);
             CStr (location job); CStr role; CStr status]],
   serial + 1,
   monthKey).

Definition downloadAsExcel (now tz : Z) (jobs : list JobType) : ExcelFile :=
  let totalApplied := Z.of_nat (length jobs) in
  let declined := countWhere (fun j => String.eqb (status j) "declined") jobs in
  let interview := countWhere (fun j => String.eqb (status j) "interview") jobs in
  let pending := countWhere (fun j => String.eqb (status j) "pending") jobs in
  let generatedAt := Dayjs.formatDD_MMM_YYYY_HH_mm tz now in
  let headingText :=
    "Total Applied: " +:+ pretty totalApplied +:+ ", Declined: " +:+ pretty declined +:+
    ", Interview: " +:+ pretty interview +:+ ", Pending: " +:+ pretty pending +:+
    "      Report Generated: " +:+ generatedAt in
  let sorted := Js.sort (fun a b => createdAt b <? createdAt a) jobs in
  let rows : list (list Cell) :=
    [[CStr "Job Application History"];
     [CStr headingText];
     [];
     [CStr "No."; CStr "Applied Date"; CStr "Job Title"; CStr "Company Name";
      CStr "Job Location"; CStr "Role"; CStr "Status"]] in
  let '(rows, _, _) := fold_left (excelRow tz) sorted (rows, 1, "") in
  mkExcel rows [((0, 0), (0, 6)); ((1, 0), (1, 6))] "Job Applications"
          ("job-applications-" +:+ Dayjs.formatYYYY_MM tz now +:+ ".xlsx").

End DownloadDropdown.

(** ** The route handlers of [app/api]

    A handler awaits a server action inside [try] and answers with
    [NextResponse.json]; its [catch] writes to the console and answers 500.
    A redirect thrown by the action is an exception like any other to the
    [catch] of the handler. *)

Module Routes.
Import Zod Types Server Actions.

(** The value given to [NextResponse.json]. *)
Inductive Body : Type :=
  | JobJson (job : JobType)
  | PageJson (result : JobsPage)
  | JobsJson (jobs : list JobType)
  | StatsJson (stats : gmap string Z)
  | ChartJson (chartData : list (string * Z))
  | ErrorJson (error : string).

Record NextResponse : Type := mkResponse {
  r_body : Body;
  r_status : Z
}.

(** [NextResponse.json (body)]: the status is 200 when none is given. *)
Definition json (body : Body) : NextResponse := mkResponse body 200.

(** [catch (error) { console.error (msg, error); return json ({ error }, { status: 500 }) }] *)
Definition fail (msg error : string) (e : Thrown) : Action NextResponse :=
  _ ← consoleError msg e;
  mret (mkResponse (ErrorJson error) 500).

(** The value of a digit in a radix up to 16. *)
Definition digitOf (radix : Z) (c : ascii) : option Z :=
  let n := Z.of_N (N_of_ascii c) in
  let v :=
    if (48 <=? n) && (n <=? 57) then Some (n - 48)
    else if (97 <=? n) && (n <=? 102) then Some (n - 87)
    else if (65 <=? n) && (n <=? 70) then Some (n - 55)
    else None in
  match v with
  | Some d => if d <? radix then Some d else None
  | None => None
  end.

(** The value of the longest prefix of digits, if it is not empty. *)
Fixpoint digitsValue (radix : Z) (acc : option Z) (s : string) : option Z :=
  match s with
  | EmptyString => acc
  | String c s' =>
      match digitOf radix c with
      | Some d =>
          digitsValue radix
            (Some (match acc with Some a => a * radix + d | None => d end)) s'
      | None => acc
      end
  end.

(** [parseInt (s)]: leading white space, a sign, the prefix 0x or 0X, then
    the longest run of digits; without a digit the result is NaN.  The
    language rounds an integer beyond 2^53 to a double; the model gives no
    result there. *)
Definition parseInt (s : string) : option Js.number :=
  let s1 := Js.trimStart s in
  let '(sign, s2) :=
    match s1 with
    | String "-" r => (-1, r)
    | String "+" r => (1, r)
    | _ => (1, s1)
    end in
  let '(radix, s3) :=
    match s2 with
    | String "0" (String "x" r) => (16, r)
    | String "0" (String "X" r) => (16, r)
    | _ => (10, s2)
    end in
  match digitsValue radix None s3 with
  | None => Some Js.NaN
  | Some v => if v <=? 2 ^ 53 then Some (Js.Num (sign * v)) else None
  end.

(** [searchParams.get (name)]: the first value under the name, or null. *)
Fixpoint get (name : string) (searchParams : list (string * string)) : option string :=
  match searchParams with
  | [] => None
  | (k, v) :: rest => if String.eqb k name then Some v else get name rest
  end.

(** [searchParams.get (name) ? parseInt (searchParams.get (name)!) : dflt],
    where it is an integer. *)
Definition intParam (name : string) (dflt : Z) (searchParams : list (string * string))
  : option Z :=
  match get name searchParams with
  | Some s =>
      if Js.truthy s then
        match parseInt s with
        | Some (Js.Num z) => Some z
        | _ => None
        end
      else Some dflt
  | None => Some dflt
  end.

(** [/api/jobs] *)
Module Jobs.

(** The argument that [GET] gives to [getAllJobsAction]; there is none in
    the model when the page or the limit is not a number or is beyond
    2^53. *)
Definition queryArgs (searchParams : list (string * string))
  : option GetAllJobsActionTypes :=
  let search := Js.orNull (get "search" searchParams) in
  let jobStatus := Js.orNull (get "jobStatus" searchParams) in
  match intParam "page" 1 searchParams, intParam "limit" 10 searchParams with
  | Some page, Some limit => Some (mkArgs search jobStatus (Some page) (Some limit))
  | _, _ => None
  end.

Definition GET (searchParams : list (string * string)) : option (Action NextResponse) :=
  match queryArgs searchParams with
  | Some args =>
      Some (tryCatch
              (result ← getAllJobsAction args;
               mret (json (PageJson result)))
              (fail "Error fetching jobs:" "Failed to fetch jobs"))
  | None => None
  end.

(** [body] is the object that [request.json ()] resolves to. *)
Definition POST `{Validators} (body : JobInput) : Action NextResponse :=
  tryCatch
    (job ← createJobAction body;
     match job with
     | None => mret (mkResponse (ErrorJson "Failed to create job") 400)
     | Some j => mret (mkResponse (JobJson j) 201)
     end)
    (fail "Error creating job:" "Failed to create job").

End Jobs.

(** [/api/jobs/download] *)
Module Download.

Definition GET : Action NextResponse :=
  tryCatch
    (jobs ← getAllJobsForDownloadAction;
     mret (json (JobsJson jobs)))
    (fail "Error fetching jobs for download:" "Failed to fetch jobs for download").

End Download.

(** [/api/stats] *)
Module Stats.

Definition GET : Action NextResponse :=
  tryCatch
    (stats ← getStatsAction;
     mret (json (StatsJson stats)))
    (fail "Error fetching stats:" "Failed to fetch statistics").

End Stats.

(** [/api/charts] *)
Module Charts.

Definition GET : Action NextResponse :=
  tryCatch
    (chartData ← getChartsDataAction;
     mret (json (ChartJson chartData)))
    (fail "Error fetching chart data:" "Failed to fetch chart data").

End Charts.

(** [/api/jobs/[id]] *)
Module JobsId.

Definition GET (id : string) : Action NextResponse :=
  tryCatch
    (job ← getSingleJobAction id;
     match job with
     | None => mret (mkResponse (ErrorJson "Job not found") 404)
     | Some j => mret (json (JobJson j))
     end)
    (fail "Error fetching job:" "Failed to fetch job").

Definition PUT `{Validators} (id : string) (body : JobInput) : Action NextResponse :=
  tryCatch
    (job ← updateJobAction id body;
     match job with
     | None => mret (mkResponse (ErrorJson "Failed to update job") 400)
     | Some j => mret (json (JobJson j))
     end)
    (fail "Error updating job:" "Failed to update job").

Definition DELETE (id : string) : Action NextResponse :=
  tryCatch
    (job ← deleteJobAction id;
     match job with
     | None => mret (mkResponse (ErrorJson "Failed to delete job") 400)
     | Some j => mret (json (JobJson j))
     end)
    (fail "Error deleting job:" "Failed to delete job").

End JobsId.

End Routes.

(** ** The design system: [lib/design-system.ts] *)

Module DesignSystem.

(** [String.prototype.toLowerCase] on code units below 256: the letters
    A-Z and the capital letters of Latin-1 move up by 32. *)
Definition lowerCode (c : ascii) : ascii :=
  let n := N_of_ascii c in
  if (((65 <=? n) && (n <=? 90)) ||
      ((192 <=? n) && (n <=? 222) && negb (n =? 215)))%N
  then ascii_of_N (n + 32) else c.

Fixpoint toLowerCase (s : string) : string :=
  match s with
  | EmptyString => EmptyString
  | String c s' => String (lowerCode c) (toLowerCase s')
  end.

(** [s.replace (/\s+/g, " ")]: every maximal run of white space becomes one
    space; [inRun] tells that the code unit before was white space. *)
Fixpoint replaceSpaces (inRun : bool) (s : string) : string :=
  match s with
  | EmptyString => EmptyString
  | String c s' =>
      if Js.isWhiteSpace c
      then (if inRun then replaceSpaces true s' else String " " (replaceSpaces true s'))
      else String c (replaceSpaces false s')
  end.

(** [Array.prototype.join] on strings. *)
Fixpoint join (sep : string) (l : list string) : string :=
  match l with
  | [] => EmptyString
  | [x] => x
  | x :: rest => x +:+ sep +:+ join sep rest
  end.

(** [colors.status] *)
Definition colors_status_applied : string := "#FFFB46".
Definition colors_status_screening : string := "#1BA68A".
Definition colors_status_interview : string := "#1BA68A".
Definition colors_status_offer : string := "#1BA68A".
Definition colors_status_rejected : string := "#113B32".

(** A template literal that opens with a line break, holds one class on
    each line behind four spaces, and closes behind two spaces. *)
Definition template (classes : list string) : string :=
  String "010" (fold_right (fun c rest => "    " +:+ c +:+ String "010" rest) "  " classes).

(** [template.replace (/\s+/g, " ").trim ()] *)
Definition variant (classes : list string) : string :=
  Js.trim (replaceSpaces false (template classes)).

Definition statusBadgeVariants_applied : string :=
  variant ["bg-[#FFFB46]"; "text-[#113B32]"; "border"; "border-[#1BA68A]"; "px-3"; "py-1";
           "rounded-full"; "text-xs"; "font-semibold"; "uppercase"].
Definition statusBadgeVariants_screening : string :=
  variant ["bg-[#1BA68A]"; "text-white"; "px-3"; "py-1"; "rounded-full"; "text-xs";
           "font-semibold"; "uppercase"].
Definition statusBadgeVariants_interview : string :=
  variant ["bg-[#1BA68A]"; "text-white"; "px-3"; "py-1"; "rounded-full"; "text-xs";
           "font-semibold"; "uppercase"].
Definition statusBadgeVariants_offer : string :=
  variant ["bg-[#1BA68A]"; "text-white"; "px-3"; "py-1"; "rounded-full"; "text-xs";
           "font-semibold"; "uppercase"].
Definition statusBadgeVariants_rejected : string :=
  variant ["bg-[#113B32]"; "text-white"; "opacity-60"; "px-3"; "py-1"; "rounded-full";
           "text-xs"; "font-semibold"; "uppercase"].

Definition getStatusBadgeClass (status : string) : string :=
  let normalizedStatus := toLowerCase status in
  if String.eqb normalizedStatus "applied" then statusBadgeVariants_applied
  else if String.eqb normalizedStatus "screening" then statusBadgeVariants_screening
  else if String.eqb normalizedStatus "interview" then statusBadgeVariants_interview
  else if String.eqb normalizedStatus "offer" then statusBadgeVariants_offer
  else if String.eqb normalizedStatus "rejected" then statusBadgeVariants_rejected
  else statusBadgeVariants_applied.

Definition getStatusColor (status : string) : string :=
  let normalizedStatus := toLowerCase status in
  if String.eqb normalizedStatus "applied" then colors_status_applied
  else if String.eqb normalizedStatus "screening" then colors_status_screening
  else if String.eqb normalizedStatus "interview" then colors_status_interview
  else if String.eqb normalizedStatus "offer" then colors_status_offer
  else if String.eqb normalizedStatus "rejected" then colors_status_rejected
  else colors_status_applied.

(** An argument of [cn]. *)
Inductive ClassValue : Type :=
  | ClassName (s : string)
  | ClassUndefined
  | ClassNull
  | ClassFalse.

(** [Boolean (c)]: of the strings only the empty one is falsy. *)
Definition toBoolean (c : ClassValue) : bool :=
  match c with
  | ClassName s => Js.truthy s
  | _ => false
  end.

(** The text of an element in [join]; null and undefined give the empty
    string, false gives its name. *)
Definition textOf (c : ClassValue) : string :=
  match c with
  | ClassName s => s
  | ClassFalse => "false"
  | _ => EmptyString
  end.

Definition cn (classes : list ClassValue) : string :=
  join " " (List.map textOf (List.filter toBoolean classes)).

End DesignSystem.

(** ** The Prisma client singleton: [utils/db.ts] *)

Module Db.

(** What the module reads and writes when it is evaluated: the environment,
    the slot [globalThis.prisma], and the clients constructed so far, each
    known by its number. *)
Record Runtime : Type := mkRuntime {
  NODE_ENV : option string;
  globalForPrisma_prisma : option nat;
  constructed : nat
}.

(** [new PrismaClient ()] *)
Definition prismaClientSingleton (r : Runtime) : nat * Runtime :=
  (constructed r, mkRuntime (NODE_ENV r) (globalForPrisma_prisma r) (S (constructed r))).

(** One evaluation of the module; the result is the exported client. *)
Definition evaluate (r : Runtime) : nat * Runtime :=
  let '(prisma, r1) :=
    match globalForPrisma_prisma r with
    | Some client => (client, r)
    | None => prismaClientSingleton r
    end in
  let production :=
    match NODE_ENV r1 with
    | Some env => String.eqb env "production"
    | None => false
    end in
  (prisma,
   if negb production
   then mkRuntime (NODE_ENV r1) (Some prisma) (constructed r1)
   else r1).

(** The clients exported by [n] evaluations in a row. *)
Fixpoint evaluations (n : nat) (r : Runtime) : list nat * Runtime :=
  match n with
  | O => ([], r)
  | S n' =>
      let '(client, r1) := evaluate r in
      let '(clients, r2) := evaluations n' r1 in
      (client :: clients, r2)
  end.

End Db.

(** ** The helper [groupJobsByMonth] of [components/DownloadDropdown.tsx] *)

Module Grouping.
Import Types.

(** [dayjs (t).format ("MMM YYYY")] *)
Definition formatMMM_YYYY (tz t : Z) : string :=
  let f := Dayjs.fields tz t in
  Dayjs.monthShort (Dayjs.f_month f) +:+ " " +:+ Dayjs.padStart 4 (Dayjs.f_year f).

(** [if (!acc[month]) acc[month] = []; acc[month].push (job)] on an object
    whose keys, month labels, are kept in the order of their creation. *)
Fixpoint push (month : string) (job : JobType) (acc : list (string * list JobType))
  : list (string * list JobType) :=
  match acc with
  | [] => [(month, [job])]
  | (k, js) :: rest =>
      if String.eqb k month then (k, js ++ [job]) :: rest
      else (k, js) :: push month job rest
  end.

Definition groupJobsByMonth (tz : Z) (jobs : list JobType) : list (string * list JobType) :=
  fold_left (fun acc job => push (formatMMM_YYYY tz (createdAt job)) job acc) jobs [].

End Grouping.

(** ** The form [CreateJobForm] and its submission *)

Module CreateJobForm.
Import Zod Types Server Actions.

(** [formData.get (name)] as a property of the request body: a string, or
    null when the form has no such field. *)
Definition field (name : string) (formData : list (string * string)) : JsValue :=
  match Routes.get name formData with
  | Some s => JsString s
  | None => JsOther
  end.

(** [formData.get (name) as string || ""] *)
Definition orEmpty (name : string) (formData : list (string * string)) : JsValue :=
  match Js.orNull (Routes.get name formData) with
  | Some s => JsString s
  | None => JsString EmptyString
  end.

(** The object sent as the body; [coverLetterUrl] and [resumeId] are not
    set and so are absent from the JSON text. *)
Definition jobData (formData : list (string * string)) : JobInput :=
  {| in_position := field "position" formData;
     in_company := field "company" formData;
     in_location := field "location" formData;
     in_status := field "status" formData;
     in_mode := field "mode" formData;
     in_salaryRange := orEmpty "salaryRange" formData;
     in_jobUrl := orEmpty "jobUrl" formData;
     in_website := orEmpty "website" formData;
     in_coverLetterUrl := JsUndefined;
     in_resumeId := JsUndefined;
     in_notes := orEmpty "notes" formData |}.

(** How a submission ends for the user: the form closes, or it shows a
    message. *)
Inductive Submission : Type :=
  | Saved
  | Failed (submit : string).

(** [response.ok] *)
Definition ok (r : Routes.NextResponse) : bool :=
  (200 <=? Routes.r_status r) && (Routes.r_status r <=? 299).

(** [handleSubmit], for a request that reaches the handler. *)
Definition handleSubmit `{Validators} (formData : list (string * string))
  : Action Submission :=
  response ← Routes.Jobs.POST (jobData formData);
  if ok response then mret Saved
  else mret (Failed "Failed to create job. Please try again.").

End CreateJobForm.

(** ** The home page: [app/(dashboard)/home/page.tsx] *)

Module HomePage.
Import Types Server Actions.

(** The query string of [fetch ("/api/jobs?page=1&limit=100")]. *)
Definition searchParams : list (string * string) :=
  [("page", "1"); ("limit", "100")]%string.

(** [response.ok] *)
Definition ok (r : Routes.NextResponse) : bool :=
  (200 <=? Routes.r_status r) && (Routes.r_status r <=? 299).

(** [queryFn]: the body of the answer; when the answer is not [ok] the
    function throws and [data] stays undefined.  The handler exists for
    this query string. *)
Definition queryFn : Action (option Routes.Body) :=
  match Routes.Jobs.GET searchParams with
  | Some handler =>
      response ← handler;
      if ok response then mret (Some (Routes.r_body response)) else mret None
  | None => mret None
  end.

(** [data?.jobs || []] *)
Definition jobsOf (data : option Routes.Body) : list JobType :=
  match data with
  | Some (Routes.PageJson result) => jobs result
  | _ => []
  end.

(** [data?.count || 0] *)
Definition countOf (data : option Routes.Body) : Z :=
  match data with
  | Some (Routes.PageJson result) => count result
  | _ => 0
  end.

(** [view === "grid" && count > 0]: the button that adds a job. *)
Definition addButton (data : option Routes.Body) : bool := 0 <? countOf data.

End HomePage.

(** ** The statistics cards: [components/StatsContainer.tsx] *)

Module StatsContainer.
Import Types Server Actions.

(** [response.ok] *)
Definition ok (r : Routes.NextResponse) : bool :=
  (200 <=? Routes.r_status r) && (Routes.r_status r <=? 299).

(** [queryFn]: the body of the answer of [/api/stats]; when the answer is
    not [ok] the function throws and [data] stays undefined. *)
Definition queryFn : Action (option Routes.Body) :=
  response ← Routes.Stats.GET;
  if ok response then mret (Some (Routes.r_body response)) else mret None.



End StatsContainer.

(** ** The chart of the months: [ChartsContainer] *)

Module ChartsContainer.
Import Types Server Actions.

(** [response.ok] *)
Definition ok (r : Routes.NextResponse) : bool :=
  (200 <=? Routes.r_status r) && (Routes.r_status r <=? 299).

(** [queryFn]: the body of the answer of [/api/charts], or nothing. *)
Definition queryFn : Action (option Routes.Body) :=
  response ← Routes.Charts.GET;
  if ok response then mret (Some (Routes.r_body response)) else mret None.


End ChartsContainer.

(** ** A concrete platform for running the definitions

    The theorems below hold for every instance of [Zod.Validators]; this one
    accepts the http and https addresses with a non-empty remainder and the
    identifiers of the shape 8-4-4-4-12 in hexadecimal digits. *)

Module Sample.

Definition isHexDigit (c : ascii) : bool :=
  let n := N_of_ascii c in
  (((48 <=? n) && (n <=? 57)) || ((65 <=? n) && (n <=? 70)) ||
   ((97 <=? n) && (n <=? 102)))%N.

Fixpoint hexRun (n : nat) (s : string) : option string :=
  match n, s with
  | O, _ => Some s
  | S n', String c s' => if isHexDigit c then hexRun n' s' else None
  | S _, EmptyString => None
  end.

Definition dash (s : option string) : option string :=
  match s with
  | Some (String "-"%char s') => Some s'
  | _ => None
  end.

Definition uuidShape (s : string) : bool :=
  match hexRun 8 s with
  | Some s1 =>
      match dash (Some s1) ≫= hexRun 4 with
      | Some s2 =>
          match dash (Some s2) ≫= hexRun 4 with
          | Some s3 =>
              match dash (Some s3) ≫= hexRun 4 with
              | Some s4 =>
                  match dash (Some s4) ≫= hexRun 12 with
                  | Some EmptyString => true
                  | _ => false
                  end
              | None => false
              end
          | None => false
          end
      | None => false
      end
  | None => false
  end.

Definition httpUrl (s : string) : bool :=
  (Js.startsWith "http://" s && (7 <? String.length s)%nat) ||
  (Js.startsWith "https://" s && (8 <? String.length s)%nat).

Definition validators : Zod.Validators :=
  {| Zod.isUrl := httpUrl; Zod.isUuid := uuidShape |}.

End Sample.

(** ** Notions used to state the properties *)

Module Spec.
Import Zod Types Server Actions.

(** The caller whom [authenticateAndRedirect] lets through. *)
Definition currentUser (w : World) : option string :=
  match session w with
  | Some u => if Js.truthy u then Some u else None
  | None => None
  end.

(** The next [n] queries meet no storage fault. *)
Definition noFault (n : nat) (w : World) : bool :=
  forallb negb (List.firstn n (faults w)).

(** The world in which the next query has been answered. *)
Definition afterQuery (w : World) : World := setFaults (tl (faults w)) w.

(** The ids of the table are pairwise distinct. *)
Definition uniqueIds (t : list JobType) : Prop := NoDup (List.map id t).

(** The rows of one owner, in table order. *)
Definition ownedBy (userId : string) (t : list JobType) : list JobType :=
  List.filter (fun j => String.eqb (clerkId j) userId) t.

(** A string that [trim] leaves unchanged. *)
Definition trimmed (s : string) : Prop := Js.trim s = s.

(** Number of occurrences of a string in a list. *)
Definition occurrences (s : string) (l : list string) : Z :=
  Z.of_nat (length (List.filter (String.eqb s) l)).

(** The distinct elements of a list in the order of their first occurrence. *)
Definition firstSeen (l : list string) : list string :=
  fold_left (fun acc x => if existsb (String.eqb x) acc then acc else acc ++ [x]) l [].

(** The list is in ascending (descending) order of the key. *)
Definition ascendingBy {A} (key : A -> Z) (l : list A) : Prop :=
  Sorted (fun a b => key a <= key b) l.
Definition descendingBy {A} (key : A -> Z) (l : list A) : Prop :=
  Sorted (fun a b => key b <= key a) l.

(** The Role column as the property states it: a table over the modes. *)
Definition roleOfMode (m : string) : string :=
  if String.eqb m (JobMode_value FullTime) then "Full Time"
  else if String.eqb m (JobMode_value PartTime) then "Part Time"
  else "Internship".

(** The rows of the export below the header: a separator or a numbered
    data row. *)
Inductive ExportRow : Type :=
  | Separator
  | DataRow (serial : Z) (job : JobType).

Definition monthKey (tz : Z) (j : JobType) : string :=
  Dayjs.formatYYYY_MM tz (createdAt j).

(** The row sequence as the property states it: the jobs in the given order,
    numbered from [serial], with one separator before a job whose month
    differs from the month of the job before it. *)
Fixpoint exportRowsFrom (tz : Z) (prev : option JobType) (serial : Z)
  (js : list JobType) : list ExportRow :=
  match js with
  | [] => []
  | j :: rest =>
      let sep :=
        match prev with
        | Some p => if String.eqb (monthKey tz p) (monthKey tz j) then [] else [Separator]
        | None => []
        end in
      sep ++ DataRow serial j :: exportRowsFrom tz (Some j) (serial + 1) rest
  end.

Definition exportRows (tz : Z) (js : list JobType) : list ExportRow :=
  exportRowsFrom tz None 1 js.

Definition isSeparator (r : ExportRow) : bool :=
  match r with
  | Separator => true
  | DataRow _ _ => false
  end.

Definition excelOfRow (tz : Z) (r : ExportRow) : list DownloadDropdown.Cell :=
  match r with
  | Separator => []
  | DataRow n j =>
      [DownloadDropdown.CNum n;
       DownloadDropdown.CStr (Dayjs.formatDD_MMM_YYYY tz (createdAt j));
       DownloadDropdown.CStr (position j);
       DownloadDropdown.CStr (company j);
       DownloadDropdown.CStr (location j);
       DownloadDropdown.CStr (roleOfMode (mode j));
       DownloadDropdown.CStr (Js.capitalize (status j))]
  end.

Definition quoted (s : string) : string :=
  DownloadDropdown.dq +:+ s +:+ DownloadDropdown.dq.

Definition csvOfRow (tz : Z) (r : ExportRow) : string :=
  match r with
  | Separator => DownloadDropdown.nl
  | DataRow n j =>
      pretty n +:+ "," +:+ Dayjs.formatDD_MMM_YYYY tz (createdAt j) +:+ "," +:+
      quoted (position j) +:+ "," +:+ quoted (company j) +:+ "," +:+
      quoted (location j) +:+ "," +:+ roleOfMode (mode j) +:+ "," +:+
      Js.capitalize (status j) +:+ DownloadDropdown.nl
  end.

Fixpoint concatStrings (l : list string) : string :=
  match l with
  | [] => EmptyString
  | s :: rest => s +:+ concatStrings rest
  end.

(** The jobs in the order of the export. *)
Definition exportOrder (jobs : list JobType) : list JobType :=
  Js.sort (fun a b => createdAt b <? createdAt a) jobs.

(** The text of the summary row, from the four numbers and the time stamp
    that it shows. *)
Definition summaryText (total declined interview pending : Z) (generatedAt : string)
  : string :=
  "Total Applied: " +:+ pretty total +:+ ", Declined: " +:+ pretty declined +:+
  ", Interview: " +:+ pretty interview +:+ ", Pending: " +:+ pretty pending +:+
  "      Report Generated: " +:+ generatedAt.

Definition statusCount (s : string) (jobs : list JobType) : Z :=
  occurrences s (List.map status jobs).

(** No white space at the front of a string. *)
Definition cleanStart (s : string) : Prop :=
  match s with
  | EmptyString => True
  | String c _ => Js.isWhiteSpace c = false
  end.

(** Readers of the validated record, and the schema of each property. *)
Definition validatedField (f : OptionalField) (v : CreateAndEditJobType) : option string :=
  match f with
  | FSalaryRange => v_salaryRange v
  | FJobUrl => v_jobUrl v
  | FWebsite => v_website v
  | FCoverLetterUrl => v_coverLetterUrl v
  | FResumeId => v_resumeId v
  | FNotes => v_notes v
  end.

Definition optionalSchema `{Validators} (f : OptionalField) : Schema (option string) :=
  match f with
  | FSalaryRange => salaryRangeSchema
  | FJobUrl => jobUrlSchema
  | FWebsite => websiteSchema
  | FCoverLetterUrl => coverLetterUrlSchema
  | FResumeId => resumeIdSchema
  | FNotes => notesSchema
  end.

Definition validatedRequired (f : RequiredField) (v : CreateAndEditJobType) : string :=
  match f with
  | FPosition => v_position v
  | FCompany => v_company v
  | FLocation => v_location v
  end.

Definition requiredSchema `{Validators} (f : RequiredField) : Schema string :=
  match f with
  | FPosition => positionSchema
  | FCompany => companySchema
  | FLocation => locationSchema
  end.

(** The filter of the list in words: the search term, when given and not
    empty, occurs in the position or the company without regard to case; the
    status filter, when given, not empty and not ["all"], is the status. *)
Definition searchHit (search : option string) (j : JobType) : Prop :=
  forall s, search = Some s -> s <> EmptyString ->
    Prisma.containsInsensitive (position j) s = true \/
    Prisma.containsInsensitive (company j) s = true.

Definition statusHit (jobStatus : option string) (j : JobType) : Prop :=
  forall s, jobStatus = Some s -> s <> EmptyString -> s <> "all"%string -> status j = s.

(** The value of the first entry with the key. *)
Fixpoint alookup (k : string) (g : list (string * Z)) : option Z :=
  match g with
  | [] => None
  | (k', v) :: rest => if String.eqb k' k then Some v else alookup k rest
  end.

(** The groups of a list of statuses, and the object built from groups. *)
Definition statusGroups (l : list string) : list (string * Z) :=
  fold_left (fun g s => Prisma.addToGroup s g) l [].
Definition statsObjectOf (g : list (string * Z)) (acc : gmap string Z) : gmap string Z :=
  fold_left (fun acc curr => setProperty (fst curr) (snd curr) acc) g acc.

(** The label of the month of a job in the chart. *)
Definition monthLabel (tz : Z) (j : JobType) : string :=
  Dayjs.formatMMM_YY tz (appliedDate j).

(** The first job of each label, in the order of the list. *)
Definition firstOfMonth (tz : Z) (js : list JobType) : list JobType :=
  fold_left (fun acc j =>
               if existsb (String.eqb (monthLabel tz j)) (List.map (monthLabel tz) acc)
               then acc else acc ++ [j]) js [].

(** The data rows of a list of jobs, numbered from [n]. *)
Fixpoint numbered (n : Z) (js : list JobType) : list ExportRow :=
  match js with
  | [] => []
  | j :: rest => DataRow n j :: numbered (n + 1) rest
  end.

(** The separator that the property puts between two neighbours. *)
Definition separatorBetween (tz : Z) (a b : JobType) : list ExportRow :=
  if String.eqb (monthKey tz a) (monthKey tz b) then [] else [Separator].

(** The month key carried by the loop after a job, or before the first. *)
Definition lastKey (tz : Z) (prev : option JobType) : string :=
  match prev with
  | Some p => monthKey tz p
  | None => EmptyString
  end.

(** The four rows above the data: title, summary, blank, column titles. *)
Definition excelHead (summary : string) : list (list DownloadDropdown.Cell) :=
  [[DownloadDropdown.CStr "Job Application History"];
   [DownloadDropdown.CStr summary];
   [];
   [DownloadDropdown.CStr "No."; DownloadDropdown.CStr "Applied Date";
    DownloadDropdown.CStr "Job Title"; DownloadDropdown.CStr "Company Name";
    DownloadDropdown.CStr "Job Location"; DownloadDropdown.CStr "Role";
    DownloadDropdown.CStr "Status"]].

Definition csvHead (summary : string) : string :=
  ("Job Application History" +:+ DownloadDropdown.nl +:+ DownloadDropdown.dq +:+
   summary +:+ DownloadDropdown.dq +:+ DownloadDropdown.nl +:+ DownloadDropdown.nl) +:+
  "No.,Applied Date,Job Title,Company Name,Job Location,Role,Status" +:+
  DownloadDropdown.nl.

(** The summary of an export: the total and the three counted statuses. *)
Definition exportSummary (now tz : Z) (jobs : list JobType) : string :=
  summaryText (Z.of_nat (length jobs)) (statusCount "declined" jobs)
              (statusCount "interview" jobs) (statusCount "pending" jobs)
              (Dayjs.formatDD_MMM_YYYY_HH_mm tz now).

(** The rows that one job adds: the separator when the month changes, then
    its data row. *)
Definition rowsOfJob (tz : Z) (prev : option JobType) (serial : Z) (j : JobType)
  : list ExportRow :=
  match prev with
  | Some p => separatorBetween tz p j
  | None => []
  end ++ [DataRow serial j].

(** The text of the summary row of a sheet. *)
Definition summaryCell (f : DownloadDropdown.ExcelFile) : string :=
  match DownloadDropdown.rows f with
  | _ :: [DownloadDropdown.CStr h] :: _ => h
  | _ => EmptyString
  end.

(** Sample data for running the definitions. *)
Definition sampleJob (ident owner st md : string) (created : Z) : JobType :=
  {| id := ident; clerkId := owner; position := "Engineer"; company := "Acme";
     location := "Lyon"; status := st; mode := md;
     appliedDate := created; lastContact := None; nextFollowUp := None;
     salaryRange := None; jobUrl := None; website := None; resumeId := None;
     coverLetterUrl := None; notes := None;
     createdAt := created; updatedAt := created |}.

(** Five offers and one application, all of one owner. *)
Definition sampleOffers : list JobType :=
  [sampleJob "j1" "user_1" "offer" "remote" 1000;
   sampleJob "j2" "user_1" "offer" "remote" 2000;
   sampleJob "j3" "user_1" "offer" "hybrid" 3000;
   sampleJob "j4" "user_1" "offer" "contract" 4000;
   sampleJob "j5" "user_1" "offer" "full-time" 5000;
   sampleJob "j6" "user_1" "applied" "part-time" 6000].

(** A completion that carries a storage error to the caller. *)
Definition storageErrorEscapes {A} (c : Completion A) : Prop :=
  exists kind, c = Throw (PrismaError kind).

(** What the list action answers when it fails. *)
Definition emptyPage : JobsPage := mkPage [] 0 1 (Js.Num 0).

(** A signed-in world over the sample rows whose next query fails. *)
Definition faultyWorld : World :=
  mkWorld (Some "user_1"%string) 1742040000000 0 sampleOffers [true] 6 [] [].

(** The same world with the storage answering. *)
Definition healthyWorld : World :=
  mkWorld (Some "user_1"%string) 1742040000000 0 sampleOffers [] 6 [] [].

(** An input with every optional property empty. *)
Definition sampleInput : JobInput :=
  mkInput (JsString "Engineer") (JsString "Acme") (JsString "Lyon")
          (JsString "applied") (JsString "remote")
          (JsString "") (JsString "") (JsString "") (JsString "") (JsString "")
          (JsString "").

Definition sampleValidated : CreateAndEditJobType :=
  mkValidated "Engineer" "Acme" "Lyon" Applied Remote
              (Some EmptyString) (Some EmptyString) (Some EmptyString)
              (Some EmptyString) (Some EmptyString) (Some EmptyString).

(** An input whose position is three spaces. *)
Definition paddedInput : JobInput :=
  mkInput (JsString "   ") (JsString "Acme") (JsString "Lyon")
          (JsString "applied") (JsString "remote")
          JsUndefined JsUndefined JsUndefined JsUndefined JsUndefined JsUndefined.

(** Twenty-five applications of one owner, and a world that holds them. *)
Definition twentyFive : list JobType :=
  List.map (fun n => sampleJob (pretty n) "user_1" "applied" "remote" (Z.of_nat n))
           (seq 0 25).

Definition listWorld : World :=
  mkWorld (Some "user_1"%string) 1742040000000 0 twentyFive [] 25 [] [].

(** Two owners with one row each. *)
Definition rowOfB : JobType := sampleJob "b1" "user_2" "applied" "remote" 2000.

Definition sharedWorld : World :=
  mkWorld (Some "user_1"%string) 1742040000000 0
          [sampleJob "a1" "user_1" "applied" "remote" 1000; rowOfB] [] 2 [] [].

(** Rows of statuses applied, applied, offer. *)
Definition statsWorld : World :=
  mkWorld (Some "user_1"%string) 1742040000000 0
          [sampleJob "s1" "user_1" "applied" "remote" 1000;
           sampleJob "s2" "user_1" "applied" "remote" 2000;
           sampleJob "s3" "user_1" "offer" "remote" 3000] [] 3 [] [].

(** The clock reads 2025-03-15 12:00 UTC; the rows were applied seven months
    before, at the cutoff six months before, and twice in January 2025. *)
Definition trendWorld : World :=
  mkWorld (Some "user_1"%string) 1742040000000 0
          [sampleJob "t1" "user_1" "applied" "remote" 1737000000000;
           sampleJob "t2" "user_1" "applied" "remote" 1723723200000;
           sampleJob "t3" "user_1" "applied" "remote" 1726401600000;
           sampleJob "t4" "user_1" "offer" "remote" 1736000000000] [] 4 [] [].

(** The months since year 0 of a time value in the local zone: twelve times
    the year plus the month. *)
Definition monthIndex (tz t : Z) : Z :=
  Dayjs.f_year (Dayjs.fields tz t) * 12 + Dayjs.f_month (Dayjs.fields tz t).

(** The calendar month of a time value: its year and its month. *)
Definition calendarMonth (tz t : Z) : Z * Z :=
  (Dayjs.f_year (Dayjs.fields tz t), Dayjs.f_month (Dayjs.fields tz t)).

(** Day number of the first day of the month of index [M]. *)
Definition firstDay (M : Z) : Z := Dayjs.daysFromCivil (M / 12) (M mod 12).

(** Length of the month of index [M]. *)
Definition monthLength (M : Z) : Z := Dayjs.daysInMonth (M / 12) (M mod 12).

(** The issues of all properties, in the order of the schema. *)
Definition allIssues `{Validators} (input : JobInput) : list ZodIssue :=
  issuesAt "position" (positionSchema (in_position input)) ++
  issuesAt "company" (companySchema (in_company input)) ++
  issuesAt "location" (locationSchema (in_location input)) ++
  issuesAt "status" (statusSchema (in_status input)) ++
  issuesAt "mode" (modeSchema (in_mode input)) ++
  issuesAt "salaryRange" (salaryRangeSchema (in_salaryRange input)) ++
  issuesAt "jobUrl" (jobUrlSchema (in_jobUrl input)) ++
  issuesAt "website" (websiteSchema (in_website input)) ++
  issuesAt "coverLetterUrl" (coverLetterUrlSchema (in_coverLetterUrl input)) ++
  issuesAt "resumeId" (resumeIdSchema (in_resumeId input)) ++
  issuesAt "notes" (notesSchema (in_notes input)).

(** A schema result that is not valid. *)
Definition rejected {T} (r : ParseReturn T) : Prop :=
  match r with
  | OK _ => False
  | _ => True
  end.

(** A world without session. *)
Definition signedOutWorld : World :=
  mkWorld None 1750000000000 0 [sampleJob "a1" "user_1" "applied" "remote" 1000]
          [] 1 [] [].

(** What a read leaves as it was: the rows, the id generator, the
    revalidated paths, the session, the clock and the zone. *)
Definition sameRows (w w' : World) : Prop :=
  jobTable w' = jobTable w /\ nextId w' = nextId w /\ revalidated w' = revalidated w /\
  session w' = session w /\ now w' = now w /\ tz w' = tz w.

(** An action that keeps a relation between the world before and after. *)
Definition keeps {A} (R : World -> World -> Prop) (c : Action A) : Prop :=
  forall w, R w (snd (c w)).

(** A write that failed: the rows, the id generator and the revalidated
    paths are as before, and the console has one more line, under [msg]. *)
Definition failedWrite (msg : string) (w w' : World) : Prop :=
  jobTable w' = jobTable w /\ nextId w' = nextId w /\ revalidated w' = revalidated w /\
  exists e, console w' = console w ++ [(msg, e)].

Definition jobRequired (f : RequiredField) (j : JobType) : string :=
  match f with
  | FPosition => position j
  | FCompany => company j
  | FLocation => location j
  end.

(** A row as the actions write it: status and mode among the values of the
    enumerations, the required texts trimmed and of at most 200 code units,
    no optional text empty. *)
Definition wellFormedJob (j : JobType) : Prop :=
  (exists s : JobStatus, status j = JobStatus_value s) /\
  (exists m : JobMode, mode j = JobMode_value m) /\
  (forall f : RequiredField,
      trimmed (jobRequired f j) /\ (String.length (jobRequired f j) <= 200)%nat) /\
  (forall f : OptionalField, jobField f j <> Some EmptyString).

(** The row that an update writes over [old]. *)
Definition updatedRow (v : CreateAndEditJobType) (t : Z) (old : JobType) : JobType :=
  Prisma.applyUpdate (sanitizeJobInput v) t old.

(** The data of a write as the sanitizer leaves them. *)
Definition wellFormedData (d : SanitizedJob) : Prop :=
  (forall f : RequiredField,
      trimmed (sanitizedRequired f d) /\ (String.length (sanitizedRequired f d) <= 200)%nat) /\
  (forall f : OptionalField, sanitizedField f d <> Some EmptyString).

(** The worlds whose rows are all well formed stay so. *)
Definition staysWellFormed (w w' : World) : Prop :=
  Forall wellFormedJob (jobTable w) -> Forall wellFormedJob (jobTable w').

(** The jobs of a page, none when the action threw. *)
Definition pageJobs (c : Completion JobsPage) : list JobType :=
  match c with
  | Return r => jobs r
  | Throw _ => []
  end.

(** The sum of the counts of a list of groups. *)
Definition totalOf (g : list (string * Z)) : Z :=
  fold_right Z.add 0 (List.map snd g).

(** A completion that answers with one of the status codes. *)
Definition answers (codes : list Z) (c : Completion Routes.NextResponse) : Prop :=
  exists r, c = Return r /\ In (Routes.r_status r) codes.

(** The answer of a handler that failed. *)
Definition failure (error : string) (code : Z) : Routes.NextResponse :=
  Routes.mkResponse (Routes.ErrorJson error) code.

(** The row of the caller under an id, when the storage answers. *)
Definition ownedRow (userId ident : string) (w : World) : option JobType :=
  if noFault 1 w
  then List.find (Prisma.matches (whereIdClerk ident userId)) (jobTable w)
  else None.

(** Every white space of the string is one space followed by a code unit
    that is no white space. *)
Fixpoint singleSpaced (s : string) : bool :=
  match s with
  | EmptyString => true
  | String c s' =>
      (if Js.isWhiteSpace c
       then Ascii.eqb c " " &&
            match s' with
            | String d _ => negb (Js.isWhiteSpace d)
            | EmptyString => false
            end
       else true) && singleSpaced s'
  end.

(** A class list on one line: no white space in front or at the end, and
    single spaces between the classes. *)
Definition tidy (s : string) : Prop := cleanStart s /\ singleSpaced s = true.

(** The jobs under a month label in the grouping. *)
Fixpoint glookup (k : string) (g : list (string * list JobType)) : option (list JobType) :=
  match g with
  | [] => None
  | (k', v) :: rest => if String.eqb k' k then Some v else glookup k rest
  end.

(** The name under which the form holds an optional property, if it has a
    field for it. *)
Definition formName (f : OptionalField) : option string :=
  match f with
  | FSalaryRange => Some "salaryRange"%string
  | FJobUrl => Some "jobUrl"%string
  | FWebsite => Some "website"%string
  | FNotes => Some "notes"%string
  | FCoverLetterUrl | FResumeId => None
  end.

(** What the form tells the user when the submission fails. *)
Definition submitError : string := "Failed to create job. Please try again.".

End Spec.

(** * Properties *)

Import Zod Types Server Actions Spec.

(** ** Strings *)

Section StringFacts.
Import Js.

Lemma trimStart_length s : (String.length (trimStart s) <= String.length s)%nat.
Proof. induction s as [|c s IH]; simpl; [lia|]. destruct (isWhiteSpace c); simpl; lia. Qed.

Lemma trimEnd_length s : (String.length (trimEnd s) <= String.length s)%nat.
Proof.
  induction s as [|c s IH]; simpl; [lia|].
  destruct (trimEnd s); [destruct (isWhiteSpace c)|]; simpl in *; lia.
Qed.

Lemma trim_length s : (String.length (trim s) <= String.length s)%nat.
Proof.
  unfold trim. pose proof (trimEnd_length (trimStart s)).
  pose proof (trimStart_length s). lia.
Qed.

Lemma trimStart_clean s : cleanStart (trimStart s).
Proof.
  induction s as [|c s IH]; simpl; [exact I|].
  destruct (isWhiteSpace c) eqn:E; [exact IH|exact E].
Qed.

Lemma trimStart_id s : cleanStart s -> trimStart s = s.
Proof. destruct s as [|c s]; simpl; [reflexivity|]. intros ->. reflexivity. Qed.

Lemma trimEnd_clean s : cleanStart s -> cleanStart (trimEnd s).
Proof.
  destruct s as [|c s]; simpl; [exact (fun x => x)|]. intros E.
  destruct (trimEnd s); [rewrite E|]; simpl; exact E.
Qed.

Lemma trimEnd_idem s : trimEnd (trimEnd s) = trimEnd s.
Proof.
  induction s as [|c s IH]; simpl; [reflexivity|].
  destruct (trimEnd s) as [|d t] eqn:E.
  - destruct (isWhiteSpace c) eqn:Ec; simpl; [reflexivity|]. rewrite Ec. reflexivity.
  - simpl in IH |- *. destruct (trimEnd t) as [|d' t'] eqn:Et.
    + destruct (isWhiteSpace d); [discriminate|]. injection IH as ->. reflexivity.
    + rewrite IH. reflexivity.
Qed.

Lemma trim_idem s : trim (trim s) = trim s.
Proof.
  unfold trim.
  rewrite (trimStart_id (trimEnd (trimStart s))).
  - apply trimEnd_idem.
  - apply trimEnd_clean, trimStart_clean.
Qed.

Lemma truthy_false s : truthy s = false <-> s = EmptyString.
Proof.
  unfold truthy. destruct (String.eqb_spec s ""); simpl; split; congruence.
Qed.

Lemma orNull_not_empty v : orNull v <> Some EmptyString.
Proof.
  destruct v as [s|]; simpl; [|discriminate].
  destruct (truthy s) eqn:E; [|discriminate].
  intros [= ->]. discriminate.
Qed.
Lemma append_assoc (a b c : string) : (a +:+ b) +:+ c = a +:+ b +:+ c.
Proof.
  induction a as [|x a IH]; [reflexivity|].
  change (String x ((a +:+ b) +:+ c) = String x (a +:+ b +:+ c)). f_equal. exact IH.
Qed.

Lemma append_nil_r (a : string) : a +:+ "" = a.
Proof.
  induction a as [|x a IH]; [reflexivity|].
  change (String x (a +:+ "") = String x a). f_equal. exact IH.
Qed.

Lemma truthy_append a c b : Js.truthy (a +:+ String c b) = true.
Proof. destruct a; reflexivity. Qed.

Lemma length_append (a b : string) :
  String.length (a +:+ b) = (String.length a + String.length b)%nat.
Proof.
  induction a as [|x a IH]; [reflexivity|].
  change (S (String.length (a +:+ b)) = S (String.length a + String.length b)).
  rewrite IH. reflexivity.
Qed.

Lemma append_inj_length (a1 b1 a2 b2 : string) :
  a1 +:+ b1 = a2 +:+ b2 -> String.length a1 = String.length a2 -> a1 = a2 /\ b1 = b2.
Proof.
  revert a2. induction a1 as [|x a1 IH]; intros [|y a2] Heq Hlen; try discriminate.
  - split; [reflexivity|exact Heq].
  - change (String x (a1 +:+ b1) = String y (a2 +:+ b2)) in Heq.
    injection Heq as -> Heq. injection Hlen as Hlen.
    destruct (IH a2 Heq Hlen) as [-> ->]. split; reflexivity.
Qed.
End StringFacts.

(** ** Sorting *)

Section SortFacts.
Context {A : Type}.

Lemma insertSorted_perm (before : A -> A -> bool) x l :
  Permutation (Js.insertSorted before x l) (x :: l).
Proof.
  induction l as [|y l IH]; simpl; [reflexivity|].
  destruct (before y x); [|reflexivity].
  rewrite IH. apply perm_swap.
Qed.

Lemma sort_perm (before : A -> A -> bool) l : Permutation (Js.sort before l) l.
Proof.
  induction l as [|x l IH]; simpl; [reflexivity|].
  rewrite insertSorted_perm, IH. reflexivity.
Qed.

Lemma sort_length (before : A -> A -> bool) l :
  length (Js.sort before l) = length l.
Proof. apply Permutation_length, sort_perm. Qed.

Lemma sort_In (before : A -> A -> bool) l x : In x (Js.sort before l) <-> In x l.
Proof.
  split; apply Permutation_in; [|symmetry]; apply sort_perm.
Qed.

Variable key : A -> Z.

Lemma insertSorted_desc x l :
  descendingBy key l ->
  descendingBy key (Js.insertSorted (fun a b => key b <? key a) x l).
Proof.
  unfold descendingBy. induction 1 as [|y l Hs IH Hd]; simpl.
  - repeat constructor.
  - destruct (Z.ltb_spec (key x) (key y)).
    + constructor; [exact IH|].
      destruct l as [|z l]; simpl.
      * constructor. lia.
      * inversion Hd; subst. destruct (key x <? key z); constructor; lia.
    + constructor; [constructor; assumption|]. constructor. lia.
Qed.

Lemma sort_desc l : descendingBy key (Js.sort (fun a b => key b <? key a) l).
Proof.
  induction l as [|x l IH]; simpl; [constructor|]. apply insertSorted_desc, IH.
Qed.

Lemma insertSorted_asc x l :
  ascendingBy key l ->
  ascendingBy key (Js.insertSorted (fun a b => key a <? key b) x l).
Proof.
  unfold ascendingBy. induction 1 as [|y l Hs IH Hd]; simpl.
  - repeat constructor.
  - destruct (Z.ltb_spec (key y) (key x)).
    + constructor; [exact IH|].
      destruct l as [|z l]; simpl.
      * constructor. lia.
      * inversion Hd; subst. destruct (key z <? key x); constructor; lia.
    + constructor; [constructor; assumption|]. constructor. lia.
Qed.

Lemma sort_asc l : ascendingBy key (Js.sort (fun a b => key a <? key b) l).
Proof.
  induction l as [|x l IH]; simpl; [constructor|]. apply insertSorted_asc, IH.
Qed.
Lemma descendingBy_lookup (l : list A) (i j : nat) (a b : A) :
  descendingBy key l -> (i <= j)%nat -> l !! i = Some a -> l !! j = Some b ->
  key b <= key a.
Proof.
  unfold descendingBy. intros Hs.
  assert (Transitive (fun x y : A => key y <= key x)) as Htr by (intros x y z; lia).
  apply Sorted_StronglySorted in Hs; [|exact Htr]. clear Htr.
  revert i j. induction Hs as [|x l Hs IH Hall]; intros i j Hij Hi Hj; [discriminate|].
  destruct i as [|i]; destruct j as [|j]; simpl in Hi, Hj.
  - injection Hi as <-. injection Hj as <-. lia.
  - injection Hi as <-. rewrite List.Forall_forall in Hall. apply Hall.
    apply list_elem_of_In, list_elem_of_lookup. exists j. exact Hj.
  - lia.
  - apply (IH i j); [lia|assumption|assumption].
Qed.
End SortFacts.

Lemma ceilDiv_spec a b :
  0 <= a -> 1 <= b ->
  exists n, Js.ceilDiv a b = Js.Num n /\ (n - 1) * b < a <= n * b.
Proof.
  intros Ha Hb. unfold Js.ceilDiv.
  destruct (Z.eqb_spec b 0); [lia|].
  eexists. split; [reflexivity|].
  pose proof (Z.div_mod (- a) b ltac:(lia)).
  pose proof (Z.mod_pos_bound (- a) b ltac:(lia)). nia.
Qed.

(** ** The filter of the list *)

Lemma optTest_true {A} (o : option A) p :
  Prisma.optTest o p = true <-> forall a, o = Some a -> p a = true.
Proof.
  destruct o as [a|]; simpl; split; auto.
  - intros Hp a' [= <-]. exact Hp.
  - intros _ a [=].
Qed.

Lemma listWhere_matches userId search jobStatus j :
  Prisma.matches (listWhere userId search jobStatus) j = true <->
  clerkId j = userId /\ searchHit search j /\ statusHit jobStatus j.
Proof.
  unfold Prisma.matches, searchHit, statusHit.
  rewrite !andb_true_iff, !optTest_true.
  assert (Prisma.where_id (listWhere userId search jobStatus) = None) as ->.
  { unfold listWhere. destruct jobStatus as [st|]; [destruct (_ && _)|];
      destruct search as [s|]; try destruct (Js.truthy s); reflexivity. }
  assert (Prisma.where_clerkId (listWhere userId search jobStatus) = Some userId) as ->.
  { unfold listWhere. destruct jobStatus as [st|]; [destruct (_ && _)|];
      destruct search as [s|]; try destruct (Js.truthy s); reflexivity. }
  assert (Prisma.where_appliedDate_gte (listWhere userId search jobStatus) = None) as ->.
  { unfold listWhere. destruct jobStatus as [st|]; [destruct (_ && _)|];
      destruct search as [s|]; try destruct (Js.truthy s); reflexivity. }
  assert (Prisma.where_OR_contains (listWhere userId search jobStatus) =
          match search with Some s => if Js.truthy s then Some s else None | None => None end) as ->.
  { unfold listWhere. destruct jobStatus as [st|]; [destruct (_ && _)|];
      destruct search as [s|]; try destruct (Js.truthy s); reflexivity. }
  assert (Prisma.where_status (listWhere userId search jobStatus) =
          match jobStatus with
          | Some s => if Js.truthy s && negb (String.eqb s "all") then Some s else None
          | None => None end) as ->.
  { unfold listWhere. destruct jobStatus as [st|]; [destruct (_ && _)|];
      destruct search as [s|]; try destruct (Js.truthy s); reflexivity. }
  split.
  - intros ((((_ & Hc) & Hs) & Hst) & _). split; [|split].
    + apply String.eqb_eq. exact (Hc _ eq_refl).
    + intros s -> Hne. apply orb_true_iff, Hs.
      destruct (Js.truthy s) eqn:E; [reflexivity|]. apply truthy_false in E. contradiction.
    + intros s -> Hne Hall. symmetry. apply String.eqb_eq. rewrite String.eqb_sym. apply Hst.
      destruct (Js.truthy s) eqn:E; [|apply truthy_false in E; contradiction].
      destruct (String.eqb_spec s "all"); [contradiction|reflexivity].
  - intros (Hc & Hs & Hst). repeat split.
    + intros a [=].
    + intros a [= <-]. apply String.eqb_eq. exact Hc.
    + intros s Hsome. apply orb_true_iff. destruct search as [s'|]; [|discriminate].
      destruct (Js.truthy s') eqn:E; [|discriminate]. injection Hsome as ->.
      apply (Hs s eq_refl). intros ->. discriminate.
    + intros s Hsome. destruct jobStatus as [s'|]; [|discriminate].
      destruct (Js.truthy s') eqn:E; [|discriminate].
      destruct (String.eqb_spec s' "all"); [discriminate|]. simpl in Hsome.
      injection Hsome as ->. apply String.eqb_eq. apply (Hst s eq_refl); [|assumption].
      intros ->. discriminate.
    + intros a [=].
Qed.

(** ** Validation *)

Section Validation.
Context `{Validators}.

Lemma schema_accepts values v :
  createAndEditJobSchema values = inr v ->
  (forall f, requiredSchema f (inputRequired f values) = OK (validatedRequired f v)) /\
  statusSchema (in_status values) = OK (v_status v) /\
  modeSchema (in_mode values) = OK (v_mode v) /\
  (forall f, optionalSchema f (inputField f values) = OK (validatedField f v)).
Proof.
  unfold createAndEditJobSchema. cbv zeta. intros Hs.
  destruct (positionSchema _) eqn:E1; cbv beta iota in Hs; try discriminate Hs.
  destruct (companySchema _) eqn:E2; cbv beta iota in Hs; try discriminate Hs.
  destruct (locationSchema _) eqn:E3; cbv beta iota in Hs; try discriminate Hs.
  destruct (statusSchema _) eqn:E4; cbv beta iota in Hs; try discriminate Hs.
  destruct (modeSchema _) eqn:E5; cbv beta iota in Hs; try discriminate Hs.
  destruct (salaryRangeSchema _) eqn:E6; cbv beta iota in Hs; try discriminate Hs.
  destruct (jobUrlSchema _) eqn:E7; cbv beta iota in Hs; try discriminate Hs.
  destruct (websiteSchema _) eqn:E8; cbv beta iota in Hs; try discriminate Hs.
  destruct (coverLetterUrlSchema _) eqn:E9; cbv beta iota in Hs; try discriminate Hs.
  destruct (resumeIdSchema _) eqn:E10; cbv beta iota in Hs; try discriminate Hs.
  destruct (notesSchema _) eqn:E11; cbv beta iota in Hs; try discriminate Hs.
  injection Hs as <-. simpl.
  repeat split; try assumption; intros []; assumption.
Qed.

Lemma optional_empty f x :
  optionalSchema f (JsString "") = OK x -> x = Some EmptyString.
Proof.
  destruct f; cbn; unfold jobUrlSchema, websiteSchema, coverLetterUrlSchema, urlSchema, resumeIdSchema, zOr, zOptional, zString, literalOpt; cbn;
    repeat (match goal with |- context [isUrl ?s] => destruct (isUrl s) | |- context [isUuid ?s] => destruct (isUuid s) end; cbn);
    congruence.
Qed.

Lemma runChecks_required a b n m s :
  runChecks [Min n a; Max m b; Trim] s =
  (Js.trim s,
   (if (String.length s <? n)%nat then [mkRawIssue too_small (Some a)] else []) ++
   (if (m <? String.length s)%nat then [mkRawIssue too_big (Some b)] else [])).
Proof.
  simpl. destruct (String.length s <? n)%nat, (m <? String.length s)%nat; reflexivity.
Qed.

(** What the schema of a required text property accepts, and what it answers. *)
Lemma required_accepts f v x :
  requiredSchema f v = OK x <->
  exists s, v = JsString s /\ (2 <= String.length s <= 200)%nat /\ x = Js.trim s.
Proof.
  assert (forall a b, zString [Min 2 a; Max 200 b; Trim] v = OK x <->
     exists s, v = JsString s /\ (2 <= String.length s <= 200)%nat /\ x = Js.trim s) as G.
  { intros a b. unfold zString. destruct v as [|s|].
    - split; [discriminate|]. intros (s & [=] & _).
    - rewrite runChecks_required.
      destruct (Nat.ltb_spec (String.length s) 2), (Nat.ltb_spec 200 (String.length s));
        simpl; split; try discriminate.
      all: try (intros (s' & [= <-] & ? & _); lia).
      + intros [= <-]. exists s. repeat split; lia.
      + intros (s' & [= <-] & _ & ->). reflexivity.
    - split; [discriminate|]. intros (s & [=] & _). }
  destruct f; apply G.
Qed.
End Validation.

(** ** What the schema rejects *)

Section Rejection.
Context `{Validators}.

(** The schema either accepts or answers the issues of all properties. *)
Lemma schema_cases values :
  (exists v, createAndEditJobSchema values = inr v) \/
  createAndEditJobSchema values = inl (allIssues values).
Proof.
  unfold createAndEditJobSchema, allIssues. cbv zeta.
  destruct (positionSchema _); [|right; reflexivity..].
  destruct (companySchema _); [|right; reflexivity..].
  destruct (locationSchema _); [|right; reflexivity..].
  destruct (statusSchema _); [|right; reflexivity..].
  destruct (modeSchema _); [|right; reflexivity..].
  destruct (salaryRangeSchema _); [|right; reflexivity..].
  destruct (jobUrlSchema _); [|right; reflexivity..].
  destruct (websiteSchema _); [|right; reflexivity..].
  destruct (coverLetterUrlSchema _); [|right; reflexivity..].
  destruct (resumeIdSchema _); [|right; reflexivity..].
  destruct (notesSchema _); [|right; reflexivity..].
  left. eexists. reflexivity.
Qed.

Lemma rejected_not_OK {T} (r : ParseReturn T) x : rejected r -> r <> OK x.
Proof. destruct r; simpl; [contradiction|discriminate..]. Qed.

Lemma zString_issues cs v iss :
  zString cs v = DIRTY iss \/ zString cs v = INVALID iss -> iss <> [].
Proof.
  unfold zString. destruct v as [|s|]; try (intros [[=]|[= <-]]; discriminate).
  destruct (runChecks cs s) as [d [|i l]]; intros [[=]|[=]]; subst; discriminate.
Qed.

Lemma issuesAt_path {T} p (r : ParseReturn T) i : In i (issuesAt p r) -> path i = p.
Proof.
  destruct r as [x|iss|iss]; simpl; [contradiction| |];
    intros [j [<- _]]%in_map_iff; reflexivity.
Qed.

Lemma required_issue f v :
  rejected (requiredSchema f v) ->
  exists i, In i (issuesAt (requiredName f) (requiredSchema f v)).
Proof.
  intros Hr.
  assert (forall cs, rejected (zString cs v) ->
                     exists i, In i (issuesAt (requiredName f) (zString cs v))) as G.
  { intros cs Hrej. destruct (zString cs v) as [x|iss|iss] eqn:E; [destruct Hrej| |].
    - pose proof (zString_issues cs v iss (or_introl E)) as Hne.
      destruct iss as [|i l]; [contradiction|]. eexists. left. reflexivity.
    - pose proof (zString_issues cs v iss (or_intror E)) as Hne.
      destruct iss as [|i l]; [contradiction|]. eexists. left. reflexivity. }
  destruct f; apply G; exact Hr.
Qed.

Lemma allIssues_required f values i :
  In i (issuesAt (requiredName f) (requiredSchema f (inputRequired f values))) ->
  In i (allIssues values).
Proof.
  unfold allIssues. intros Hi. destruct f; simpl in Hi.
  - apply in_or_app. left. exact Hi.
  - apply in_or_app. right. apply in_or_app. left. exact Hi.
  - apply in_or_app. right. apply in_or_app. right. apply in_or_app. left. exact Hi.
Qed.

(** X1.  The required text properties: an input is accepted only if the
    raw value is a string of 2 to 200 code units, and then the property of
    the sanitized record is that string trimmed, hence a trimmed string of
    at most 200 code units; an input whose raw value is no such string is
    rejected with an issue whose path is the name of the property. *)
Theorem required_text_contract (f : RequiredField) (values : JobInput) :
  (forall v, createAndEditJobSchema values = inr v ->
     exists raw,
       inputRequired f values = JsString raw /\
       (2 <= String.length raw <= 200)%nat /\
       sanitizedRequired f (sanitizeJobInput v) = Js.trim raw /\
       trimmed (sanitizedRequired f (sanitizeJobInput v)) /\
       (String.length (sanitizedRequired f (sanitizeJobInput v)) <= 200)%nat) /\
  ((forall raw, inputRequired f values = JsString raw ->
                ~ (2 <= String.length raw <= 200)%nat) ->
   exists issues,
     createAndEditJobSchema values = inl issues /\
     exists i, In i issues /\ path i = requiredName f).
Proof.
  split.
  - intros v Hs. destruct (schema_accepts _ _ Hs) as (Hreq & _).
    specialize (Hreq f). apply required_accepts in Hreq as (raw & Hraw & Hlen & Hv).
    exists raw. split; [exact Hraw|]. split; [exact Hlen|].
    assert (sanitizedRequired f (sanitizeJobInput v) = Js.trim raw) as ->
      by (rewrite <- Hv; destruct f; reflexivity).
    split; [reflexivity|]. split; [apply trim_idem|].
    pose proof (trim_length raw). lia.
  - intros Hbad.
    assert (rejected (requiredSchema f (inputRequired f values))) as Hrej.
    { destruct (requiredSchema f (inputRequired f values)) as [x|iss|iss] eqn:E; [|exact I..].
      apply required_accepts in E as (raw & Hraw & Hlen & _). destruct (Hbad raw Hraw Hlen). }
    destruct (schema_cases values) as [[v Hv]|Hinl].
    + destruct (schema_accepts _ _ Hv) as (Hreq & _). specialize (Hreq f).
      rewrite Hreq in Hrej. destruct Hrej.
    + exists (allIssues values). split; [exact Hinl|].
      destruct (required_issue f _ Hrej) as [i Hi]. exists i. split.
      * apply (allIssues_required f). exact Hi.
      * apply (issuesAt_path _ _ _ Hi).
Qed.

Lemma nativeEnum_issue {E} (values : list (string * E)) msg v :
  rejected (zNativeEnum values msg v) ->
  exists c, zNativeEnum values msg v = INVALID [mkRawIssue c (Some msg)].
Proof.
  unfold zNativeEnum. destruct v as [|s|]; try (intros _; eexists; reflexivity).
  destruct (List.find _ _); [intros []|]. intros _. eexists. reflexivity.
Qed.

Lemma nativeEnum_accepts {E} (val : E -> string) (l : list E) msg v e :
  zNativeEnum (List.map (fun s => (val s, s)) l) msg v = OK e -> v = JsString (val e).
Proof.
  unfold zNativeEnum. destruct v as [|x|]; try discriminate.
  destruct (List.find _ _) as [p|] eqn:F; [|discriminate]. intros [= <-].
  apply find_some in F as [Hin Heq].
  apply in_map_iff in Hin as (s0 & <- & _). simpl in *.
  apply String.eqb_eq in Heq. subst x. reflexivity.
Qed.

Lemma statusSchema_accepts v s :
  statusSchema v = OK s <-> v = JsString (JobStatus_value s).
Proof.
  split; [apply nativeEnum_accepts|]. intros ->. destruct s; reflexivity.
Qed.

Lemma modeSchema_accepts v m :
  modeSchema v = OK m <-> v = JsString (JobMode_value m).
Proof.
  split; [apply nativeEnum_accepts|]. intros ->. destruct m; reflexivity.
Qed.

(** X2.  Status and mode: each of the five status values and of the five
    mode values is accepted by its schema; an accepted input carries one of
    them in each; an input whose status (mode) is none of them is rejected
    with an issue whose path is "status" ("mode") and whose message is the
    one given in the schema. *)
Theorem enum_properties_contract (values : JobInput) :
  (forall s : JobStatus, statusSchema (JsString (JobStatus_value s)) = OK s) /\
  (forall m : JobMode, modeSchema (JsString (JobMode_value m)) = OK m) /\
  (forall v, createAndEditJobSchema values = inr v ->
             in_status values = JsString (JobStatus_value (v_status v)) /\
             in_mode values = JsString (JobMode_value (v_mode v))) /\
  ((forall s : JobStatus, in_status values <> JsString (JobStatus_value s)) ->
   exists issues,
     createAndEditJobSchema values = inl issues /\
     exists i, In i issues /\ path i = "status"%string /\
               message i = Some "Please select a valid status"%string) /\
  ((forall m : JobMode, in_mode values <> JsString (JobMode_value m)) ->
   exists issues,
     createAndEditJobSchema values = inl issues /\
     exists i, In i issues /\ path i = "mode"%string /\
               message i = Some "Please select a valid employment type"%string).
Proof.
  split; [intros s; apply statusSchema_accepts; reflexivity|].
  split; [intros m; apply modeSchema_accepts; reflexivity|].
  split.
  { intros v Hs. destruct (schema_accepts _ _ Hs) as (_ & Hst & Hmd & _).
    split; [apply statusSchema_accepts, Hst|apply modeSchema_accepts, Hmd]. }
  split.
  - intros Hbad.
    assert (rejected (statusSchema (in_status values))) as Hrej.
    { destruct (statusSchema (in_status values)) as [s|iss|iss] eqn:E; [|exact I..].
      apply statusSchema_accepts in E. destruct (Hbad s E). }
    destruct (schema_cases values) as [[v Hv]|Hinl].
    + destruct (schema_accepts _ _ Hv) as (_ & Hst & _). rewrite Hst in Hrej. destruct Hrej.
    + exists (allIssues values). split; [exact Hinl|].
      destruct (nativeEnum_issue _ _ _ Hrej) as [c Hc].
      exists (mkIssue c "status" (Some "Please select a valid status"%string)).
      split; [|split; reflexivity].
      unfold allIssues. do 3 (apply in_or_app; right). apply in_or_app. left.
      unfold statusSchema. rewrite Hc. left. reflexivity.
  - intros Hbad.
    assert (rejected (modeSchema (in_mode values))) as Hrej.
    { destruct (modeSchema (in_mode values)) as [s|iss|iss] eqn:E; [|exact I..].
      apply modeSchema_accepts in E. destruct (Hbad s E). }
    destruct (schema_cases values) as [[v Hv]|Hinl].
    + destruct (schema_accepts _ _ Hv) as (_ & _ & Hmd & _). rewrite Hmd in Hrej. destruct Hrej.
    + exists (allIssues values). split; [exact Hinl|].
      destruct (nativeEnum_issue _ _ _ Hrej) as [c Hc].
      exists (mkIssue c "mode" (Some "Please select a valid employment type"%string)).
      split; [|split; reflexivity].
      unfold allIssues. do 4 (apply in_or_app; right). apply in_or_app. left.
      unfold modeSchema. rewrite Hc. left. reflexivity.
Qed.
End Rejection.

(** ** Running the actions *)

Section Runs.
Lemma authenticate_ok w u :
  currentUser w = Some u -> authenticateAndRedirect w = (Return u, w).
Proof.
  unfold currentUser, authenticateAndRedirect.
  destruct (session w) as [s|]; [|discriminate].
  destruct (Js.truthy s); [|discriminate]. intros [= ->]. reflexivity.
Qed.

Lemma authenticate_none w :
  currentUser w = None -> authenticateAndRedirect w = (Throw (NextRedirect "/"), w).
Proof.
  unfold currentUser, authenticateAndRedirect.
  destruct (session w) as [s|]; [|reflexivity].
  destruct (Js.truthy s); [discriminate|reflexivity].
Qed.

Lemma query_ok {A} (run : Action A) w :
  noFault 1 w = true -> Prisma.query run w = run (afterQuery w).
Proof.
  unfold noFault, afterQuery, Prisma.query. destruct w as [s n z t f i c r]; simpl.
  destruct f as [|[] f]; simpl; [reflexivity|discriminate|reflexivity].
Qed.

Lemma query_fault {A} (run : Action A) w :
  noFault 1 w = false ->
  Prisma.query run w = (Throw (PrismaError StorageFault), afterQuery w).
Proof.
  unfold noFault, afterQuery, Prisma.query. destruct w as [s n z t f i c r]; simpl.
  destruct f as [|[] f]; simpl; [discriminate|reflexivity|discriminate].
Qed.

Lemma replaceFirst_In wh f rows old :
  List.find (Prisma.matches wh) rows = Some old ->
  In (f old) (Prisma.replaceFirst wh f rows).
Proof.
  induction rows as [|j rows IH]; simpl; [discriminate|].
  destruct (Prisma.matches wh j).
  - intros [= ->]. left. reflexivity.
  - intros Hf. right. exact (IH Hf).
Qed.
End Runs.

(** ** Sanitization on the create and update paths *)

Section Sanitization.
Context `{Validators}.

Lemma sanitizedField_orNull f v :
  sanitizedField f (sanitizeJobInput v) = Js.orNull (validatedField f v).
Proof. destruct f; reflexivity. Qed.

Lemma created_field f data owner w job w' :
  Prisma.create data owner w = (Return job, w') ->
  jobField f job = sanitizedField f data /\ In job (jobTable w').
Proof.
  unfold Prisma.create, Prisma.query.
  destruct (faults w) as [|[] fs]; intros [= <- <-]; (split; [destruct f; reflexivity|]);
    simpl; apply in_or_app; right; left; reflexivity.
Qed.

(** C1. For each of the six optional properties, an input that is accepted
    and carries the empty string there is sanitized to a record where the
    property is null; no optional property of a sanitized record is ever
    the empty string; and both the create and the update action store and
    return the sanitized value. *)
Theorem empty_optional_field_is_null (f : OptionalField) (values : JobInput)
    (validated : CreateAndEditJobType) (w : World) (userId : string) :
  inputField f values = JsString "" ->
  createAndEditJobSchema values = inr validated ->
  currentUser w = Some userId ->
  noFault 1 w = true ->
  sanitizedField f (sanitizeJobInput validated) = None /\
  (forall g, sanitizedField g (sanitizeJobInput validated) <> Some EmptyString) /\
  (exists job w',
      createJobAction values w = (Return (Some job), w') /\
      jobField f job = None /\ In job (jobTable w')) /\
  (forall id old,
      List.find (Prisma.matches (whereIdClerk id userId)) (jobTable w) = Some old ->
      exists job w',
        updateJobAction id values w = (Return (Some job), w') /\
        jobField f job = None /\ In job (jobTable w')).
Proof.
  intros Hin Hs Hu Hq.
  assert (sanitizedField f (sanitizeJobInput validated) = None) as Hnull.
  { destruct (schema_accepts _ _ Hs) as (_ & _ & _ & Hopt).
    specialize (Hopt f). rewrite Hin in Hopt.
    rewrite sanitizedField_orNull, (optional_empty _ _ Hopt). reflexivity. }
  split; [exact Hnull|]. split.
  { intros g. rewrite sanitizedField_orNull. apply orNull_not_empty. }
  split.
  - unfold createJobAction, mbind, Action_bind. rewrite (authenticate_ok _ _ Hu).
    unfold tryCatch, parse. rewrite Hs. cbn [mret Action_ret].
    destruct (Prisma.create (sanitizeJobInput validated) userId w) as [[job|e] w1] eqn:Ec.
    + destruct (created_field f _ _ _ _ _ Ec) as [Hf Hi].
      eexists _, _. split; [reflexivity|]. split; [congruence|exact Hi].
    + exfalso. unfold Prisma.create in Ec. rewrite (query_ok _ _ Hq) in Ec. discriminate.
  - intros id old Hfind.
    unfold updateJobAction, mbind, Action_bind. rewrite (authenticate_ok _ _ Hu).
    unfold tryCatch, parse. rewrite Hs. cbn [mret Action_ret].
    unfold Prisma.update. rewrite (query_ok _ _ Hq).
    change (jobTable (afterQuery w)) with (jobTable w). rewrite Hfind.
    eexists _, _. split; [reflexivity|]. split.
    + rewrite <- Hnull. destruct f; reflexivity.
    + simpl. apply replaceFirst_In. exact Hfind.
Qed.
End Sanitization.

(** ** The paginated list *)

Section Listing.

Lemma noFault_step n w :
  noFault (S n) w = true -> noFault 1 w = true /\ noFault n (afterQuery w) = true.
Proof.
  unfold noFault, afterQuery. destruct w as [s t z tb f i c r]; simpl.
  destruct f as [|b f]; simpl.
  - intros _. split; [reflexivity|]. destruct n; reflexivity.
  - destruct b; simpl; [discriminate|]. intros ->. split; reflexivity.
Qed.

(** The list action when both queries are answered. *)
Lemma getAllJobsAction_run args w userId :
  currentUser w = Some userId ->
  noFault 2 w = true ->
  0 <= (default 1 (page args) - 1) * default 10 (limit args) ->
  let wh := listWhere userId (search args) (jobStatus args) in
  let matching := List.filter (Prisma.matches wh) (jobTable w) in
  getAllJobsAction args w =
  (Return
     (mkPage
        (Prisma.paginate (Some ((default 1 (page args) - 1) * default 10 (limit args)))
           (Some (default 10 (limit args)))
           (Prisma.orderByAppliedDate Prisma.desc matching))
        (Z.of_nat (length matching))
        (default 1 (page args))
        (Js.ceilDiv (Z.of_nat (length matching)) (default 10 (limit args)))),
   afterQuery (afterQuery w)).
Proof.
  intros Hu Hq Hskip. cbv zeta.
  destruct (noFault_step _ _ Hq) as [Hq1 Hq2].
  unfold getAllJobsAction, mbind, Action_bind. rewrite (authenticate_ok _ _ Hu).
  unfold tryCatch, Prisma.findMany. rewrite (query_ok _ _ Hq1).
  cbn [Prisma.skipOf]. destruct (Z.ltb_spec ((default 1 (page args) - 1) * default 10 (limit args)) 0);
    [lia|].
  unfold Prisma.count. rewrite (query_ok _ _ Hq2). reflexivity.
Qed.

(** C2. With the caller signed in and the storage answering, for a page
    number [p >= 1] and a limit [l >= 1] the list action returns: the number
    of the caller's rows that satisfy the filter as [count]; the least [n]
    with [count <= n * l] as [totalPages]; [p] as [page]; and as [jobs] the
    [l] rows from offset [(p - 1) * l] of the matching rows in descending
    order of the applied date.  With 25 matching rows, page 1 and limit 10
    there are 10 jobs and 3 pages. *)
Theorem list_returns_the_requested_page (w : World) (userId : string)
    (args : GetAllJobsActionTypes) :
  let p := default 1 (page args) in
  let l := default 10 (limit args) in
  let matching :=
    List.filter (Prisma.matches (listWhere userId (search args) (jobStatus args)))
                (jobTable w) in
  let ordered := Prisma.orderByAppliedDate Prisma.desc matching in
  currentUser w = Some userId ->
  noFault 2 w = true ->
  1 <= p -> 1 <= l ->
  exists r w',
    getAllJobsAction args w = (Return r, w') /\
    (forall j, In j matching <->
               In j (jobTable w) /\ clerkId j = userId /\
               searchHit (search args) j /\ statusHit (jobStatus args) j) /\
    count r = Z.of_nat (length matching) /\
    (exists n, totalPages r = Js.Num n /\ (n - 1) * l < count r <= n * l) /\
    pageNumber r = p /\
    descendingBy appliedDate ordered /\ Permutation ordered matching /\
    jobs r = List.firstn (Z.to_nat l) (drop (Z.to_nat ((p - 1) * l)) ordered) /\
    Z.of_nat (length (jobs r)) <= l /\
    (length matching = 25%nat -> p = 1 -> l = 10 ->
     length (jobs r) = 10%nat /\ totalPages r = Js.Num 3).
Proof.
  intros p l matching ordered Hu Hq Hp Hl.
  eexists _, _. split; [apply (getAllJobsAction_run args w userId Hu Hq); fold p l; nia|].
  fold p l matching ordered. cbn [jobs count pageNumber totalPages].
  assert (Prisma.paginate (Some ((p - 1) * l)) (Some l) ordered =
          List.firstn (Z.to_nat l) (drop (Z.to_nat ((p - 1) * l)) ordered)) as Hpag.
  { unfold Prisma.paginate. cbn [Prisma.skipOf]. destruct (Z.leb_spec 0 l); [reflexivity|lia]. }
  split.
  { intros j. unfold matching. rewrite filter_In, listWhere_matches. tauto. }
  split; [reflexivity|]. split.
  { destruct (ceilDiv_spec (Z.of_nat (length matching)) l) as (n & Hn & Hb); [lia|lia|].
    exists n. split; assumption. }
  split; [reflexivity|]. split; [apply sort_desc|]. split; [apply sort_perm|].
  split; [exact Hpag|]. split.
  { rewrite Hpag, length_firstn. lia. }
  intros H25 -> ->. split.
  - rewrite Hpag, length_firstn, length_drop.
    unfold ordered, Prisma.orderByAppliedDate. rewrite sort_length, H25. reflexivity.
  - rewrite H25. reflexivity.
Qed.
End Listing.

(** ** Isolation between owners *)

Section Isolation.

Lemma paginate_In skip take rows j :
  In j (Prisma.paginate skip take rows) -> In j rows.
Proof.
  unfold Prisma.paginate. rewrite <- !list_elem_of_In. intros Hin.
  destruct take as [t|].
  - destruct (0 <=? t).
    + apply (subseteq_drop (Z.to_nat (Prisma.skipOf skip))), (subseteq_take (Z.to_nat t)), Hin.
    + apply list_elem_of_In, in_rev, list_elem_of_In in Hin.
      apply (subseteq_take (Z.to_nat (- t))), (subseteq_drop (Z.to_nat (Prisma.skipOf skip))) in Hin.
      apply list_elem_of_In, in_rev, list_elem_of_In, Hin.
  - apply (subseteq_drop (Z.to_nat (Prisma.skipOf skip))), Hin.
Qed.

Lemma orderBy_In o rows j : In j (Prisma.orderByAppliedDate o rows) <-> In j rows.
Proof. destruct o; apply sort_In. Qed.

Lemma matches_clerk wh userId j :
  Prisma.where_clerkId wh = Some userId ->
  Prisma.matches wh j = true -> clerkId j = userId.
Proof.
  unfold Prisma.matches. intros ->. rewrite !andb_true_iff. simpl.
  intros ((((_ & Hc) & _) & _) & _). apply String.eqb_eq, Hc.
Qed.

Lemma listWhere_clerk userId search jobStatus :
  Prisma.where_clerkId (listWhere userId search jobStatus) = Some userId.
Proof.
  unfold listWhere. destruct jobStatus as [st|]; [destruct (_ && _)|];
    destruct search as [s|]; try destruct (Js.truthy s); reflexivity.
Qed.

(** A query scoped to an owner does not see the rows of the others. *)
Lemma filter_ownedBy wh userId rows :
  Prisma.where_clerkId wh = Some userId ->
  List.filter (Prisma.matches wh) (ownedBy userId rows) =
  List.filter (Prisma.matches wh) rows.
Proof.
  intros Hwh. unfold ownedBy. induction rows as [|j rows IH]; simpl; [reflexivity|].
  destruct (String.eqb_spec (clerkId j) userId) as [He|Hne]; simpl.
  - rewrite IH. reflexivity.
  - rewrite IH. destruct (Prisma.matches wh j) eqn:Hm; [|reflexivity].
    exfalso. apply Hne. eapply matches_clerk; eassumption.
Qed.

Lemma find_ownedBy wh userId rows :
  Prisma.where_clerkId wh = Some userId ->
  List.find (Prisma.matches wh) (ownedBy userId rows) =
  List.find (Prisma.matches wh) rows.
Proof.
  intros Hwh. unfold ownedBy. induction rows as [|j rows IH]; simpl; [reflexivity|].
  destruct (String.eqb_spec (clerkId j) userId) as [He|Hne]; simpl.
  - rewrite IH. reflexivity.
  - rewrite IH. destruct (Prisma.matches wh j) eqn:Hm; [|reflexivity].
    exfalso. apply Hne. eapply matches_clerk; eassumption.
Qed.

Lemma find_none_other wh rows :
  (forall j, In j rows -> Prisma.matches wh j = false) ->
  List.find (Prisma.matches wh) rows = None.
Proof.
  induction rows as [|j rows IH]; simpl; [reflexivity|]. intros Hno.
  rewrite (Hno j (or_introl eq_refl)). apply IH. intros k Hk. apply Hno. right. exact Hk.
Qed.

Lemma uniqueIds_owner rows j k :
  uniqueIds rows -> In j rows -> In k rows -> id j = id k -> j = k.
Proof.
  unfold uniqueIds. induction rows as [|r rows IH]; simpl; [contradiction|].
  intros Hnd [->|Hj] [->|Hk] Hid; apply NoDup_cons in Hnd as [Hnot Hnd].
  - reflexivity.
  - exfalso. apply Hnot. rewrite Hid. apply list_elem_of_In, in_map, Hk.
  - exfalso. apply Hnot. rewrite <- Hid. apply list_elem_of_In, in_map, Hj.
  - apply IH; assumption.
Qed.

(** The single-job action depends on the table only through the lookup. *)
Lemma getSingleJobAction_run id w userId :
  currentUser w = Some userId ->
  getSingleJobAction id w =
  if noFault 1 w then
    match List.find (Prisma.matches (whereIdClerk id userId)) (jobTable w) with
    | Some j => (Return (Some j), afterQuery w)
    | None =>
        (Throw (NextRedirect "/jobs"),
         setConsole (console w ++ [("Error fetching job:"%string, NextRedirect "/jobs")])
                    (afterQuery w))
    end
  else
    (Throw (NextRedirect "/jobs"),
     setConsole (console w ++ [("Error fetching job:"%string, PrismaError StorageFault)])
                (afterQuery w)).
Proof.
  intros Hu. unfold getSingleJobAction, mbind, Action_bind.
  rewrite (authenticate_ok _ _ Hu). unfold tryCatch, Prisma.findUnique.
  destruct (noFault 1 w) eqn:Hq.
  - rewrite (query_ok _ _ Hq). change (jobTable (afterQuery w)) with (jobTable w).
    destruct (List.find _ _); reflexivity.
  - rewrite (query_fault _ _ Hq). reflexivity.
Qed.

(** C3. Signed in as [A], the list action returns only rows owned by [A],
    hence none owned by another owner [B]; the single-job action on the id
    of a row owned by [B] ends exactly as on an id that no row has, with the
    same redirection to the list and the same final world; and both actions
    answer the same on the table from which every row not owned by [A] has
    been removed. *)
Theorem cross_owner_isolation (w : World) (A B : string) :
  currentUser w = Some A ->
  A <> B ->
  (forall args r w',
      getAllJobsAction args w = (Return r, w') ->
      forall j, In j (jobs r) -> clerkId j = A /\ clerkId j <> B) /\
  (forall jB absent,
      uniqueIds (jobTable w) ->
      In jB (jobTable w) -> clerkId jB = B ->
      (forall j, In j (jobTable w) -> id j <> absent) ->
      getSingleJobAction (id jB) w = getSingleJobAction absent w /\
      fst (getSingleJobAction (id jB) w) = Throw (NextRedirect "/jobs")) /\
  (forall args ident,
      let w1 := setJobTable (ownedBy A (jobTable w)) w in
      fst (getAllJobsAction args w) = fst (getAllJobsAction args w1) /\
      fst (getSingleJobAction ident w) = fst (getSingleJobAction ident w1)).
Proof.
  intros Hu Hne. split; [|split].
  - intros args r w' Hrun j Hj.
    assert (clerkId j = A) as Hc; [|split; [exact Hc|congruence]].
    revert Hrun. unfold getAllJobsAction, mbind, Action_bind.
    rewrite (authenticate_ok _ _ Hu). unfold tryCatch, Prisma.findMany, Prisma.count.
    destruct (noFault 1 w) eqn:Hq1.
    + rewrite (query_ok _ _ Hq1).
      destruct (Prisma.skipOf _ <? 0).
      * intros [= <- _]. destruct Hj.
      * destruct (noFault 1 (afterQuery w)) eqn:Hq2.
        -- rewrite (query_ok _ _ Hq2). intros [= <- _]. cbn [jobs] in Hj.
           apply (paginate_In (Some ((default 1 (page args) - 1) * default 10 (limit args)))
                              (Some (default 10 (limit args)))),
                 (orderBy_In Prisma.desc), filter_In in Hj as [_ Hm].
           eapply matches_clerk; [apply listWhere_clerk|exact Hm].
        -- rewrite (query_fault _ _ Hq2). intros [= <- _]. destruct Hj.
    + rewrite (query_fault _ _ Hq1). intros [= <- _]. destruct Hj.
  - intros jB absent Huniq HjB HB Habs.
    rewrite !(getSingleJobAction_run _ _ _ Hu).
    assert (List.find (Prisma.matches (whereIdClerk (id jB) A)) (jobTable w) = None) as ->.
    { apply find_none_other. intros j Hj.
      destruct (Prisma.matches (whereIdClerk (id jB) A) j) eqn:Hm; [|reflexivity].
      exfalso. pose proof (matches_clerk (whereIdClerk (id jB) A) A j eq_refl Hm) as HcA.
      unfold Prisma.matches in Hm. rewrite !andb_true_iff in Hm. simpl in Hm.
      destruct Hm as ((((Hid & _) & _) & _) & _). apply String.eqb_eq in Hid.
      assert (j = jB) by (apply (uniqueIds_owner (jobTable w)); assumption).
      subst j. congruence. }
    assert (List.find (Prisma.matches (whereIdClerk absent A)) (jobTable w) = None) as ->.
    { apply find_none_other. intros j Hj.
      destruct (Prisma.matches (whereIdClerk absent A) j) eqn:Hm; [|reflexivity].
      exfalso. unfold Prisma.matches in Hm. rewrite !andb_true_iff in Hm. simpl in Hm.
      destruct Hm as ((((Hid & _) & _) & _) & _). apply String.eqb_eq in Hid.
      exact (Habs j Hj Hid). }
    split; [reflexivity|]. destruct (noFault 1 w); reflexivity.
  - intros args ident w1.
    assert (currentUser w1 = Some A) as Hu1 by exact Hu.
    split.
    + unfold getAllJobsAction, mbind, Action_bind.
      rewrite (authenticate_ok _ _ Hu), (authenticate_ok _ _ Hu1).
      unfold tryCatch, Prisma.findMany, Prisma.count.
      assert (noFault 1 w1 = noFault 1 w) as Hf by reflexivity.
      destruct (noFault 1 w) eqn:Hq1.
      * rewrite (query_ok _ _ Hq1), (query_ok _ _ Hf).
        destruct (Prisma.skipOf _ <? 0); [reflexivity|].
        assert (noFault 1 (afterQuery w1) = noFault 1 (afterQuery w)) as Hf2 by reflexivity.
        destruct (noFault 1 (afterQuery w)) eqn:Hq2.
        -- rewrite (query_ok _ _ Hq2), (query_ok _ _ Hf2).
           change (jobTable (afterQuery (afterQuery w1))) with (ownedBy A (jobTable w)).
           change (jobTable (afterQuery w1)) with (ownedBy A (jobTable w)).
           change (jobTable (afterQuery (afterQuery w))) with (jobTable w).
           change (jobTable (afterQuery w)) with (jobTable w).
           rewrite (filter_ownedBy _ A _ (listWhere_clerk _ _ _)). reflexivity.
        -- rewrite (query_fault _ _ Hq2), (query_fault _ _ Hf2). reflexivity.
      * rewrite (query_fault _ _ Hq1), (query_fault _ _ Hf). reflexivity.
    + rewrite (getSingleJobAction_run _ _ _ Hu), (getSingleJobAction_run _ _ _ Hu1).
      change (noFault 1 w1) with (noFault 1 w).
      change (jobTable w1) with (ownedBy A (jobTable w)).
      rewrite (find_ownedBy (whereIdClerk ident A) A (jobTable w) eq_refl).
      destruct (noFault 1 w); [destruct (List.find _ _)|]; reflexivity.
Qed.
End Isolation.

(** ** Access and writes *)

Section Access.
Context `{Validators}.

(** X3.  A caller without user id is redirected to the home page by every
    action, before any query and with the world unchanged. *)
Theorem signed_out_caller_is_redirected (w : World) (values : JobInput)
    (args : GetAllJobsActionTypes) (id : string) :
  currentUser w = None ->
  createJobAction values w = (Throw (NextRedirect "/"), w) /\
  getAllJobsAction args w = (Throw (NextRedirect "/"), w) /\
  deleteJobAction id w = (Throw (NextRedirect "/"), w) /\
  getSingleJobAction id w = (Throw (NextRedirect "/"), w) /\
  updateJobAction id values w = (Throw (NextRedirect "/"), w) /\
  getStatsAction w = (Throw (NextRedirect "/"), w) /\
  getChartsDataAction w = (Throw (NextRedirect "/"), w) /\
  getAllJobsForDownloadAction w = (Throw (NextRedirect "/"), w).
Proof.
  intros Hu.
  unfold createJobAction, getAllJobsAction, deleteJobAction, getSingleJobAction,
    updateJobAction, getStatsAction, getChartsDataAction, getAllJobsForDownloadAction.
  cbv zeta. unfold mbind, Action_bind.
  rewrite (authenticate_none _ Hu). repeat split.
Qed.

Lemma removeFirst_other wh u other rows :
  Prisma.where_clerkId wh = Some u -> other <> u ->
  ownedBy other (Prisma.removeFirst wh rows) = ownedBy other rows.
Proof.
  intros Hwh Hne. induction rows as [|j rows IH]; [reflexivity|]. simpl.
  destruct (Prisma.matches wh j) eqn:Hm.
  - apply (matches_clerk wh u j Hwh) in Hm.
    destruct (String.eqb_spec (clerkId j) other) as [He|_]; [congruence|reflexivity].
  - simpl. rewrite IH. reflexivity.
Qed.

Lemma replaceFirst_other wh u other f rows :
  Prisma.where_clerkId wh = Some u -> other <> u ->
  (forall j, clerkId (f j) = clerkId j) ->
  ownedBy other (Prisma.replaceFirst wh f rows) = ownedBy other rows.
Proof.
  intros Hwh Hne Hf. induction rows as [|j rows IH]; [reflexivity|]. simpl.
  destruct (Prisma.matches wh j) eqn:Hm.
  - apply (matches_clerk wh u j Hwh) in Hm. simpl. rewrite Hf.
    destruct (String.eqb_spec (clerkId j) other) as [He|_]; [congruence|reflexivity].
  - simpl. rewrite IH. reflexivity.
Qed.

Lemma tryCatch_table {A} (body : Action A) msg (a : A) w t :
  jobTable (snd (body w)) = t ->
  jobTable (snd (tryCatch body (fun error => _ ← consoleError msg error; mret a) w)) = t.
Proof.
  unfold tryCatch. destruct (body w) as [[x|e] w1]; simpl; intros <-; reflexivity.
Qed.

(** X4.  The three writing actions leave the rows of every other owner as
    they are, whatever the input, the id and the answer of the storage. *)
Theorem writes_touch_only_own_rows (w : World) (userId other id : string)
    (values : JobInput) :
  currentUser w = Some userId ->
  other <> userId ->
  ownedBy other (jobTable (snd (createJobAction values w))) = ownedBy other (jobTable w) /\
  ownedBy other (jobTable (snd (updateJobAction id values w))) = ownedBy other (jobTable w) /\
  ownedBy other (jobTable (snd (deleteJobAction id w))) = ownedBy other (jobTable w).
Proof.
  intros Hu Hne.
  assert (forall t, ownedBy other (jobTable (setFaults t w)) = ownedBy other (jobTable w))
    as Hsf by reflexivity.
  unfold createJobAction, updateJobAction, deleteJobAction, mbind, Action_bind.
  rewrite (authenticate_ok _ _ Hu). unfold tryCatch, parse.
  split; [|split].
  - destruct (createAndEditJobSchema values) as [iss|v]; [reflexivity|].
    cbn [mret Action_ret]. unfold Prisma.create, Prisma.query.
    destruct (faults w) as [|[] fs]; simpl; try reflexivity;
      unfold ownedBy; rewrite List.filter_app; simpl;
      destruct (String.eqb_spec userId other) as [He|_]; try congruence;
      apply app_nil_r.
  - destruct (createAndEditJobSchema values) as [iss|v]; [reflexivity|].
    cbn [mret Action_ret]. unfold Prisma.update, Prisma.query.
    destruct (faults w) as [|[] fs]; simpl; try reflexivity;
      (destruct (List.find _ _); simpl; [|reflexivity];
       apply (replaceFirst_other _ userId); [reflexivity|exact Hne|reflexivity]).
  - unfold Prisma.delete, Prisma.query.
    destruct (faults w) as [|[] fs]; simpl; try reflexivity;
      (destruct (List.find _ _); simpl; [|reflexivity];
       apply (removeFirst_other _ userId); [reflexivity|exact Hne]).
Qed.

Lemma find_app_fresh wh (rows : list JobType) job :
  (forall j, In j rows -> Prisma.matches wh j = false) ->
  Prisma.matches wh job = true ->
  List.find (Prisma.matches wh) (rows ++ [job]) = Some job.
Proof.
  intros Hold Hjob. induction rows as [|j rows IH]; simpl.
  - rewrite Hjob. reflexivity.
  - rewrite (Hold j (or_introl eq_refl)). apply IH. intros k Hk. apply Hold. right. exact Hk.
Qed.

(** X5.  A job created by a signed-in caller from an accepted input, under
    an id no row carries yet, is the job that [getSingleJobAction] returns
    to the same caller for that id. *)
Theorem created_job_is_read_back (w : World) (userId : string) (values : JobInput)
    (validated : CreateAndEditJobType) :
  currentUser w = Some userId ->
  noFault 2 w = true ->
  createAndEditJobSchema values = inr validated ->
  (forall j, In j (jobTable w) -> id j <> ("job-" +:+ pretty (nextId w))%string) ->
  exists job w',
    createJobAction values w = (Return (Some job), w') /\
    clerkId job = userId /\
    position job = v_position validated /\
    getSingleJobAction (id job) w' = (Return (Some job), afterQuery w').
Proof.
  intros Hu Hq Hs Hfresh. destruct (noFault_step _ _ Hq) as [Hq1 Hq2].
  unfold createJobAction, mbind, Action_bind. rewrite (authenticate_ok _ _ Hu).
  unfold tryCatch, parse. rewrite Hs. cbn [mret Action_ret].
  unfold Prisma.create. rewrite (query_ok _ _ Hq1). cbv zeta.
  unfold revalidatePath. cbn [fst snd].
  eexists _, _. split; [reflexivity|]. split; [reflexivity|]. split; [reflexivity|].
  match goal with |- getSingleJobAction ?i ?w1 = _ =>
    assert (currentUser w1 = Some userId) as Hu1 by exact Hu;
    assert (noFault 1 w1 = true) as Hq3 by exact Hq2;
    rewrite (getSingleJobAction_run i w1 userId Hu1), Hq3
  end.
  cbn [jobTable setRevalidated setNextId setJobTable afterQuery setFaults].
  rewrite find_app_fresh; [reflexivity| |].
  - intros j Hj. unfold Prisma.matches, whereIdClerk. cbn.
    destruct (String.eqb_spec (id j) ("job-" +:+ pretty (nextId w))) as [He|_];
      [destruct (Hfresh j Hj He)|reflexivity].
  - unfold Prisma.matches, whereIdClerk. cbn.
    rewrite !String.eqb_refl. reflexivity.
Qed.
End Access.

(** ** Statistics by status *)

Section Statistics.

Lemma occurrences_app s l1 l2 :
  occurrences s (l1 ++ l2) = occurrences s l1 + occurrences s l2.
Proof.
  unfold occurrences. rewrite List.filter_app, length_app. lia.
Qed.

Lemma occurrences_nonneg s l : 0 <= occurrences s l.
Proof. unfold occurrences. lia. Qed.

Lemma alookup_addToGroup k s g :
  alookup k (Prisma.addToGroup s g) =
  if String.eqb s k
  then Some (match alookup s g with Some n => n + 1 | None => 1 end)
  else alookup k g.
Proof.
  induction g as [|[k' n] g IH]; simpl.
  - destruct (String.eqb s k); reflexivity.
  - destruct (String.eqb_spec k' s) as [->|Hne]; simpl.
    + destruct (String.eqb s k); reflexivity.
    + rewrite IH. destruct (String.eqb_spec k' k) as [->|Hne'].
      * destruct (String.eqb_spec s k); [congruence|reflexivity].
      * reflexivity.
Qed.

Lemma statusGroups_snoc l s :
  statusGroups (l ++ [s]) = Prisma.addToGroup s (statusGroups l).
Proof. unfold statusGroups. rewrite fold_left_app. reflexivity. Qed.

(** A group exists exactly for the statuses that occur, with their number. *)
Lemma occurrences_single k s :
  occurrences k [s] = if String.eqb s k then 1 else 0.
Proof.
  unfold occurrences. simpl. rewrite String.eqb_sym.
  destruct (String.eqb s k); reflexivity.
Qed.

(** A group exists exactly for the statuses that occur, with their number. *)
Lemma alookup_statusGroups k l :
  alookup k (statusGroups l) =
  if occurrences k l =? 0 then None else Some (occurrences k l).
Proof.
  induction l as [|s l IH] using rev_ind; [reflexivity|].
  rewrite statusGroups_snoc, alookup_addToGroup, occurrences_app, occurrences_single.
  pose proof (occurrences_nonneg k l).
  destruct (String.eqb_spec s k) as [->|Hne].
  - rewrite IH. destruct (Z.eqb_spec (occurrences k l) 0) as [->|Hz]; [reflexivity|].
    destruct (Z.eqb_spec (occurrences k l + 1) 0); [lia|reflexivity].
  - rewrite IH, Z.add_0_r. reflexivity.
Qed.

Lemma alookup_None k g : alookup k g = None <-> ~ In k (List.map fst g).
Proof.
  induction g as [|[k' n] g IH]; simpl; [tauto|].
  destruct (String.eqb_spec k' k); [split; [discriminate|tauto]|].
  rewrite IH. tauto.
Qed.

Lemma addToGroup_keys s g :
  List.map fst (Prisma.addToGroup s g) =
  match alookup s g with
  | Some _ => List.map fst g
  | None => List.map fst g ++ [s]
  end.
Proof.
  induction g as [|[k' n] g IH]; simpl; [reflexivity|].
  destruct (String.eqb_spec k' s); simpl; [reflexivity|].
  rewrite IH. destruct (alookup s g); reflexivity.
Qed.

Lemma statusGroups_NoDup l : NoDup (List.map fst (statusGroups l)).
Proof.
  induction l as [|s l IH] using rev_ind; [constructor|].
  rewrite statusGroups_snoc, addToGroup_keys.
  destruct (alookup s (statusGroups l)) eqn:E; [exact IH|].
  apply NoDup_app. split; [exact IH|]. split.
  - intros x Hx [->|[]]%list_elem_of_In. apply alookup_None in E. apply E, list_elem_of_In, Hx.
  - apply NoDup_singleton.
Qed.

Lemma statsObjectOf_lookup g acc k :
  NoDup (List.map fst g) -> k <> "__proto__"%string ->
  statsObjectOf g acc !! k =
  match alookup k g with Some v => Some v | None => acc !! k end.
Proof.
  unfold statsObjectOf. revert acc.
  induction g as [|[k' v] g IH]; intros acc Hnd Hk; simpl; [reflexivity|].
  apply NoDup_cons in Hnd as [Hnot Hnd]. rewrite (IH _ Hnd Hk). unfold setProperty.
  destruct (String.eqb_spec k' k) as [->|Hne].
  - assert (alookup k g = None) as -> by (apply alookup_None; rewrite <- list_elem_of_In; exact Hnot).
    destruct (String.eqb_spec k "__proto__"); [contradiction|].
    apply lookup_insert_eq.
  - destruct (alookup k g); [reflexivity|].
    destruct (String.eqb k' "__proto__"); [reflexivity|].
    apply lookup_insert_ne. exact Hne.
Qed.

Lemma zeroStats_lookup (s : JobStatus) : zeroStats !! JobStatus_value s = Some 0.
Proof. destruct s; reflexivity. Qed.

Lemma whereClerk_filter userId rows :
  List.filter (Prisma.matches (Prisma.whereClerk userId)) rows = ownedBy userId rows.
Proof.
  unfold ownedBy. apply filter_ext. intros j. unfold Prisma.matches. simpl.
  rewrite !andb_true_r. reflexivity.
Qed.

Lemma fold_status_groups rows :
  fold_left (fun g j => Prisma.addToGroup (status j) g) rows [] =
  statusGroups (List.map status rows).
Proof.
  unfold statusGroups. generalize (@nil (string * Z)).
  induction rows as [|j rows IH]; intros g; simpl; [reflexivity|]. apply IH.
Qed.

Lemma getStatsAction_run w userId :
  currentUser w = Some userId ->
  noFault 1 w = true ->
  getStatsAction w =
  (Return (statsObjectOf (statusGroups (List.map status (ownedBy userId (jobTable w)))) ∅
           ∪ zeroStats),
   afterQuery w).
Proof.
  intros Hu Hq. unfold getStatsAction, mbind, Action_bind.
  rewrite (authenticate_ok _ _ Hu). unfold tryCatch, Prisma.groupByStatus.
  rewrite (query_ok _ _ Hq). change (jobTable (afterQuery w)) with (jobTable w).
  rewrite whereClerk_filter, fold_status_groups. reflexivity.
Qed.

(** C4. With the caller signed in and the storage answering, the statistics
    action returns a mapping that has each of the five statuses, with the
    number of the caller's rows in that status, zero when there is none;
    with no row all five are zero; and on rows of statuses applied,
    applied, offer the mapping is exactly applied 2, screening 0,
    interview 0, offer 1, rejected 0. *)
Theorem stats_cover_all_statuses (w : World) (userId : string) :
  let mine := ownedBy userId (jobTable w) in
  currentUser w = Some userId ->
  noFault 1 w = true ->
  exists m w',
    getStatsAction w = (Return m, w') /\
    (forall s : JobStatus,
        m !! JobStatus_value s = Some (statusCount (JobStatus_value s) mine)) /\
    (mine = [] -> forall s : JobStatus, m !! JobStatus_value s = Some 0) /\
    (List.map status mine = ["applied"; "applied"; "offer"]%string ->
     m = <["applied" := 2]> (<["screening" := 0]> (<["interview" := 0]>
           (<["offer" := 1]> (<["rejected" := 0]> ∅))))).
Proof.
  intros mine Hu Hq. eexists _, _. split; [apply (getStatsAction_run w userId Hu Hq)|].
  fold mine.
  assert (forall s : JobStatus,
    (statsObjectOf (statusGroups (List.map status mine)) ∅ ∪ zeroStats)
      !! JobStatus_value s = Some (statusCount (JobStatus_value s) mine)) as Hall.
  { intros s. rewrite lookup_union, zeroStats_lookup.
    rewrite statsObjectOf_lookup; [|apply statusGroups_NoDup|destruct s; discriminate].
    rewrite alookup_statusGroups, lookup_empty. unfold statusCount.
    destruct (Z.eqb_spec (occurrences (JobStatus_value s) (List.map status mine)) 0) as [->|];
      reflexivity. }
  split; [exact Hall|]. split.
  - intros Hnil s. rewrite Hall, Hnil. reflexivity.
  - intros ->. vm_compute. reflexivity.
Qed.
End Statistics.

(** ** The monthly trend *)

Section Calendar.
Import Dayjs.

Lemma dateInMarchYear_pos doy : 1 <= dateInMarchYear doy.
Proof. unfold dateInMarchYear. cbv zeta. Z.div_mod_to_equations. lia. Qed.

Lemma civilFromDays_date day y m d : civilFromDays day = (y, m, d) -> 1 <= d.
Proof.
  unfold civilFromDays. cbv zeta. intros [= _ _ <-]. apply dateInMarchYear_pos.
Qed.

Lemma daysInMonth_pos y m : 1 <= daysInMonth y m.
Proof.
  unfold daysInMonth.
  destruct (isLeapYear y); destruct m as [|p|p]; try lia;
    do 4 (try destruct p as [p|p|]); lia.
Qed.

(** The first day of the next month comes a month's length later. *)
Lemma daysFromCivil_next y m :
  0 <= m < 12 ->
  daysFromCivil (y + (m + 1) / 12) ((m + 1) mod 12) =
  daysFromCivil y m + daysInMonth y m.
Proof.
  intros Hm.
  assert (m = 0 \/ m = 1 \/ m = 2 \/ m = 3 \/ m = 4 \/ m = 5 \/ m = 6 \/
          m = 7 \/ m = 8 \/ m = 9 \/ m = 10 \/ m = 11) as Hc by lia.
  destruct Hc as [->|[->|[->|[->|[->|[->|[->|[->|[->|[->|[->| ->]]]]]]]]]]];
    unfold daysInMonth, isLeapYear;
    match goal with
    | |- daysFromCivil (?y + ?a / 12) (?b mod 12) = _ =>
        let a' := eval vm_compute in (a / 12) in
        let b' := eval vm_compute in (b mod 12) in
        change (a / 12) with a'; change (b mod 12) with b'
    end; rewrite ?Z.add_0_r; unfold daysFromCivil; simpl.
  all: try (Z.div_mod_to_equations; lia).
  destruct (y mod 4 =? 0) eqn:E4; destruct (y mod 100 =? 0) eqn:E100;
    destruct (y mod 400 =? 0) eqn:E400; simpl;
    rewrite ?Z.eqb_eq, ?Z.eqb_neq in *; Z.div_mod_to_equations; lia.
Qed.

(** One month further back is strictly earlier. *)
Lemma subtractMonths_decreasing tz n t :
  subtractMonths tz (n + 1) t < subtractMonths tz n t.
Proof.
  unfold subtractMonths. cbv zeta.
  destruct (civilFromDays ((t + tz) / msPerDay)) as [[y m] d] eqn:E.
  apply civilFromDays_date in E.
  set (M := m - n). replace (m - (n + 1)) with (M - 1) by (unfold M; lia).
  set (yA := y + (M - 1) / 12). set (mA := (M - 1) mod 12).
  set (yB := y + M / 12). set (mB := M mod 12).
  assert (0 <= mA < 12) as HA by (apply Z.mod_pos_bound; lia).
  assert (0 <= mB < 12) as HB by (apply Z.mod_pos_bound; lia).
  assert (yA + (mA + 1) / 12 = yB /\ (mA + 1) mod 12 = mB) as [Hy Hm].
  { unfold yA, mA, yB, mB. Z.div_mod_to_equations. lia. }
  pose proof (daysFromCivil_next yA mA HA) as Hnext. rewrite Hy, Hm in Hnext.
  unfold makeDay.
  rewrite (Z.div_small mA 12), (Z.mod_small mA 12), (Z.div_small mB 12),
    (Z.mod_small mB 12), !Z.add_0_r by assumption.
  pose proof (daysInMonth_pos yA mA). pose proof (daysInMonth_pos yB mB).
  unfold msPerDay. lia.
Qed.
End Calendar.

Section CalendarOrder.
Import Dayjs.

Lemma civilFromDays_inverse day y m d :
  civilFromDays day = (y, m, d) ->
  0 <= m <= 11 /\ 1 <= d <= daysInMonth y m /\ daysFromCivil y m + (d - 1) = day.
Proof.
  unfold civilFromDays, dateInMarchYear. cbv zeta.
  set (z := day + 719468).
  set (era := z / 146097).
  set (doe := z - era * 146097).
  assert (0 <= doe <= 146096) as Hdoe.
  { unfold doe, era. pose proof (Z.mod_pos_bound z 146097 ltac:(lia)) as Hm.
    rewrite Z.mod_eq in Hm by lia. lia. }
  assert (day = era * 146097 + doe - 719468) as Hday by (unfold doe, z; lia).
  clearbody doe. clearbody era. clear z.
  set (yoe := (doe - doe / 1460 + doe / 36524 - doe / 146096) / 365).
  set (doy := doe - (365 * yoe + yoe / 4 - yoe / 100)).
  assert (0 <= yoe <= 399) as Hyoe by (unfold yoe; Z.div_mod_to_equations; lia).
  assert (0 <= doy <= 365) as Hdoy by (unfold doy, yoe; Z.div_mod_to_equations; lia).
  assert (doy = 365 -> (yoe + 1) mod 4 = 0 /\ ((yoe + 1) mod 100 <> 0 \/ yoe = 399)) as Hleap
    by (unfold doy, yoe; Z.div_mod_to_equations; lia).
  assert (doe = 365 * yoe + yoe / 4 - yoe / 100 + doy) as Hdoe' by (unfold doy; lia).
  clearbody doy. clearbody yoe.
  set (mp := (5 * doy + 2) / 153).
  assert (0 <= mp <= 11) as Hmp by (unfold mp; Z.div_mod_to_equations; lia).
  assert (153 * mp <= 5 * doy + 2 < 153 * mp + 153) as Hmpd
    by (unfold mp; Z.div_mod_to_equations; lia).
  clearbody mp.
  intros [= <- <- <-].
  assert (mp = 0 \/ mp = 1 \/ mp = 2 \/ mp = 3 \/ mp = 4 \/ mp = 5 \/ mp = 6 \/
          mp = 7 \/ mp = 8 \/ mp = 9 \/ mp = 10 \/ mp = 11) as Hc by lia.
  destruct Hc as [->|[->|[->|[->|[->|[->|[->|[->|[->|[->|[->| ->]]]]]]]]]]];
    unfold daysFromCivil, daysInMonth, isLeapYear; simpl.
  all: try (split; [lia|]; split; [Z.div_mod_to_equations; lia|]; Z.div_mod_to_equations; lia).
  destruct ((yoe + era * 400 + 1) mod 4 =? 0) eqn:E4;
    destruct ((yoe + era * 400 + 1) mod 100 =? 0) eqn:E100;
    destruct ((yoe + era * 400 + 1) mod 400 =? 0) eqn:E400; simpl;
    rewrite ?Z.eqb_eq, ?Z.eqb_neq in *;
    (split; [lia|]; split; [Z.div_mod_to_equations; lia|]; Z.div_mod_to_equations; lia).
Qed.

Lemma firstDay_next M : firstDay (M + 1) = firstDay M + monthLength M.
Proof.
  unfold firstDay, monthLength.
  pose proof (Z.mod_pos_bound M 12 ltac:(lia)) as Hm.
  rewrite <- (daysFromCivil_next (M / 12) (M mod 12) Hm).
  f_equal; Z.div_mod_to_equations; lia.
Qed.

Lemma monthLength_pos M : 1 <= monthLength M.
Proof. apply daysInMonth_pos. Qed.

(** A later month begins after the earlier month has ended. *)
Lemma firstDay_later M1 M2 : M1 < M2 -> firstDay M1 + monthLength M1 <= firstDay M2.
Proof.
  intros Hlt. replace M2 with (M1 + 1 + (M2 - M1 - 1)) by lia.
  assert (0 <= M2 - M1 - 1) as Hk by lia. revert Hk. generalize (M2 - M1 - 1). clear Hlt M2.
  intros k Hk. pattern k. apply natlike_ind; [| |exact Hk].
  - rewrite Z.add_0_r, firstDay_next. lia.
  - intros x Hx IH. replace (M1 + 1 + Z.succ x) with (M1 + 1 + x + 1) by lia.
    rewrite firstDay_next. pose proof (monthLength_pos (M1 + 1 + x)). lia.
Qed.

(** A day lies in one month only. *)
Lemma month_of_day_unique M1 d1 M2 d2 :
  1 <= d1 <= monthLength M1 -> 1 <= d2 <= monthLength M2 ->
  firstDay M1 + (d1 - 1) <= firstDay M2 + (d2 - 1) -> M1 <= M2.
Proof.
  intros H1 H2 Hle. destruct (Z.le_gt_cases M1 M2) as [|Hgt]; [assumption|].
  pose proof (firstDay_later M2 M1 ltac:(lia)). lia.
Qed.

(** The day number of a time value, through its month index. *)
Lemma fields_day tz t :
  exists d, 1 <= d <= monthLength (monthIndex tz t) /\
            firstDay (monthIndex tz t) + (d - 1) = (t + tz) / msPerDay /\
            0 <= f_month (fields tz t) <= 11.
Proof.
  unfold monthIndex, fields. cbv zeta.
  destruct (civilFromDays ((t + tz) / msPerDay)) as [[y m] d] eqn:E.
  apply civilFromDays_inverse in E as (Hm & Hd & Hday). cbn [f_year f_month].
  exists d. unfold monthLength, firstDay.
  replace ((y * 12 + m) / 12) with y by (Z.div_mod_to_equations; lia).
  replace ((y * 12 + m) mod 12) with m by (Z.div_mod_to_equations; lia).
  repeat split; try assumption; lia.
Qed.

(** Time does not run back through the months. *)
Lemma monthIndex_mono tz t1 t2 : t1 <= t2 -> monthIndex tz t1 <= monthIndex tz t2.
Proof.
  intros Hle.
  destruct (fields_day tz t1) as (d1 & Hd1 & Hday1 & _).
  destruct (fields_day tz t2) as (d2 & Hd2 & Hday2 & _).
  apply (month_of_day_unique _ d1 _ d2 Hd1 Hd2). rewrite Hday1, Hday2.
  apply Z.div_le_mono; [unfold msPerDay|]; lia.
Qed.

Lemma fields_civil tz t y m d :
  civilFromDays ((t + tz) / msPerDay) = (y, m, d) ->
  f_year (fields tz t) = y /\ f_month (fields tz t) = m.
Proof. intros E. unfold fields. cbv zeta. rewrite E. split; reflexivity. Qed.

Lemma subtractMonths_civil tz n t y m d :
  civilFromDays ((t + tz) / msPerDay) = (y, m, d) ->
  subtractMonths tz n t =
  makeDay (y + (m - n) / 12) ((m - n) mod 12)
          (Z.min d (daysInMonth (y + (m - n) / 12) ((m - n) mod 12))) * msPerDay +
  (t + tz) mod msPerDay - tz.
Proof. intros E. unfold subtractMonths. cbv zeta. rewrite E. reflexivity. Qed.

Lemma day_of_shifted a b tz :
  (a * msPerDay + b mod msPerDay - tz + tz) / msPerDay = a.
Proof. unfold msPerDay. Z.div_mod_to_equations. lia. Qed.

(** [subtract (n, "month")] lands in the month [n] months before. *)
Lemma subtractMonths_monthIndex tz n t :
  monthIndex tz (subtractMonths tz n t) = monthIndex tz t - n.
Proof.
  destruct (fields_day tz (subtractMonths tz n t)) as (d' & Hd' & Hday' & _).
  revert Hd' Hday'. generalize (monthIndex tz (subtractMonths tz n t)). intros M' Hd' Hday'.
  destruct (civilFromDays ((t + tz) / msPerDay)) as [[y m] d] eqn:E.
  destruct (fields_civil tz t y m d E) as [Hy Hm].
  rewrite (subtractMonths_civil tz n t y m d E) in Hday'.
  apply civilFromDays_inverse in E as (Hmr & Hd & Hday).
  unfold monthIndex. rewrite Hy, Hm. clear Hy Hm.
  set (M := y * 12 + m - n).
  assert (y + (m - n) / 12 = M / 12 /\ (m - n) mod 12 = M mod 12) as [Hy1 Hm1]
    by (unfold M; Z.div_mod_to_equations; lia).
  rewrite Hy1, Hm1, day_of_shifted in Hday'.
  pose proof (Z.mod_pos_bound M 12 ltac:(lia)) as HmM.
  unfold makeDay in Hday'.
  rewrite (Z.div_small (M mod 12) 12), (Z.mod_small (M mod 12) 12), Z.add_0_r in Hday'
    by assumption.
  change (daysFromCivil (M / 12) (M mod 12)) with (firstDay M) in Hday'.
  change (daysInMonth (M / 12) (M mod 12)) with (monthLength M) in Hday'.
  pose proof (monthLength_pos M) as HposM.
  assert (1 <= Z.min d (monthLength M) <= monthLength M) as Hd1 by lia.
  assert (M' <= M)
    by (apply (month_of_day_unique _ d' _ (Z.min d (monthLength M))); [assumption|assumption|lia]).
  assert (M <= M')
    by (apply (month_of_day_unique _ (Z.min d (monthLength M)) _ d'); [assumption|assumption|lia]).
  unfold M in *. lia.
Qed.
End CalendarOrder.

Section Labels.
Import Dayjs.

Lemma monthShort_length m : String.length (monthShort m) = 3%nat.
Proof.
  unfold monthShort. destruct m as [|p|p]; try reflexivity.
  do 4 (try destruct p as [p|p|]); reflexivity.
Qed.

Lemma monthShort_inj m1 m2 :
  0 <= m1 <= 11 -> 0 <= m2 <= 11 -> monthShort m1 = monthShort m2 -> m1 = m2.
Proof.
  intros H1 H2.
  assert (m1 = 0 \/ m1 = 1 \/ m1 = 2 \/ m1 = 3 \/ m1 = 4 \/ m1 = 5 \/ m1 = 6 \/
          m1 = 7 \/ m1 = 8 \/ m1 = 9 \/ m1 = 10 \/ m1 = 11) as C1 by lia.
  assert (m2 = 0 \/ m2 = 1 \/ m2 = 2 \/ m2 = 3 \/ m2 = 4 \/ m2 = 5 \/ m2 = 6 \/
          m2 = 7 \/ m2 = 8 \/ m2 = 9 \/ m2 = 10 \/ m2 = 11) as C2 by lia.
  destruct C1 as [->|[->|[->|[->|[->|[->|[->|[->|[->|[->|[->| ->]]]]]]]]]]];
    destruct C2 as [->|[->|[->|[->|[->|[->|[->|[->|[->|[->|[->| ->]]]]]]]]]]];
    simpl; intros; first [reflexivity|discriminate].
Qed.

Lemma fields_month_range tz t : 0 <= f_month (fields tz t) <= 11.
Proof. destruct (fields_day tz t) as (d & _ & _ & H). exact H. Qed.

Lemma monthIndex_split tz t :
  f_year (fields tz t) = monthIndex tz t / 12 /\
  f_month (fields tz t) = monthIndex tz t mod 12.
Proof.
  pose proof (fields_month_range tz t). unfold monthIndex.
  split; Z.div_mod_to_equations; lia.
Qed.

Lemma calendarMonth_monthIndex tz t1 t2 :
  calendarMonth tz t1 = calendarMonth tz t2 <-> monthIndex tz t1 = monthIndex tz t2.
Proof.
  unfold calendarMonth. destruct (monthIndex_split tz t1) as [Hy1 Hm1].
  destruct (monthIndex_split tz t2) as [Hy2 Hm2]. split.
  - intros Heq. pose proof (f_equal fst Heq) as Hy. pose proof (f_equal snd Heq) as Hm.
    cbn [fst snd] in Hy, Hm. unfold monthIndex. rewrite Hy, Hm. reflexivity.
  - intros Heq. rewrite Hy1, Hm1, Hy2, Hm2, Heq. reflexivity.
Qed.

(** Equal labels have the same month of the year. *)
Lemma formatMMM_YY_month tz t1 t2 :
  formatMMM_YY tz t1 = formatMMM_YY tz t2 ->
  f_month (fields tz t1) = f_month (fields tz t2).
Proof.
  unfold formatMMM_YY. cbv zeta. intros Heq.
  apply append_inj_length in Heq as [Hm _]; [|rewrite !monthShort_length; reflexivity].
  apply monthShort_inj in Hm; [exact Hm|apply fields_month_range..].
Qed.

(** Within the six months up to now, the label tells the calendar month. *)
Lemma label_in_window tz now t1 t2 :
  subtractMonths tz 6 now <= t1 <= now ->
  subtractMonths tz 6 now <= t2 <= now ->
  (formatMMM_YY tz t1 = formatMMM_YY tz t2 <-> calendarMonth tz t1 = calendarMonth tz t2).
Proof.
  intros [Hl1 Hu1] [Hl2 Hu2]. split.
  - intros Heq. apply calendarMonth_monthIndex.
    apply formatMMM_YY_month in Heq.
    destruct (monthIndex_split tz t1) as [_ Hm1]. destruct (monthIndex_split tz t2) as [_ Hm2].
    rewrite Hm1, Hm2 in Heq.
    pose proof (monthIndex_mono tz _ _ Hl1) as A1. pose proof (monthIndex_mono tz _ _ Hu1) as B1.
    pose proof (monthIndex_mono tz _ _ Hl2) as A2. pose proof (monthIndex_mono tz _ _ Hu2) as B2.
    rewrite subtractMonths_monthIndex in A1, A2.
    revert Heq A1 B1 A2 B2.
    generalize (monthIndex tz t1) (monthIndex tz t2) (monthIndex tz now). intros a b c.
    intros. Z.div_mod_to_equations. lia.
  - intros Heq. pose proof (f_equal fst Heq) as Hy. pose proof (f_equal snd Heq) as Hm.
    unfold calendarMonth in Hy, Hm. cbn [fst snd] in Hy, Hm.
    unfold formatMMM_YY. cbv zeta. rewrite Hy, Hm. reflexivity.
Qed.
End Labels.

Section Keys.
Import Dayjs.

Lemma pretty_N_go_head x s :
  (0 < x)%N -> exists c r, pretty_N_go x s = String c r /\ c <> "0"%char.
Proof.
  revert s. induction (N.lt_wf_0 x) as [x _ IH]. intros s Hx.
  rewrite pretty_N_go_step by exact Hx.
  destruct (N.eq_dec (x / 10) 0) as [Hz|Hnz].
  - rewrite Hz, pretty_N_go_0. eexists _, _. split; [reflexivity|].
    assert (x < 10)%N as Hlt by (apply N.div_small_iff in Hz; lia).
    rewrite N.mod_small by exact Hlt.
    assert (x = 1 \/ x = 2 \/ x = 3 \/ x = 4 \/ x = 5 \/ x = 6 \/ x = 7 \/ x = 8 \/ x = 9)%N
      as Hc by lia.
    destruct Hc as [->|[->|[->|[->|[->|[->|[->|[->| ->]]]]]]]]; discriminate.
  - apply IH; [apply N.div_lt; [exact Hx|reflexivity]|apply N.neq_0_lt_0; exact Hnz].
Qed.

Lemma pretty_Z_head (y : Z) :
  y <> 0 -> exists c r, pretty y = String c r /\ c <> "0"%char.
Proof.
  destruct y as [|p|p]; intros Hy; [contradiction| |].
  - change (pretty (Z.pos p)) with (pretty (N.pos p)). unfold pretty, pretty_N.
    destruct (decide (N.pos p = 0%N)); [discriminate|]. apply pretty_N_go_head. lia.
  - exists "-"%char, (pretty p). split; [reflexivity|discriminate].
Qed.

Lemma pretty_Z_length (y : Z) : (1 <= String.length (pretty y))%nat.
Proof.
  destruct (Z.eq_dec y 0) as [->|Hy]; [simpl; lia|].
  destruct (pretty_Z_head y Hy) as (c & r & -> & _). simpl. lia.
Qed.

Lemma zeros_length n : String.length (zeros n) = n.
Proof. induction n as [|n IH]; simpl; [reflexivity|]. rewrite IH. reflexivity. Qed.

Lemma zeros_add n k : zeros (n + k) = zeros n +:+ zeros k.
Proof.
  induction n as [|n IH]; [reflexivity|].
  change (String "0" (zeros (n + k)) = String "0" (zeros n +:+ zeros k)). rewrite IH. reflexivity.
Qed.

(** A number padded with fewer zeros than another cannot give the same text. *)
Lemma padded_differ k1 k2 (y1 y2 : Z) :
  (k1 < k2)%nat -> zeros k1 +:+ pretty y1 = zeros k2 +:+ pretty y2 -> False.
Proof.
  intros Hlt Heq. replace k2 with (k1 + (k2 - k1))%nat in Heq by lia.
  rewrite zeros_add, append_assoc in Heq.
  apply append_inj_length in Heq as [_ Heq]; [|reflexivity].
  destruct (k2 - k1)%nat as [|k] eqn:Ek; [lia|].
  change (pretty y1 = String "0" (zeros k +:+ pretty y2)) in Heq.
  destruct (Z.eq_dec y1 0) as [->|Hy].
  - change (String "0" "" = String "0" (zeros k +:+ pretty y2)) in Heq.
    injection Heq as Heq. apply (f_equal String.length) in Heq.
    rewrite length_append in Heq. pose proof (pretty_Z_length y2). simpl in Heq. lia.
  - destruct (pretty_Z_head y1 Hy) as (c & r & Hp & Hc). rewrite Hp in Heq.
    injection Heq as -> _. contradiction.
Qed.

Lemma padStart_inj len (y1 y2 : Z) : padStart len y1 = padStart len y2 -> y1 = y2.
Proof.
  unfold padStart. cbv zeta. intros Heq.
  destruct (Nat.lt_trichotomy (len - String.length (pretty y1))
                              (len - String.length (pretty y2))) as [Hlt|[He|Hgt]].
  - destruct (padded_differ _ _ _ _ Hlt Heq).
  - rewrite He in Heq. apply append_inj_length in Heq as [_ Heq]; [|reflexivity].
    apply (inj pretty). exact Heq.
  - symmetry in Heq. destruct (padded_differ _ _ _ _ Hgt Heq).
Qed.

Lemma padStart2_month_length m :
  0 <= m <= 11 -> String.length (padStart 2 (m + 1)) = 2%nat.
Proof.
  intros H.
  assert (m = 0 \/ m = 1 \/ m = 2 \/ m = 3 \/ m = 4 \/ m = 5 \/ m = 6 \/
          m = 7 \/ m = 8 \/ m = 9 \/ m = 10 \/ m = 11) as C by lia.
  destruct C as [->|[->|[->|[->|[->|[->|[->|[->|[->|[->|[->| ->]]]]]]]]]]]; reflexivity.
Qed.

(** The key YYYY-MM names the calendar month, and nothing else. *)
Lemma formatYYYY_MM_calendarMonth tz t1 t2 :
  formatYYYY_MM tz t1 = formatYYYY_MM tz t2 <-> calendarMonth tz t1 = calendarMonth tz t2.
Proof.
  unfold formatYYYY_MM, calendarMonth. cbv zeta. split.
  - intros Heq.
    pose proof (fields_month_range tz t1) as R1. pose proof (fields_month_range tz t2) as R2.
    assert (String.length (padStart 4 (f_year (fields tz t1))) =
            String.length (padStart 4 (f_year (fields tz t2)))) as Hlen.
    { apply (f_equal String.length) in Heq. rewrite !length_append in Heq.
      rewrite !padStart2_month_length in Heq by assumption. lia. }
    apply append_inj_length in Heq as [Hy Hrest]; [|exact Hlen].
    apply padStart_inj in Hy.
    apply append_inj_length in Hrest as [_ Hm]; [|reflexivity].
    apply padStart_inj in Hm. f_equal; [exact Hy|lia].
  - intros Heq. pose proof (f_equal fst Heq) as Hy. pose proof (f_equal snd Heq) as Hm.
    cbn [fst snd] in Hy, Hm. rewrite Hy, Hm. reflexivity.
Qed.
End Keys.

Section Trend.

Lemma countMonth_addToGroup date acc :
  countMonth date acc = Prisma.addToGroup date acc.
Proof.
  induction acc as [|[d c] acc IH]; simpl; [reflexivity|]. rewrite IH. reflexivity.
Qed.

Lemma applicationsPerMonth_groups tz js :
  applicationsPerMonth tz js = statusGroups (List.map (monthLabel tz) js).
Proof.
  unfold applicationsPerMonth, statusGroups. generalize (@nil (string * Z)).
  induction js as [|j js IH]; intros g; simpl; [reflexivity|].
  rewrite countMonth_addToGroup. apply IH.
Qed.

Lemma existsb_alookup s g :
  existsb (String.eqb s) (List.map fst g) = match alookup s g with Some _ => true | None => false end.
Proof.
  induction g as [|[k v] g IH]; simpl; [reflexivity|].
  rewrite String.eqb_sym. destruct (String.eqb k s); simpl; [reflexivity|exact IH].
Qed.

Lemma firstSeen_snoc l s :
  firstSeen (l ++ [s]) =
  if existsb (String.eqb s) (firstSeen l) then firstSeen l else firstSeen l ++ [s].
Proof. unfold firstSeen. rewrite fold_left_app. reflexivity. Qed.

(** The keys of the groups are the labels in first-seen order. *)
Lemma statusGroups_keys l : List.map fst (statusGroups l) = firstSeen l.
Proof.
  induction l as [|s l IH] using rev_ind; [reflexivity|].
  rewrite statusGroups_snoc, addToGroup_keys, firstSeen_snoc, <- IH, existsb_alookup.
  destruct (alookup s (statusGroups l)); reflexivity.
Qed.

Lemma alookup_In k v g :
  NoDup (List.map fst g) -> (alookup k g = Some v <-> In (k, v) g).
Proof.
  induction g as [|[k' v'] g IH]; simpl; intros Hnd.
  - split; [discriminate|contradiction].
  - apply NoDup_cons in Hnd as [Hnot Hnd].
    destruct (String.eqb_spec k' k) as [->|Hne].
    + split.
      * intros [= ->]. left. reflexivity.
      * intros [[= ->]|Hin]; [reflexivity|].
        exfalso. apply Hnot, list_elem_of_In. apply (in_map fst) in Hin. exact Hin.
    + rewrite (IH Hnd). split; [tauto|]. intros [[= -> ->]|Hin]; [contradiction|exact Hin].
Qed.

Lemma firstOfMonth_snoc tz js j :
  firstOfMonth tz (js ++ [j]) =
  if existsb (String.eqb (monthLabel tz j)) (List.map (monthLabel tz) (firstOfMonth tz js))
  then firstOfMonth tz js else firstOfMonth tz js ++ [j].
Proof. unfold firstOfMonth. rewrite fold_left_app. reflexivity. Qed.

Lemma firstOfMonth_labels tz js :
  List.map (monthLabel tz) (firstOfMonth tz js) = firstSeen (List.map (monthLabel tz) js).
Proof.
  induction js as [|j js IH] using rev_ind; [reflexivity|].
  rewrite firstOfMonth_snoc, map_app.
  change (List.map (monthLabel tz) [j]) with [monthLabel tz j].
  rewrite firstSeen_snoc, <- IH.
  destruct (existsb _ _); [reflexivity|]. rewrite map_app. reflexivity.
Qed.

Lemma firstOfMonth_sublist tz js : firstOfMonth tz js `sublist_of` js.
Proof.
  induction js as [|j js IH] using rev_ind; [constructor|].
  rewrite firstOfMonth_snoc. destruct (existsb _ _).
  - apply sublist_inserts_r, IH.
  - apply sublist_app; [exact IH|reflexivity].
Qed.

Lemma ascendingBy_sublist {A} (key : A -> Z) (l k : list A) :
  l `sublist_of` k -> ascendingBy key k -> ascendingBy key l.
Proof.
  unfold ascendingBy. intros Hsub Hk.
  assert (Transitive (fun a b : A => key a <= key b)) as Htr by (intros a b c; lia).
  apply Sorted_StronglySorted in Hk; [|exact Htr].
  apply StronglySorted_Sorted.
  induction Hsub as [|x l k Hsub IH|x l k Hsub IH].
  - constructor.
  - inversion Hk as [|? ? Hk' Hall]; subst. constructor; [apply IH, Hk'|].
    rewrite List.Forall_forall in *. intros y Hy. apply Hall.
    apply list_elem_of_In. eapply sublist_subseteq; [exact Hsub|]. apply list_elem_of_In, Hy.
  - inversion Hk; subst. apply IH. assumption.
Qed.

Lemma trendWhere_filter userId cutoff rows :
  List.filter (Prisma.matches (Prisma.mkWhere None (Some userId) None None (Some cutoff))) rows =
  List.filter (fun j => String.eqb (clerkId j) userId && (cutoff <=? appliedDate j)) rows.
Proof.
  apply filter_ext. intros j. unfold Prisma.matches. simpl.
  rewrite !andb_true_r. reflexivity.
Qed.

Lemma getChartsDataAction_run w userId :
  currentUser w = Some userId ->
  noFault 1 w = true ->
  getChartsDataAction w =
  (Return (applicationsPerMonth (tz w)
             (Prisma.orderByAppliedDate Prisma.asc
                (List.filter
                   (fun j => String.eqb (clerkId j) userId &&
                             (Dayjs.subtractMonths (tz w) 6 (now w) <=? appliedDate j))
                   (jobTable w)))),
   afterQuery w).
Proof.
  intros Hu Hq. unfold getChartsDataAction, mbind, Action_bind.
  rewrite (authenticate_ok _ _ Hu). unfold getWorld, tryCatch, Prisma.findMany.
  rewrite (query_ok _ _ Hq). cbn [Prisma.skipOf].
  change (0 <? 0) with false. cbv iota.
  change (jobTable (afterQuery w)) with (jobTable w).
  rewrite trendWhere_filter. reflexivity.
Qed.

(** C5. With the caller signed in and the storage answering, the chart
    action counts exactly the caller's rows whose applied date is at or
    after the moment six months before now: the moment seven months before
    now lies strictly before that cutoff, so a row applied then is left
    out, and a row applied at the cutoff is counted.  The rows are visited
    in ascending order of the applied date; there is one point for each
    month label ("MMM YY") that occurs among them, its count is the number
    of counted rows with that label, and the points stand in the order in
    which their labels are first seen, that is, in the order of the dates of
    the first row of each label.  When no counted row is applied after now,
    two counted rows carry the same label exactly when they fall in the same
    calendar month (year and month), so that the points are the distinct
    months. *)
Theorem monthly_trend_window_and_buckets (w : World) (userId : string) :
  let cutoff := Dayjs.subtractMonths (tz w) 6 (now w) in
  let included :=
    Prisma.orderByAppliedDate Prisma.asc
      (List.filter (fun j => String.eqb (clerkId j) userId && (cutoff <=? appliedDate j))
                   (jobTable w)) in
  let labels := List.map (monthLabel (tz w)) included in
  currentUser w = Some userId ->
  noFault 1 w = true ->
  exists points w',
    getChartsDataAction w = (Return points, w') /\
    (forall j, In j included <->
               In j (jobTable w) /\ clerkId j = userId /\ cutoff <= appliedDate j) /\
    Dayjs.subtractMonths (tz w) 7 (now w) < cutoff /\
    (forall j, In j (jobTable w) -> clerkId j = userId ->
               (appliedDate j = Dayjs.subtractMonths (tz w) 7 (now w) -> ~ In j included) /\
               (appliedDate j = cutoff -> In j included)) /\
    ascendingBy appliedDate included /\
    NoDup (List.map fst points) /\
    (forall label n, In (label, n) points <-> n = occurrences label labels /\ 0 < n) /\
    List.map fst points = firstSeen labels /\
    (exists firsts,
        firsts `sublist_of` included /\
        ascendingBy appliedDate firsts /\
        List.map (monthLabel (tz w)) firsts = List.map fst points) /\
    ((forall j, In j included -> appliedDate j <= now w) ->
     forall a b, In a included -> In b included ->
       (monthLabel (tz w) a = monthLabel (tz w) b <->
        calendarMonth (tz w) (appliedDate a) = calendarMonth (tz w) (appliedDate b))).
Proof.
  intros cutoff included labels Hu Hq.
  eexists _, _. split; [apply (getChartsDataAction_run w userId Hu Hq)|].
  fold cutoff. fold included. rewrite applicationsPerMonth_groups. fold labels.
  assert (forall j, In j included <->
            In j (jobTable w) /\ clerkId j = userId /\ cutoff <= appliedDate j) as Hin.
  { intros j. unfold included. rewrite (orderBy_In Prisma.asc), filter_In, andb_true_iff.
    rewrite String.eqb_eq, Z.leb_le. tauto. }
  assert (Dayjs.subtractMonths (tz w) 7 (now w) < cutoff) as Hlt
    by apply (subtractMonths_decreasing (tz w) 6 (now w)).
  split; [exact Hin|]. split; [exact Hlt|]. split.
  { intros j Hj Hc. split.
    - intros Hd Hi. apply Hin in Hi as (_ & _ & Hge). lia.
    - intros Hd. apply Hin. repeat split; [exact Hj|exact Hc|lia]. }
  split; [apply sort_asc|]. split; [apply statusGroups_NoDup|]. split.
  { intros label n. rewrite <- (alookup_In _ _ _ (statusGroups_NoDup labels)).
    rewrite alookup_statusGroups. pose proof (occurrences_nonneg label labels).
    destruct (Z.eqb_spec (occurrences label labels) 0) as [Hz|Hz]; split.
    - discriminate.
    - intros [-> ?]. lia.
    - intros [= <-]. split; [reflexivity|lia].
    - intros [-> _]. reflexivity. }
  split; [apply statusGroups_keys|]. split.
  - exists (firstOfMonth (tz w) included). split; [apply firstOfMonth_sublist|]. split.
    + apply (ascendingBy_sublist _ _ included); [apply firstOfMonth_sublist|apply sort_asc].
    + rewrite firstOfMonth_labels, statusGroups_keys. reflexivity.
  - intros Hpast a b Ha Hb. unfold monthLabel.
    apply (label_in_window (tz w) (now w)); (split; [|apply Hpast; assumption]).
    + apply Hin in Ha as (_ & _ & Hge). exact Hge.
    + apply Hin in Hb as (_ & _ & Hge). exact Hge.
Qed.
End Trend.

(** ** The export *)

Section ExportFiles.
Import DownloadDropdown.

Lemma monthKey_truthy tz j : Js.truthy (monthKey tz j) = true.
Proof. unfold monthKey, Dayjs.formatYYYY_MM. cbv zeta. apply truthy_append. Qed.

Lemma countWhere_status s jobs :
  countWhere (fun j => String.eqb (status j) s) jobs = statusCount s jobs.
Proof.
  unfold countWhere, statusCount, occurrences. f_equal.
  induction jobs as [|j jobs IH]; simpl; [reflexivity|].
  rewrite String.eqb_sym. destruct (String.eqb s (status j)); simpl; rewrite IH; reflexivity.
Qed.

Lemma exportRowsFrom_cons tz prev serial j js :
  exportRowsFrom tz prev serial (j :: js) =
  rowsOfJob tz prev serial j ++ exportRowsFrom tz (Some j) (serial + 1) js.
Proof.
  unfold rowsOfJob, separatorBetween. cbn [exportRowsFrom].
  rewrite <- app_assoc. reflexivity.
Qed.

(** One round of the loop of the sheet. *)
Lemma excelRow_step tz acc serial prev j :
  excelRow tz (acc, serial, lastKey tz prev) j =
  (acc ++ List.map (excelOfRow tz) (rowsOfJob tz prev serial j),
   serial + 1, lastKey tz (Some j)).
Proof.
  unfold excelRow, rowsOfJob, separatorBetween. destruct prev as [p|]; cbn [lastKey].
  - rewrite monthKey_truthy. unfold monthKey at 1.
    rewrite (String.eqb_sym (Dayjs.formatYYYY_MM tz (createdAt j))).
    fold (monthKey tz j). fold (monthKey tz p).
    destruct (String.eqb (monthKey tz p) (monthKey tz j)); cbn [andb negb app List.map];
      rewrite <- ?app_assoc; reflexivity.
  - reflexivity.
Qed.

(** One round of the loop of the text. *)
Lemma csvRow_step tz acc serial prev j :
  csvRow tz (acc, serial, lastKey tz prev) j =
  (acc +:+ concatStrings (List.map (csvOfRow tz) (rowsOfJob tz prev serial j)),
   serial + 1, lastKey tz (Some j)).
Proof.
  unfold csvRow, rowsOfJob, separatorBetween. destruct prev as [p|]; cbn [lastKey].
  - rewrite monthKey_truthy. unfold monthKey at 1.
    rewrite (String.eqb_sym (Dayjs.formatYYYY_MM tz (createdAt j))).
    fold (monthKey tz j). fold (monthKey tz p).
    destruct (String.eqb (monthKey tz p) (monthKey tz j));
      cbn [andb negb app List.map concatStrings]; f_equal; f_equal.
    + rewrite append_nil_r. reflexivity.
    + rewrite append_nil_r.
      transitivity ((acc +:+ nl) +:+ csvOfRow tz (DataRow serial j)); [reflexivity|].
      apply append_assoc.
  - cbn [andb app List.map concatStrings]. rewrite append_nil_r. reflexivity.
Qed.

Lemma concatStrings_app l1 l2 :
  concatStrings (l1 ++ l2) = concatStrings l1 +:+ concatStrings l2.
Proof.
  induction l1 as [|s l1 IH]; [reflexivity|]. cbn [app concatStrings].
  rewrite IH, append_assoc. reflexivity.
Qed.

Lemma excel_loop tz js : forall prev serial acc,
  fst (fst (fold_left (excelRow tz) js (acc, serial, lastKey tz prev))) =
  acc ++ List.map (excelOfRow tz) (exportRowsFrom tz prev serial js).
Proof.
  induction js as [|j js IH]; intros prev serial acc.
  - simpl. rewrite app_nil_r. reflexivity.
  - cbn [fold_left]. rewrite excelRow_step, IH, exportRowsFrom_cons, map_app, app_assoc.
    reflexivity.
Qed.

Lemma csv_loop tz js : forall prev serial acc,
  fst (fst (fold_left (csvRow tz) js (acc, serial, lastKey tz prev))) =
  acc +:+ concatStrings (List.map (csvOfRow tz) (exportRowsFrom tz prev serial js)).
Proof.
  induction js as [|j js IH]; intros prev serial acc.
  - simpl. rewrite append_nil_r. reflexivity.
  - cbn [fold_left]. rewrite csvRow_step, IH, exportRowsFrom_cons, map_app,
      concatStrings_app, append_assoc. reflexivity.
Qed.

(** The sheet is the four head rows followed by the rendered row sequence. *)
Lemma downloadAsExcel_rows now tz jobs :
  rows (downloadAsExcel now tz jobs) =
  excelHead (exportSummary now tz jobs) ++
  List.map (excelOfRow tz) (exportRows tz (exportOrder jobs)).
Proof.
  unfold downloadAsExcel. cbv zeta. rewrite !countWhere_status.
  pose proof (excel_loop tz (exportOrder jobs) None 1
                (excelHead (exportSummary now tz jobs))) as L.
  unfold exportOrder, lastKey in L.
  destruct (fold_left _ _ _) as [[r n] k]. exact L.
Qed.

(** The text is the head lines followed by the rendered row sequence. *)
Lemma downloadAsCSV_content now tz jobs :
  csvContent (downloadAsCSV now tz jobs) =
  csvHead (exportSummary now tz jobs) +:+
  concatStrings (List.map (csvOfRow tz) (exportRows tz (exportOrder jobs))).
Proof.
  unfold downloadAsCSV. cbv zeta. rewrite !countWhere_status.
  pose proof (csv_loop tz (exportOrder jobs) None 1
                (csvHead (exportSummary now tz jobs))) as L.
  unfold exportOrder, lastKey in L.
  destruct (fold_left _ _ _) as [[r n] k]. exact L.
Qed.

Lemma exportRowsFrom_data tz js : forall prev serial,
  List.filter (fun r => negb (isSeparator r)) (exportRowsFrom tz prev serial js) =
  numbered serial js.
Proof.
  induction js as [|j js IH]; intros prev serial; [reflexivity|].
  rewrite exportRowsFrom_cons, List.filter_app, IH. unfold rowsOfJob, separatorBetween.
  destruct prev as [p|]; [destruct (String.eqb _ _)|]; reflexivity.
Qed.

Lemma exportRowsFrom_between tz js : forall prev serial (i : nat) a b,
  js !! i = Some a -> js !! S i = Some b ->
  exists before after,
    exportRowsFrom tz prev serial js =
    before ++ DataRow (serial + Z.of_nat i) a :: separatorBetween tz a b ++
    DataRow (serial + Z.of_nat i + 1) b :: after.
Proof.
  induction js as [|j js IH]; intros prev serial i a b Ha Hb; [discriminate|].
  destruct i as [|i].
  - injection Ha as ->. destruct js as [|j' js]; [discriminate|]. injection Hb as ->.
    rewrite !exportRowsFrom_cons. unfold rowsOfJob at 1 2.
    exists (match prev with Some p => separatorBetween tz p a | None => [] end),
           (exportRowsFrom tz (Some b) (serial + 1 + 1) js).
    change (Z.of_nat 0) with 0. rewrite Z.add_0_r, <- !app_assoc. reflexivity.
  - destruct (IH (Some j) (serial + 1) i a b Ha Hb) as (before & after & E).
    rewrite exportRowsFrom_cons, E.
    exists (rowsOfJob tz prev serial j ++ before), after.
    replace (serial + Z.of_nat (S i)) with (serial + 1 + Z.of_nat i) by lia.
    rewrite <- app_assoc. reflexivity.
Qed.

Lemma exportRowsFrom_last tz js : forall prev serial,
  last (exportRowsFrom tz prev serial js) <> Some Separator.
Proof.
  induction js as [|j js IH]; intros prev serial; [discriminate|].
  rewrite exportRowsFrom_cons. unfold rowsOfJob. rewrite <- app_assoc. cbn [app].
  rewrite last_app, last_cons.
  specialize (IH (Some j) (serial + 1)).
  destruct (last (exportRowsFrom tz (Some j) (serial + 1) js)) as [r|];
    [exact IH|discriminate].
Qed.

(** C6. In both encodings the rows below the head are the rendering of one
    row sequence over the jobs sorted by creation time, newest first: the
    data rows are these jobs in that order, numbered from 1; between two
    neighbours there is exactly one separator when their months (the
    year-month keys of their creation times) differ and none when they
    agree; and the sequence neither begins nor ends with a separator.  Two
    keys agree exactly when the creation times fall in the same calendar
    month, and the rows of one month stand together, so that a month makes
    one group. *)
Theorem export_sorted_with_month_separators (now tz : Z) (jobs : list JobType) :
  let sorted := exportOrder jobs in
  let body := exportRows tz sorted in
  descendingBy createdAt sorted /\ Permutation sorted jobs /\
  rows (downloadAsExcel now tz jobs) =
    excelHead (exportSummary now tz jobs) ++ List.map (excelOfRow tz) body /\
  csvContent (downloadAsCSV now tz jobs) =
    csvHead (exportSummary now tz jobs) +:+ concatStrings (List.map (csvOfRow tz) body) /\
  List.filter (fun r => negb (isSeparator r)) body = numbered 1 sorted /\
  (forall (i : nat) a b,
      sorted !! i = Some a -> sorted !! S i = Some b ->
      exists before after,
        body = before ++ DataRow (1 + Z.of_nat i) a :: separatorBetween tz a b ++
               DataRow (1 + Z.of_nat i + 1) b :: after) /\
  head body <> Some Separator /\ last body <> Some Separator /\
  (forall a b, monthKey tz a = monthKey tz b <->
               calendarMonth tz (createdAt a) = calendarMonth tz (createdAt b)) /\
  (forall (i j k : nat) a b c,
      (i <= j <= k)%nat ->
      sorted !! i = Some a -> sorted !! j = Some b -> sorted !! k = Some c ->
      monthKey tz a = monthKey tz c -> monthKey tz b = monthKey tz a).
Proof.
  intros sorted body.
  split; [apply sort_desc|]. split; [apply sort_perm|].
  split; [apply downloadAsExcel_rows|]. split; [apply downloadAsCSV_content|].
  split; [apply exportRowsFrom_data|]. split; [|split; [|split; [|split]]].
  - intros i a b Ha Hb. apply (exportRowsFrom_between tz sorted None 1 i a b Ha Hb).
  - unfold body, exportRows. destruct sorted; simpl; discriminate.
  - apply exportRowsFrom_last.
  - intros a b. apply formatYYYY_MM_calendarMonth.
  - intros i j k a b c [Hij Hjk] Ha Hb Hc Hkey.
    pose proof (sort_desc createdAt jobs) as Hs. fold (exportOrder jobs) in Hs. fold sorted in Hs.
    pose proof (descendingBy_lookup createdAt sorted i j a b Hs Hij Ha Hb) as Hab.
    pose proof (descendingBy_lookup createdAt sorted j k b c Hs Hjk Hb Hc) as Hbc.
    apply (monthIndex_mono tz) in Hab, Hbc.
    unfold monthKey in *. apply formatYYYY_MM_calendarMonth, calendarMonth_monthIndex in Hkey.
    apply formatYYYY_MM_calendarMonth, calendarMonth_monthIndex. lia.
Qed.

Lemma exportRows_jobs tz js : forall prev serial j,
  In j js <-> exists n, In (DataRow n j) (exportRowsFrom tz prev serial js).
Proof.
  induction js as [|k js IH]; intros prev serial j.
  - simpl. split; [contradiction|]. intros [n []].
  - rewrite exportRowsFrom_cons. unfold rowsOfJob, separatorBetween. split.
    + intros [->|Hin].
      * exists serial. apply in_or_app. left. apply in_or_app. right. left. reflexivity.
      * apply (IH (Some k) (serial + 1)) in Hin as [n Hn].
        exists n. apply in_or_app. right. exact Hn.
    + intros [n Hn]. apply in_app_or in Hn as [Hn|Hn].
      * apply in_app_or in Hn as [Hn|[[= _ ->]|[]]]; [|left; reflexivity].
        destruct prev as [p|]; [|destruct Hn].
        destruct (String.eqb _ _); [destruct Hn|].
        destruct Hn as [[=]|[]].
      * right. apply (IH (Some k) (serial + 1)). exists n. exact Hn.
Qed.

(** C10. In both encodings every job has a data row, and the Role cell of
    the row of a job is a function of its mode alone: "Full Time" for
    "full-time", "Part Time" for "part-time" and "Internship" for every
    other mode, among them the enum values "contract", "remote" and
    "hybrid". *)
Theorem export_role_column (now tz : Z) (jobs : list JobType) :
  let body := exportRows tz (exportOrder jobs) in
  (roleOfMode "full-time" = "Full Time"%string /\
   roleOfMode "part-time" = "Part Time"%string /\
   (forall m, m <> "full-time"%string -> m <> "part-time"%string ->
              roleOfMode m = "Internship"%string) /\
   roleOfMode (JobMode_value Contract) = "Internship"%string /\
   roleOfMode (JobMode_value Remote) = "Internship"%string /\
   roleOfMode (JobMode_value Hybrid) = "Internship"%string) /\
  (forall j, In j jobs <-> exists n, In (DataRow n j) body) /\
  rows (downloadAsExcel now tz jobs) =
    excelHead (exportSummary now tz jobs) ++ List.map (excelOfRow tz) body /\
  (forall n j, excelOfRow tz (DataRow n j) !! 5%nat = Some (CStr (roleOfMode (mode j)))) /\
  (forall titles, excelHead (exportSummary now tz jobs) !! 3%nat = Some titles ->
                  titles !! 5%nat = Some (CStr "Role")) /\
  csvContent (downloadAsCSV now tz jobs) =
    csvHead (exportSummary now tz jobs) +:+ concatStrings (List.map (csvOfRow tz) body) /\
  (forall n j,
      csvOfRow tz (DataRow n j) =
      pretty n +:+ "," +:+ Dayjs.formatDD_MMM_YYYY tz (createdAt j) +:+ "," +:+
      quoted (position j) +:+ "," +:+ quoted (company j) +:+ "," +:+
      quoted (location j) +:+ "," +:+ roleOfMode (mode j) +:+ "," +:+
      Js.capitalize (status j) +:+ nl).
Proof.
  intros body. split.
  { repeat split; try reflexivity. intros m H1 H2. unfold roleOfMode.
    destruct (String.eqb_spec m (JobMode_value FullTime)); [contradiction|].
    destruct (String.eqb_spec m (JobMode_value PartTime)); [contradiction|]. reflexivity. }
  split.
  { intros j. unfold body, exportRows. rewrite <- exportRows_jobs. unfold exportOrder.
    symmetry. apply sort_In. }
  split; [apply downloadAsExcel_rows|]. split; [reflexivity|].
  split; [intros titles [= <-]; reflexivity|].
  split; [apply downloadAsCSV_content|]. reflexivity.
Qed.

(** C8, as the code has it.  In both encodings the summary row shows, with
    the time stamp of the generation, four numbers: the number of exported
    records, and the numbers of exported records whose status is
    "declined", "interview" and "pending". *)
Theorem export_summary_counts (now tz : Z) (jobs : list JobType) :
  let summary :=
    summaryText (Z.of_nat (length jobs)) (statusCount "declined" jobs)
                (statusCount "interview" jobs) (statusCount "pending" jobs)
                (Dayjs.formatDD_MMM_YYYY_HH_mm tz now) in
  summaryCell (downloadAsExcel now tz jobs) = summary /\
  (exists body, rows (downloadAsExcel now tz jobs) =
                [CStr "Job Application History"] :: [CStr summary] :: [] :: body) /\
  (exists rest, csvContent (downloadAsCSV now tz jobs) =
                "Job Application History" +:+ nl +:+ dq +:+ summary +:+ dq +:+ nl +:+ rest).
Proof.
  intros summary. split; [|split].
  - unfold summaryCell. rewrite downloadAsExcel_rows. reflexivity.
  - rewrite downloadAsExcel_rows. eexists. reflexivity.
  - rewrite downloadAsCSV_content. unfold csvHead. fold summary.
    eexists. rewrite !append_assoc. reflexivity.
Qed.

(** C8, as stated, fails: among five offers and one application the number
    of offers, 5, occurs nowhere in the summary row. *)
Lemma export_summary_omits_offers :
  statusCount (JobStatus_value Offer) sampleOffers = 5 /\
  summaryCell (downloadAsExcel 0 0 sampleOffers) =
    "Total Applied: 6, Declined: 0, Interview: 0, Pending: 0      Report Generated: 01-Jan-1970 00:00"%string /\
  ~ (forall s : JobStatus,
        Js.includes (summaryCell (downloadAsExcel 0 0 sampleOffers))
                    (pretty (statusCount (JobStatus_value s) sampleOffers)) = true).
Proof.
  split; [reflexivity|]. split; [vm_compute; reflexivity|].
  intros Hall. specialize (Hall Offer). vm_compute in Hall. discriminate Hall.
Qed.
End ExportFiles.

(** ** Storage faults, and the definitions run on sample data *)

Section Faults.
Context `{Validators}.

(** A handler that logs and returns makes the whole block return. *)
Lemma tryCatch_returns {A} (body : Action A) (msg : string) (fallback : A) w :
  exists a, fst (tryCatch body (fun e => _ ← consoleError msg e; mret fallback) w) = Return a.
Proof.
  unfold tryCatch. destruct (body w) as [[a|e] w1]; [exists a; reflexivity|].
  exists fallback. reflexivity.
Qed.

(** A handler that logs and redirects lets nothing else through. *)
Lemma tryCatch_redirects {A} (body : Action A) (msg url : string) w :
  (exists a, fst (tryCatch body (fun e => _ ← consoleError msg e; redirect url) w) = Return a) \/
  fst (tryCatch body (fun e => _ ← consoleError msg e; redirect url) w) = Throw (NextRedirect url).
Proof.
  unfold tryCatch. destruct (body w) as [[a|e] w1]; [left; exists a; reflexivity|].
  right. reflexivity.
Qed.

(** After [authenticateAndRedirect], a block that throws no storage error
    makes an action that throws none. *)
Lemma authenticated_block {A} (block : string -> Action A) w :
  (forall u w1, ~ storageErrorEscapes (fst (block u w1))) ->
  ~ storageErrorEscapes (fst ((u ← authenticateAndRedirect; block u) w)).
Proof.
  intros Hb. unfold mbind, Action_bind.
  destruct (authenticateAndRedirect w) as [[u|e] w1] eqn:E.
  - apply Hb.
  - unfold authenticateAndRedirect in E. intros [k Hk]. simpl in Hk.
    destruct (session w) as [s|]; [destruct (Js.truthy s)|]; inversion E; subst; discriminate.
Qed.

Lemma returns_no_escape {A} (c : Completion A) :
  (exists a, c = Return a) -> ~ storageErrorEscapes c.
Proof. intros [a ->] [k Hk]. discriminate. Qed.

Lemma redirects_no_escape {A} (c : Completion A) url :
  (exists a, c = Return a) \/ c = Throw (NextRedirect url) -> ~ storageErrorEscapes c.
Proof. intros [[a ->]| ->] [k Hk]; discriminate. Qed.

(** No action lets a storage error reach its caller. *)
Lemma no_storage_error_escapes w :
  (forall values, ~ storageErrorEscapes (fst (createJobAction values w))) /\
  (forall id values, ~ storageErrorEscapes (fst (updateJobAction id values w))) /\
  (forall id, ~ storageErrorEscapes (fst (deleteJobAction id w))) /\
  (forall id, ~ storageErrorEscapes (fst (getSingleJobAction id w))) /\
  (forall args, ~ storageErrorEscapes (fst (getAllJobsAction args w))) /\
  ~ storageErrorEscapes (fst (getAllJobsForDownloadAction w)) /\
  ~ storageErrorEscapes (fst (getStatsAction w)) /\
  ~ storageErrorEscapes (fst (getChartsDataAction w)).
Proof.
  repeat split; intros; apply authenticated_block; intros u w1.
  1-3,5-6: apply returns_no_escape, tryCatch_returns.
  1-2: eapply redirects_no_escape, tryCatch_redirects.
  unfold mbind, Action_bind, getWorld.
  eapply redirects_no_escape, tryCatch_redirects.
Qed.
(** C7, as the code has it.  When the caller is signed in and the next
    query meets a storage fault, create, update and delete return null; the
    paginated list returns no jobs, count 0, page 1 and 0 pages, also when
    its second query is the one that fails; the export list returns no
    row; the two aggregate actions return nothing: they write the error to
    the console and redirect to the list of jobs.  In no world does any
    action let a storage error reach its caller. *)
Theorem storage_faults_are_downgraded (w : World) (userId : string) :
  currentUser w = Some userId ->
  noFault 1 w = false ->
  (forall values, fst (createJobAction values w) = Return None) /\
  (forall id values, fst (updateJobAction id values w) = Return None) /\
  (forall id, fst (deleteJobAction id w) = Return None) /\
  (forall args, fst (getAllJobsAction args w) = Return emptyPage) /\
  (forall args w2, currentUser w2 = Some userId -> noFault 2 w2 = false ->
                   fst (getAllJobsAction args w2) = Return emptyPage) /\
  fst (getAllJobsForDownloadAction w) = Return [] /\
  getStatsAction w =
    (Throw (NextRedirect "/jobs"),
     setConsole (console w ++ [("Error fetching stats:"%string, PrismaError StorageFault)])
                (afterQuery w)) /\
  getChartsDataAction w =
    (Throw (NextRedirect "/jobs"),
     setConsole (console w ++ [("Error fetching chart data:"%string, PrismaError StorageFault)])
                (afterQuery w)) /\
  (forall w0,
      (forall values, ~ storageErrorEscapes (fst (createJobAction values w0))) /\
      (forall id values, ~ storageErrorEscapes (fst (updateJobAction id values w0))) /\
      (forall id, ~ storageErrorEscapes (fst (deleteJobAction id w0))) /\
      (forall id, ~ storageErrorEscapes (fst (getSingleJobAction id w0))) /\
      (forall args, ~ storageErrorEscapes (fst (getAllJobsAction args w0))) /\
      ~ storageErrorEscapes (fst (getAllJobsForDownloadAction w0)) /\
      ~ storageErrorEscapes (fst (getStatsAction w0)) /\
      ~ storageErrorEscapes (fst (getChartsDataAction w0))).
Proof.
  intros Hu Hq.
  assert (forall args w2, currentUser w2 = Some userId -> noFault 2 w2 = false ->
                          fst (getAllJobsAction args w2) = Return emptyPage) as Hlist.
  { intros args w2 Hu2 Hq2. unfold getAllJobsAction, mbind, Action_bind.
    rewrite (authenticate_ok _ _ Hu2). unfold tryCatch, Prisma.findMany, Prisma.count.
    destruct (noFault 1 w2) eqn:Hq1.
    - rewrite (query_ok _ _ Hq1). destruct (Prisma.skipOf _ <? 0); [reflexivity|].
      destruct (noFault 1 (afterQuery w2)) eqn:Hq3.
      + exfalso. revert Hq1 Hq2 Hq3. unfold noFault, afterQuery.
        destruct w2 as [s n z t f i c r]; simpl.
        destruct f as [|[] [|[] f]]; simpl; congruence.
      + rewrite (query_fault _ _ Hq3). reflexivity.
    - rewrite (query_fault _ _ Hq1). reflexivity. }
  split.
  { intros values. unfold createJobAction, mbind, Action_bind.
    rewrite (authenticate_ok _ _ Hu). unfold tryCatch, parse.
    destruct (createAndEditJobSchema values); [reflexivity|].
    cbn [mret Action_ret]. unfold Prisma.create. rewrite (query_fault _ _ Hq). reflexivity. }
  split.
  { intros id values. unfold updateJobAction, mbind, Action_bind.
    rewrite (authenticate_ok _ _ Hu). unfold tryCatch, parse.
    destruct (createAndEditJobSchema values); [reflexivity|].
    cbn [mret Action_ret]. unfold Prisma.update. rewrite (query_fault _ _ Hq). reflexivity. }
  split.
  { intros id. unfold deleteJobAction, mbind, Action_bind.
    rewrite (authenticate_ok _ _ Hu). unfold tryCatch, Prisma.delete.
    rewrite (query_fault _ _ Hq). reflexivity. }
  split.
  { intros args. apply Hlist; [exact Hu|].
    revert Hq. unfold noFault. destruct (faults w) as [|[] f]; simpl; congruence. }
  split; [exact Hlist|]. split.
  { unfold getAllJobsForDownloadAction, mbind, Action_bind.
    rewrite (authenticate_ok _ _ Hu). unfold tryCatch, Prisma.findMany.
    rewrite (query_fault _ _ Hq). reflexivity. }
  split.
  { unfold getStatsAction, mbind, Action_bind.
    rewrite (authenticate_ok _ _ Hu). unfold tryCatch, Prisma.groupByStatus.
    rewrite (query_fault _ _ Hq). reflexivity. }
  split.
  { unfold getChartsDataAction, mbind, Action_bind.
    rewrite (authenticate_ok _ _ Hu). unfold getWorld, tryCatch, Prisma.findMany.
    rewrite (query_fault _ _ Hq). reflexivity. }
  intros w0. apply no_storage_error_escapes.
Qed.
End Faults.

Section Scenarios.

(** C7, as stated, fails: with the storage failing, the statistics action
    returns no zeroed mapping and the chart action no empty list; both
    leave by a redirect. *)
Lemma aggregates_redirect_on_fault :
  currentUser faultyWorld = Some "user_1"%string /\
  noFault 1 faultyWorld = false /\
  fst (getStatsAction faultyWorld) = Throw (NextRedirect "/jobs") /\
  fst (getStatsAction faultyWorld) <> Return zeroStats /\
  fst (getChartsDataAction faultyWorld) = Throw (NextRedirect "/jobs") /\
  fst (getChartsDataAction faultyWorld) <> Return [].
Proof.
  assert (fst (getStatsAction faultyWorld) = Throw (NextRedirect "/jobs")) as Es
    by (vm_compute; reflexivity).
  assert (fst (getChartsDataAction faultyWorld) = Throw (NextRedirect "/jobs")) as Ec
    by (vm_compute; reflexivity).
  split; [reflexivity|]. split; [reflexivity|].
  split; [exact Es|]. split; [rewrite Es; discriminate|].
  split; [exact Ec|]. rewrite Ec; discriminate.
Qed.

Lemma storage_faults_are_downgraded_witness :
  (forall values,
      fst (@createJobAction Sample.validators values faultyWorld) = Return None) /\
  fst (getAllJobsForDownloadAction faultyWorld) = Return [] /\
  fst (getStatsAction faultyWorld) = Throw (NextRedirect "/jobs").
Proof.
  pose proof (@storage_faults_are_downgraded Sample.validators faultyWorld "user_1"
                eq_refl eq_refl) as (Hc & _ & _ & _ & _ & Hd & Hs & _).
  split; [exact Hc|]. split; [exact Hd|]. rewrite Hs. reflexivity.
Defined.
Lemma empty_optional_field_is_null_witness :
  sanitizedField FNotes (sanitizeJobInput sampleValidated) = None /\
  exists job w',
    @createJobAction Sample.validators sampleInput healthyWorld = (Return (Some job), w') /\
    jobField FNotes job = None /\ In job (jobTable w').
Proof.
  destruct (@empty_optional_field_is_null Sample.validators FNotes sampleInput
              sampleValidated healthyWorld "user_1" eq_refl eq_refl eq_refl eq_refl)
    as (Hnull & _ & Hcreate & _).
  split; [exact Hnull|exact Hcreate].
Defined.

Lemma list_returns_the_requested_page_witness :
  exists r w',
    getAllJobsAction (mkArgs None None (Some 1) (Some 10)) listWorld = (Return r, w') /\
    count r = 25 /\ pageNumber r = 1 /\
    length (jobs r) = 10%nat /\ totalPages r = Js.Num 3.
Proof.
  destruct (list_returns_the_requested_page listWorld "user_1"
              (mkArgs None None (Some 1) (Some 10)) eq_refl eq_refl
              ltac:(simpl; lia) ltac:(simpl; lia))
    as (r & w' & Hrun & _ & Hcount & _ & Hpage & _ & _ & _ & _ & H25).
  exists r, w'. split; [exact Hrun|]. split; [exact Hcount|]. split; [exact Hpage|].
  apply H25; reflexivity.
Defined.

Lemma cross_owner_isolation_witness :
  getSingleJobAction (id rowOfB) sharedWorld = getSingleJobAction "none" sharedWorld /\
  fst (getSingleJobAction (id rowOfB) sharedWorld) = Throw (NextRedirect "/jobs").
Proof.
  destruct (cross_owner_isolation sharedWorld "user_1" "user_2" eq_refl
              ltac:(discriminate)) as (_ & Hone & _).
  apply (Hone rowOfB "none"%string).
  - unfold uniqueIds. simpl. repeat constructor; rewrite ?list_elem_of_In; simpl; intuition discriminate.
  - simpl. right. left. reflexivity.
  - reflexivity.
  - intros j [<-|[<-|[]]]; discriminate.
Defined.

Lemma stats_cover_all_statuses_witness :
  exists m w',
    getStatsAction statsWorld = (Return m, w') /\
    m = <["applied" := 2]> (<["screening" := 0]> (<["interview" := 0]>
          (<["offer" := 1]> (<["rejected" := 0]> ∅)))).
Proof.
  destruct (stats_cover_all_statuses statsWorld "user_1" eq_refl eq_refl)
    as (m & w' & Hrun & _ & _ & Hex).
  exists m, w'. split; [exact Hrun|]. apply Hex. reflexivity.
Defined.

Lemma monthly_trend_window_and_buckets_witness :
  exists points w',
    getChartsDataAction trendWorld = (Return points, w') /\
    Dayjs.subtractMonths 0 6 1742040000000 = 1726401600000 /\
    Dayjs.subtractMonths 0 7 1742040000000 = 1723723200000 /\
    List.map fst points = ["Sep 24"; "Jan 25"]%string /\
    In ("Jan 25"%string, 2) points.
Proof.
  destruct (monthly_trend_window_and_buckets trendWorld "user_1" eq_refl eq_refl)
    as (points & w' & Hrun & _ & _ & _ & _ & _ & Hcount & Hkeys & _).
  exists points, w'. split; [exact Hrun|]. split; [reflexivity|]. split; [reflexivity|].
  split; [rewrite Hkeys; reflexivity|].
  apply Hcount. split; [reflexivity|lia].
Defined.

(** C9.  The schema measures the length of a required text property before
    it trims it: the input whose position is three spaces is accepted, and
    the position of its sanitized record is the empty string, which is
    shorter than 2. *)
Theorem padded_position_is_accepted_empty :
  @createAndEditJobSchema Sample.validators paddedInput =
    inr (mkValidated "" "Acme" "Lyon" Applied Remote None None None None None None) /\
  sanitizedRequired FPosition
    (sanitizeJobInput (mkValidated "" "Acme" "Lyon" Applied Remote
                                   None None None None None None)) = EmptyString /\
  (String.length EmptyString < 2)%nat.
Proof.
  split; [reflexivity|]. split; [reflexivity|]. simpl. lia.
Qed.
Lemma signed_out_caller_is_redirected_witness :
  fst (getStatsAction signedOutWorld) = Throw (NextRedirect "/") /\
  snd (@createJobAction Sample.validators sampleInput signedOutWorld) = signedOutWorld.
Proof.
  destruct (@signed_out_caller_is_redirected Sample.validators signedOutWorld sampleInput
              (mkArgs None None None None) "a1" eq_refl)
    as (Hc & _ & _ & _ & _ & Hs & _).
  rewrite Hc, Hs. split; reflexivity.
Defined.

Lemma writes_touch_only_own_rows_witness :
  ownedBy "user_2" (jobTable (snd (deleteJobAction (id rowOfB) sharedWorld))) = [rowOfB].
Proof.
  destruct (@writes_touch_only_own_rows Sample.validators sharedWorld "user_1" "user_2"
              (id rowOfB) sampleInput eq_refl) as (_ & _ & Hd).
  - discriminate.
  - rewrite Hd. reflexivity.
Defined.

Lemma created_job_is_read_back_witness :
  exists job w',
    @createJobAction Sample.validators sampleInput healthyWorld = (Return (Some job), w') /\
    fst (getSingleJobAction (id job) w') = Return (Some job).
Proof.
  destruct (@created_job_is_read_back Sample.validators healthyWorld "user_1" sampleInput
              sampleValidated eq_refl eq_refl eq_refl)
    as (job & w' & Hc & _ & _ & Hg).
  - intros j Hj He. vm_compute in Hj.
    repeat (destruct Hj as [<-|Hj]; [vm_compute in He; discriminate He|]). destruct Hj.
  - exists job, w'. split; [exact Hc|]. rewrite Hg. reflexivity.
Defined.

End Scenarios.

(** ** Reads, writes and what they keep *)

Section Frames.
Variable R : World -> World -> Prop.
Hypothesis R_refl : forall w, R w w.
Hypothesis R_trans : forall a b c, R a b -> R b c -> R a c.
Hypothesis R_faults : forall w f, R w (setFaults f w).
Hypothesis R_console : forall w c, R w (setConsole c w).

Lemma keeps_ret {A} (a : A) : keeps R (mret a).
Proof. intros w. apply R_refl. Qed.

Lemma keeps_throw {A} e : keeps R (@throw A e).
Proof. intros w. apply R_refl. Qed.

Lemma keeps_bind {A B} (c : Action A) (k : A -> Action B) :
  keeps R c -> (forall a, keeps R (k a)) -> keeps R (c ≫= k).
Proof.
  intros Hc Hk w. unfold mbind, Action_bind. specialize (Hc w).
  destruct (c w) as [[a|e] w1]; simpl in Hc; [|exact Hc].
  apply (R_trans _ w1); [exact Hc|apply Hk].
Qed.

Lemma keeps_tryCatch {A} (body : Action A) handler :
  keeps R body -> (forall e, keeps R (handler e)) -> keeps R (tryCatch body handler).
Proof.
  intros Hb Hh w. unfold tryCatch. specialize (Hb w).
  destruct (body w) as [[a|e] w1]; simpl in Hb; [exact Hb|].
  apply (R_trans _ w1); [exact Hb|apply Hh].
Qed.

Lemma keeps_query {A} (run : Action A) : keeps R run -> keeps R (Prisma.query run).
Proof.
  intros Hr w. unfold Prisma.query. destruct (faults w) as [|[] fs].
  - apply Hr.
  - apply R_faults.
  - apply (R_trans _ (setFaults fs w)); [apply R_faults|apply Hr].
Qed.

Lemma keeps_consoleError msg e : keeps R (consoleError msg e).
Proof. intros w. apply R_console. Qed.

Lemma keeps_authenticate : keeps R authenticateAndRedirect.
Proof.
  intros w. unfold authenticateAndRedirect.
  destruct (session w) as [s|]; [destruct (Js.truthy s)|]; apply R_refl.
Qed.

Lemma keeps_findMany wh o skip take : keeps R (Prisma.findMany wh o skip take).
Proof.
  apply keeps_query. intros w. destruct (Prisma.skipOf skip <? 0); apply R_refl.
Qed.

Lemma keeps_count wh : keeps R (Prisma.count wh).
Proof. apply keeps_query. intros w. apply R_refl. Qed.

Lemma keeps_findUnique wh : keeps R (Prisma.findUnique wh).
Proof. apply keeps_query. intros w. apply R_refl. Qed.

Lemma keeps_groupByStatus wh : keeps R (Prisma.groupByStatus wh).
Proof. apply keeps_query. intros w. apply R_refl. Qed.

(** The five reading actions keep every relation that the storage layer
    and the console keep. *)
Lemma reads_keep args ident :
  keeps R (getAllJobsAction args) /\ keeps R (getSingleJobAction ident) /\
  keeps R getStatsAction /\ keeps R getChartsDataAction /\
  keeps R getAllJobsForDownloadAction.
Proof.
  repeat split.
  - apply keeps_bind; [apply keeps_authenticate|]. intros u.
    apply keeps_tryCatch.
    + apply keeps_bind; [apply keeps_findMany|]. intros js.
      apply keeps_bind; [apply keeps_count|]. intros n. apply keeps_ret.
    + intros e. apply keeps_bind; [apply keeps_consoleError|]. intros _. apply keeps_ret.
  - apply keeps_bind; [apply keeps_authenticate|]. intros u.
    apply keeps_tryCatch.
    + apply keeps_bind; [apply keeps_findUnique|]. intros [j|];
        [apply keeps_ret|apply keeps_throw].
    + intros e. apply keeps_bind; [apply keeps_consoleError|]. intros _. apply keeps_throw.
  - apply keeps_bind; [apply keeps_authenticate|]. intros u.
    apply keeps_tryCatch.
    + apply keeps_bind; [apply keeps_groupByStatus|]. intros g. apply keeps_ret.
    + intros e. apply keeps_bind; [apply keeps_consoleError|]. intros _. apply keeps_throw.
  - apply keeps_bind; [apply keeps_authenticate|]. intros u.
    apply keeps_bind; [intros w; apply R_refl|]. intros w0.
    apply keeps_tryCatch.
    + apply keeps_bind; [apply keeps_findMany|]. intros js. apply keeps_ret.
    + intros e. apply keeps_bind; [apply keeps_consoleError|]. intros _. apply keeps_throw.
  - apply keeps_bind; [apply keeps_authenticate|]. intros u.
    apply keeps_tryCatch; [apply keeps_findMany|].
    intros e. apply keeps_bind; [apply keeps_consoleError|]. intros _. apply keeps_ret.
Qed.
End Frames.

Section ReadsAndWrites.
Context `{Validators}.

(** X6.  The five reading actions change no row: in every world, whatever
    their arguments and whether the storage answers or fails, the table, the
    id generator, the revalidated paths, the session, the clock and the zone
    are afterwards what they were; a read can only consume a pending fault
    and write to the console. *)
Theorem reads_change_no_row (w : World) (args : GetAllJobsActionTypes) (ident : string) :
  sameRows w (snd (getAllJobsAction args w)) /\
  sameRows w (snd (getSingleJobAction ident w)) /\
  sameRows w (snd (getStatsAction w)) /\
  sameRows w (snd (getChartsDataAction w)) /\
  sameRows w (snd (getAllJobsForDownloadAction w)).
Proof.
  assert (forall a, sameRows a a) as Hrefl by (intros a; repeat split).
  assert (forall a b c, sameRows a b -> sameRows b c -> sameRows a c) as Htrans.
  { intros a b c (H1 & H2 & H3 & H4 & H5 & H6) (G1 & G2 & G3 & G4 & G5 & G6).
    repeat split; congruence. }
  assert (forall a f, sameRows a (setFaults f a)) as Hf by (intros a f; repeat split).
  assert (forall a c, sameRows a (setConsole c a)) as Hc by (intros a c; repeat split).
  destruct (reads_keep sameRows Hrefl Htrans Hf Hc args ident) as (H1 & H2 & H3 & H4 & H5).
  repeat split; first [apply H1|apply H2|apply H3|apply H4|apply H5].
Qed.

Lemma matches_whereIdClerk ident u r :
  Prisma.matches (whereIdClerk ident u) r = String.eqb (id r) ident && String.eqb (clerkId r) u.
Proof. unfold Prisma.matches. simpl. rewrite !andb_true_r. reflexivity. Qed.

(** X7.  The three writing actions, for a signed-in caller, end in one of
    two ways and never throw: they return the job, having revalidated the
    home page and the list (and, for an update, the page of the job) and
    written nothing to the console; or they return null, having changed no
    row and revalidated nothing, with one line on the console. *)
Theorem writes_succeed_or_change_nothing (w : World) (userId ident : string)
    (values : JobInput) :
  currentUser w = Some userId ->
  ((exists job,
       fst (createJobAction values w) = Return (Some job) /\
       jobTable (snd (createJobAction values w)) = jobTable w ++ [job] /\
       revalidated (snd (createJobAction values w)) = revalidated w ++ ["/"; "/jobs"]%string /\
       console (snd (createJobAction values w)) = console w) \/
   (fst (createJobAction values w) = Return None /\
    failedWrite "Error creating job:" w (snd (createJobAction values w)))) /\
  ((exists job,
       fst (updateJobAction ident values w) = Return (Some job) /\
       In job (jobTable (snd (updateJobAction ident values w))) /\
       revalidated (snd (updateJobAction ident values w)) =
         revalidated w ++ ["/"; "/jobs"; "/jobs/" +:+ ident]%string /\
       console (snd (updateJobAction ident values w)) = console w) \/
   (fst (updateJobAction ident values w) = Return None /\
    failedWrite "Error updating job:" w (snd (updateJobAction ident values w)))) /\
  ((exists job,
       fst (deleteJobAction ident w) = Return (Some job) /\
       In job (jobTable w) /\
       revalidated (snd (deleteJobAction ident w)) = revalidated w ++ ["/"; "/jobs"]%string /\
       console (snd (deleteJobAction ident w)) = console w) \/
   (fst (deleteJobAction ident w) = Return None /\
    failedWrite "Error deleting job:" w (snd (deleteJobAction ident w)))).
Proof.
  intros Hu. unfold createJobAction, updateJobAction, deleteJobAction, mbind, Action_bind.
  rewrite (authenticate_ok _ _ Hu). unfold tryCatch, parse, failedWrite.
  split; [|split].
  - destruct (createAndEditJobSchema values) as [iss|v].
    { right. simpl. repeat split. eexists. reflexivity. }
    cbn [mret Action_ret]. unfold Prisma.create.
    destruct (noFault 1 w) eqn:Hq.
    + rewrite (query_ok _ _ Hq). left. eexists. simpl.
      split; [reflexivity|]. split; [reflexivity|]. split; [|reflexivity].
      rewrite <- app_assoc. reflexivity.
    + rewrite (query_fault _ _ Hq). right. simpl. repeat split. eexists. reflexivity.
  - destruct (createAndEditJobSchema values) as [iss|v].
    { right. simpl. repeat split. eexists. reflexivity. }
    cbn [mret Action_ret]. unfold Prisma.update.
    destruct (noFault 1 w) eqn:Hq.
    + rewrite (query_ok _ _ Hq). change (jobTable (afterQuery w)) with (jobTable w).
      destruct (List.find _ (jobTable w)) as [old|] eqn:Hf.
      * left. eexists. simpl. split; [reflexivity|]. split; [apply replaceFirst_In, Hf|].
        split; [|reflexivity]. rewrite <- !app_assoc. reflexivity.
      * right. simpl. repeat split. eexists. reflexivity.
    + rewrite (query_fault _ _ Hq). right. simpl. repeat split. eexists. reflexivity.
  - unfold Prisma.delete.
    destruct (noFault 1 w) eqn:Hq.
    + rewrite (query_ok _ _ Hq). change (jobTable (afterQuery w)) with (jobTable w).
      destruct (List.find _ (jobTable w)) as [old|] eqn:Hf.
      * left. eexists. simpl. split; [reflexivity|].
        split; [apply (find_some _ _ Hf)|].
        split; [|reflexivity]. rewrite <- !app_assoc. reflexivity.
      * right. simpl. repeat split. eexists. reflexivity.
    + rewrite (query_fault _ _ Hq). right. simpl. repeat split. eexists. reflexivity.
Qed.

Lemma find_owned_row rows j :
  uniqueIds rows -> In j rows ->
  List.find (Prisma.matches (whereIdClerk (id j) (clerkId j))) rows = Some j.
Proof.
  unfold uniqueIds. induction rows as [|r rows IH]; simpl; [contradiction|].
  intros Hnd Hin. apply NoDup_cons in Hnd as [Hnot Hnd].
  rewrite matches_whereIdClerk.
  destruct Hin as [->|Hin].
  - rewrite !String.eqb_refl. reflexivity.
  - destruct (String.eqb_spec (id r) (id j)) as [He|_]; simpl; [|apply IH; assumption].
    exfalso. apply Hnot. rewrite He. apply list_elem_of_In, in_map, Hin.
Qed.

Lemma filter_other_ids rows ident :
  ~ In ident (List.map id rows) ->
  List.filter (fun r => negb (String.eqb (id r) ident)) rows = rows.
Proof.
  induction rows as [|r rows IH]; simpl; [reflexivity|]. intros Hnot.
  destruct (String.eqb_spec (id r) ident) as [He|_]; simpl; [tauto|].
  rewrite IH; [reflexivity|tauto].
Qed.

Lemma removeFirst_filter rows j :
  uniqueIds rows -> In j rows ->
  Prisma.removeFirst (whereIdClerk (id j) (clerkId j)) rows =
  List.filter (fun r => negb (String.eqb (id r) (id j))) rows.
Proof.
  unfold uniqueIds. induction rows as [|r rows IH]; simpl; [contradiction|].
  intros Hnd Hin. apply NoDup_cons in Hnd as [Hnot Hnd].
  rewrite list_elem_of_In in Hnot. rewrite matches_whereIdClerk.
  destruct Hin as [->|Hin].
  - rewrite !String.eqb_refl. simpl. symmetry. apply filter_other_ids, Hnot.
  - destruct (String.eqb_spec (id r) (id j)) as [He|_]; simpl.
    + exfalso. apply Hnot. rewrite He. apply in_map, Hin.
    + rewrite IH; [reflexivity|assumption..].
Qed.

Lemma replaceFirst_map rows j f :
  uniqueIds rows -> In j rows ->
  Prisma.replaceFirst (whereIdClerk (id j) (clerkId j)) f rows =
  List.map (fun r => if String.eqb (id r) (id j) then f r else r) rows.
Proof.
  unfold uniqueIds. induction rows as [|r rows IH]; simpl; [contradiction|].
  intros Hnd Hin. apply NoDup_cons in Hnd as [Hnot Hnd].
  rewrite list_elem_of_In in Hnot. rewrite matches_whereIdClerk.
  destruct Hin as [->|Hin].
  - rewrite !String.eqb_refl. simpl. f_equal. symmetry.
    rewrite <- (map_id rows) at 2. apply map_ext_in. intros a Ha.
    destruct (String.eqb_spec (id a) (id j)) as [He|_]; [|reflexivity].
    exfalso. apply Hnot. rewrite <- He. apply in_map, Ha.
  - destruct (String.eqb_spec (id r) (id j)) as [He|_]; simpl.
    + exfalso. apply Hnot. rewrite He. apply in_map, Hin.
    + rewrite IH; [reflexivity|assumption..].
Qed.

Lemma unknown_id_outcomes w userId ident :
  currentUser w = Some userId ->
  List.find (Prisma.matches (whereIdClerk ident userId)) (jobTable w) = None ->
  fst (getSingleJobAction ident w) = Throw (NextRedirect "/jobs") /\
  fst (deleteJobAction ident w) = Return None /\
  (forall values, fst (updateJobAction ident values w) = Return None).
Proof.
  intros Hu Hf. split; [|split].
  - rewrite (getSingleJobAction_run ident w userId Hu), Hf.
    destruct (noFault 1 w); reflexivity.
  - unfold deleteJobAction, mbind, Action_bind. rewrite (authenticate_ok _ _ Hu).
    unfold tryCatch, Prisma.delete.
    destruct (noFault 1 w) eqn:Hq.
    + rewrite (query_ok _ _ Hq). change (jobTable (afterQuery w)) with (jobTable w).
      rewrite Hf. reflexivity.
    + rewrite (query_fault _ _ Hq). reflexivity.
  - intros values. unfold updateJobAction, mbind, Action_bind.
    rewrite (authenticate_ok _ _ Hu). unfold tryCatch, parse.
    destruct (createAndEditJobSchema values) as [iss|v]; [reflexivity|].
    cbn [mret Action_ret]. unfold Prisma.update.
    destruct (noFault 1 w) eqn:Hq.
    + rewrite (query_ok _ _ Hq). change (jobTable (afterQuery w)) with (jobTable w).
      rewrite Hf. reflexivity.
    + rewrite (query_fault _ _ Hq). reflexivity.
Qed.

(** X8.  Deleting one's own job, with the ids of the table distinct and the
    storage answering: the action returns that job, the table afterwards is
    the table without the row of that id, with every other row in place;
    the same caller then finds no job under the id, and a second delete
    returns null. *)
Theorem delete_removes_exactly_the_job (w : World) (userId : string) (j : JobType) :
  currentUser w = Some userId ->
  noFault 1 w = true ->
  uniqueIds (jobTable w) ->
  In j (jobTable w) ->
  clerkId j = userId ->
  exists w',
    deleteJobAction (id j) w = (Return (Some j), w') /\
    jobTable w' = List.filter (fun r => negb (String.eqb (id r) (id j))) (jobTable w) /\
    ~ In j (jobTable w') /\
    S (length (jobTable w')) = length (jobTable w) /\
    (forall r, In r (jobTable w) -> r <> j -> In r (jobTable w')) /\
    fst (getSingleJobAction (id j) w') = Throw (NextRedirect "/jobs") /\
    fst (deleteJobAction (id j) w') = Return None.
Proof.
  intros Hu Hq Hnd Hin Hc. subst userId.
  assert (forall r, In r (List.filter (fun r => negb (String.eqb (id r) (id j))) (jobTable w)) ->
                    Prisma.matches (whereIdClerk (id j) (clerkId j)) r = false) as Hgone.
  { intros r [_ Hr]%filter_In. rewrite matches_whereIdClerk.
    destruct (String.eqb (id r) (id j)); [discriminate|reflexivity]. }
  eexists. split.
  - unfold deleteJobAction, mbind, Action_bind. rewrite (authenticate_ok _ _ Hu).
    unfold tryCatch, Prisma.delete. rewrite (query_ok _ _ Hq).
    change (jobTable (afterQuery w)) with (jobTable w).
    rewrite (find_owned_row _ _ Hnd Hin). reflexivity.
  - cbn [jobTable setRevalidated setJobTable afterQuery setFaults snd].
    rewrite (removeFirst_filter _ _ Hnd Hin).
    split; [reflexivity|]. split.
    { intros [_ Hj]%filter_In. rewrite String.eqb_refl in Hj. discriminate. }
    split.
    { clear Hgone Hu Hq. unfold uniqueIds in Hnd.
      induction (jobTable w) as [|r rows IH]; simpl; [contradiction|].
      apply NoDup_cons in Hnd as [Hnot Hnd]. rewrite list_elem_of_In in Hnot.
      destruct Hin as [->|Hin].
      - rewrite String.eqb_refl. simpl. f_equal. f_equal. apply filter_other_ids, Hnot.
      - destruct (String.eqb_spec (id r) (id j)) as [He|_]; simpl.
        + exfalso. apply Hnot. rewrite He. apply in_map, Hin.
        + f_equal. apply IH; assumption. }
    split.
    { intros r Hr Hne. apply filter_In. split; [exact Hr|].
      destruct (String.eqb_spec (id r) (id j)) as [He|_]; [|reflexivity].
      destruct Hne. apply (uniqueIds_owner _ _ _ Hnd Hr Hin He). }
    match goal with |- fst (getSingleJobAction ?i ?w1) = _ /\ _ =>
      destruct (unknown_id_outcomes w1 (clerkId j) i Hu) as (Hg & Hd & _)
    end.
    { cbn [jobTable setRevalidated setJobTable afterQuery setFaults].
      apply (find_none_other _ _ Hgone). }
    split; [exact Hg|exact Hd].
Qed.

(** X9.  Updating one's own job from an accepted input, with the ids of the
    table distinct and the storage answering: the action returns the row
    with the validated texts, status and mode and the sanitized optional
    texts, stamped with the time of the update; the id, the owner, the
    applied date, the creation time and the two follow-up dates are those
    of the old row; in the table that row stands in the place of the old
    one and every other row is as it was. *)
Theorem update_rewrites_only_the_form_fields (w : World) (userId : string)
    (old : JobType) (values : JobInput) (validated : CreateAndEditJobType) :
  currentUser w = Some userId ->
  noFault 1 w = true ->
  uniqueIds (jobTable w) ->
  In old (jobTable w) ->
  clerkId old = userId ->
  createAndEditJobSchema values = inr validated ->
  let new := updatedRow validated (now w) old in
  exists w',
    updateJobAction (id old) values w = (Return (Some new), w') /\
    jobTable w' =
      List.map (fun r => if String.eqb (id r) (id old) then new else r) (jobTable w) /\
    (id new = id old /\ clerkId new = clerkId old /\ appliedDate new = appliedDate old /\
     createdAt new = createdAt old /\ lastContact new = lastContact old /\
     nextFollowUp new = nextFollowUp old /\ updatedAt new = now w) /\
    (forall f, jobRequired f new = validatedRequired f validated) /\
    status new = JobStatus_value (v_status validated) /\
    mode new = JobMode_value (v_mode validated) /\
    (forall f, jobField f new = Js.orNull (validatedField f validated)) /\
    uniqueIds (jobTable w') /\
    (forall r, In r (jobTable w) -> r <> old -> In r (jobTable w')).
Proof.
  intros Hu Hq Hnd Hin Hc Hs new. subst userId.
  assert (Prisma.replaceFirst (whereIdClerk (id old) (clerkId old))
            (Prisma.applyUpdate (sanitizeJobInput validated) (now w)) (jobTable w) =
          List.map (fun r => if String.eqb (id r) (id old) then new else r) (jobTable w)) as Hrep.
  { rewrite (replaceFirst_map _ _ _ Hnd Hin). apply map_ext_in. intros r Hr.
    destruct (String.eqb_spec (id r) (id old)) as [He|_]; [|reflexivity].
    rewrite (uniqueIds_owner _ _ _ Hnd Hr Hin He). reflexivity. }
  eexists. split.
  - unfold updateJobAction, mbind, Action_bind. rewrite (authenticate_ok _ _ Hu).
    unfold tryCatch, parse. rewrite Hs. cbn [mret Action_ret].
    unfold Prisma.update. rewrite (query_ok _ _ Hq).
    change (jobTable (afterQuery w)) with (jobTable w).
    rewrite (find_owned_row _ _ Hnd Hin). reflexivity.
  - cbn [jobTable setRevalidated setJobTable afterQuery setFaults snd].
    change (now (afterQuery w)) with (now w). rewrite Hrep.
    split; [reflexivity|]. split; [repeat split|].
    split; [intros f; destruct f; reflexivity|].
    split; [reflexivity|]. split; [reflexivity|].
    split; [intros f; destruct f; reflexivity|]. split.
    + unfold uniqueIds. rewrite List.map_map.
      erewrite map_ext; [exact Hnd|]. intros r. simpl.
      destruct (String.eqb_spec (id r) (id old)) as [He|_]; [symmetry; exact He|reflexivity].
    + intros r Hr Hne. apply in_map_iff. exists r. split; [|exact Hr].
      destruct (String.eqb_spec (id r) (id old)) as [He|_]; [|reflexivity].
      destruct Hne. apply (uniqueIds_owner _ _ _ Hnd Hr Hin He).
Qed.

(** X10.  An id under which the caller has no row - no row at all, or a row
    of another owner - is refused by the three actions that take an id: the
    read redirects to the list, the delete and the update (whatever the
    input) return null, and neither changes a row. *)
Theorem unknown_id_is_refused (w : World) (userId ident : string) (values : JobInput) :
  currentUser w = Some userId ->
  (forall r, In r (jobTable w) -> id r = ident -> clerkId r <> userId) ->
  fst (getSingleJobAction ident w) = Throw (NextRedirect "/jobs") /\
  fst (deleteJobAction ident w) = Return None /\
  fst (updateJobAction ident values w) = Return None /\
  jobTable (snd (deleteJobAction ident w)) = jobTable w /\
  jobTable (snd (updateJobAction ident values w)) = jobTable w.
Proof.
  intros Hu Hno.
  assert (List.find (Prisma.matches (whereIdClerk ident userId)) (jobTable w) = None) as Hf.
  { apply find_none_other. intros r Hr. rewrite matches_whereIdClerk.
    destruct (String.eqb_spec (id r) ident) as [He|_]; [|reflexivity].
    destruct (String.eqb_spec (clerkId r) userId) as [Hc|_]; [|reflexivity].
    destruct (Hno r Hr He Hc). }
  destruct (unknown_id_outcomes w userId ident Hu Hf) as (Hg & Hd & Hup).
  split; [exact Hg|]. split; [exact Hd|]. split; [apply Hup|].
  unfold deleteJobAction, updateJobAction, mbind, Action_bind.
  rewrite (authenticate_ok _ _ Hu). unfold tryCatch, parse. split.
  - unfold Prisma.delete. destruct (noFault 1 w) eqn:Hq.
    + rewrite (query_ok _ _ Hq). change (jobTable (afterQuery w)) with (jobTable w).
      rewrite Hf. reflexivity.
    + rewrite (query_fault _ _ Hq). reflexivity.
  - destruct (createAndEditJobSchema values) as [iss|v]; [reflexivity|].
    cbn [mret Action_ret]. unfold Prisma.update. destruct (noFault 1 w) eqn:Hq.
    + rewrite (query_ok _ _ Hq). change (jobTable (afterQuery w)) with (jobTable w).
      rewrite Hf. reflexivity.
    + rewrite (query_fault _ _ Hq). reflexivity.
Qed.

Lemma sanitized_wellFormed values v :
  createAndEditJobSchema values = inr v -> wellFormedData (sanitizeJobInput v).
Proof.
  intros Hs. destruct (schema_accepts _ _ Hs) as (Hreq & _). split.
  - intros f. specialize (Hreq f). apply required_accepts in Hreq as (raw & _ & Hlen & Hv).
    assert (sanitizedRequired f (sanitizeJobInput v) = Js.trim raw) as ->
      by (rewrite <- Hv; destruct f; reflexivity).
    split; [apply trim_idem|]. pose proof (trim_length raw). lia.
  - intros f. rewrite sanitizedField_orNull. apply orNull_not_empty.
Qed.

Lemma keeps_revalidatePath p : keeps staysWellFormed (revalidatePath p).
Proof. intros w Hw. exact Hw. Qed.

Lemma staysWellFormed_trans a b c :
  staysWellFormed a b -> staysWellFormed b c -> staysWellFormed a c.
Proof. unfold staysWellFormed. tauto. Qed.

Lemma keeps_create d owner :
  wellFormedData d -> keeps staysWellFormed (Prisma.create d owner).
Proof.
  intros [Hreq Hopt]. apply (keeps_query _ staysWellFormed_trans); [intros a f Ha; exact Ha|].
  intros w Hw. cbn. apply Forall_app. split; [exact Hw|].
    constructor; [|constructor]. split; [eexists; reflexivity|].
    split; [eexists; reflexivity|]. split.
    + intros f. specialize (Hreq f). destruct f; exact Hreq.
    + intros f. specialize (Hopt f). destruct f; exact Hopt.
Qed.

Lemma keeps_update wh d :
  wellFormedData d -> keeps staysWellFormed (Prisma.update wh d).
Proof.
  intros [Hreq Hopt]. apply (keeps_query _ staysWellFormed_trans); [intros a f Ha; exact Ha|].
  intros w Hw. destruct (List.find _ _); [|exact Hw]. cbn.
    induction Hw as [|r rows Hr Hrows IH]; simpl; [constructor|].
    destruct (Prisma.matches wh r); constructor; try assumption.
    split; [eexists; reflexivity|]. split; [eexists; reflexivity|]. split.
    + intros f. specialize (Hreq f). destruct f; exact Hreq.
    + intros f. specialize (Hopt f). destruct f; exact Hopt.
Qed.

Lemma keeps_delete wh : keeps staysWellFormed (Prisma.delete wh).
Proof.
  apply (keeps_query _ staysWellFormed_trans); [intros a f Ha; exact Ha|].
  intros w Hw. destruct (List.find _ _); [|exact Hw]. cbn.
    induction Hw as [|r rows Hr Hrows IH]; simpl; [constructor|].
    destruct (Prisma.matches wh r); [exact Hrows|]. constructor; assumption.
Qed.

Lemma keeps_parse {B} values (k : CreateAndEditJobType -> Action B) :
  (forall v, createAndEditJobSchema values = inr v -> keeps staysWellFormed (k v)) ->
  keeps staysWellFormed (parse values ≫= k).
Proof.
  intros Hk w. unfold mbind, Action_bind, parse.
  destruct (createAndEditJobSchema values) as [iss|v] eqn:E.
  - intros Hw. exact Hw.
  - apply (Hk v eq_refl).
Qed.

(** X11.  The rows stay well formed: when every row of the table has its
    status and its mode among the values of the enumerations, its required
    texts trimmed and of at most 200 code units, and no empty optional
    text, the same holds after each of the three writing actions, whatever
    the input, the id, the caller and the answer of the storage. *)
Theorem writes_keep_rows_well_formed (w : World) (ident : string) (values : JobInput) :
  Forall wellFormedJob (jobTable w) ->
  Forall wellFormedJob (jobTable (snd (createJobAction values w))) /\
  Forall wellFormedJob (jobTable (snd (updateJobAction ident values w))) /\
  Forall wellFormedJob (jobTable (snd (deleteJobAction ident w))).
Proof.
  intros Hw.
  assert (forall a, staysWellFormed a a) as Hrefl by (intros a Ha; exact Ha).
  assert (forall a f, staysWellFormed a (setFaults f a)) as Hf by (intros a f Ha; exact Ha).
  assert (forall a c, staysWellFormed a (setConsole c a)) as Hc by (intros a c Ha; exact Ha).
  pose proof staysWellFormed_trans as Htr.
  assert (forall A msg (a : A) e,
             keeps staysWellFormed (_ ← consoleError msg e; mret a)) as Hh.
  { intros A msg a e. apply keeps_bind; [exact Htr|apply keeps_consoleError, Hc|].
    intros _. apply keeps_ret, Hrefl. }
  assert (forall A (job : A) paths,
             keeps staysWellFormed
               (fold_right (fun p k => _ ← revalidatePath p; k) (mret (Some job)) paths)) as Hrev.
  { intros A job paths. induction paths as [|p paths IH]; simpl; [apply keeps_ret, Hrefl|].
    apply keeps_bind; [exact Htr|apply keeps_revalidatePath|]. intros _. exact IH. }
  split; [|split].
  - apply (keeps_bind _ Htr); [apply keeps_authenticate, Hrefl| |exact Hw]. intros u.
    apply (keeps_tryCatch _ Htr); [|intros e; apply Hh].
    apply keeps_parse. intros v Hv.
    apply (keeps_bind _ Htr); [apply keeps_create, (sanitized_wellFormed _ _ Hv)|].
    intros job. apply (Hrev _ job ["/"; "/jobs"]%string).
  - apply (keeps_bind _ Htr); [apply keeps_authenticate, Hrefl| |exact Hw]. intros u.
    apply (keeps_tryCatch _ Htr); [|intros e; apply Hh].
    apply keeps_parse. intros v Hv.
    apply (keeps_bind _ Htr); [apply keeps_update, (sanitized_wellFormed _ _ Hv)|].
    intros job. apply (Hrev _ job ["/"; "/jobs"; "/jobs/" +:+ ident]%string).
  - apply (keeps_bind _ Htr); [apply keeps_authenticate, Hrefl| |exact Hw]. intros u.
    apply (keeps_tryCatch _ Htr); [|intros e; apply Hh].
    apply (keeps_bind _ Htr); [apply keeps_delete|].
    intros job. apply (Hrev _ job ["/"; "/jobs"]%string).
Qed.
End ReadsAndWrites.

(** ** Pages, keys and totals *)

Section Paging.

Lemma firstn_add {A} (a b : nat) (xs : list A) :
  List.firstn (a + b) xs = List.firstn a xs ++ List.firstn b (drop a xs).
Proof.
  revert xs. induction a as [|a IH]; intros xs; simpl; [reflexivity|].
  destruct xs as [|x xs]; simpl.
  - destruct b; reflexivity.
  - rewrite IH. reflexivity.
Qed.

Lemma pages_concat {A} (l : nat) (xs : list A) (n : nat) :
  concat (List.map (fun p => List.firstn l (drop ((p - 1) * l) xs)) (seq 1 n)) =
  List.firstn (n * l) xs.
Proof.
  induction n as [|n IH]; [reflexivity|].
  rewrite seq_S, map_app, concat_app, IH. simpl.
  rewrite app_nil_r. replace (n - 0)%nat with n by lia.
  replace (l + n * l)%nat with (n * l + l)%nat by lia.
  symmetry. apply firstn_add.
Qed.

Lemma afterQuery_quiet w : faults w = [] -> afterQuery w = w.
Proof. destruct w as [s n z t f i c r]. simpl. intros ->. reflexivity. Qed.

Lemma noFault_quiet n w : faults w = [] -> noFault n w = true.
Proof. unfold noFault. intros ->. destruct n; reflexivity. Qed.

(** X12.  The pages partition the list.  For a signed-in caller, a storage
    that answers and a limit of at least 1, with [n] the total of pages
    that every page reports: each page from 1 to [n] is non-empty, each
    page after [n] is empty, every page reports the same count, and the
    pages 1 to [n] one after the other are the whole filtered list in
    descending order of the applied date, each job once. *)
Theorem pages_partition_the_list (w : World) (userId : string)
    (term st : option string) (size : Z) :
  let pageAt p := getAllJobsAction (mkArgs term st (Some p) (Some size)) w in
  let ordered :=
    Prisma.orderByAppliedDate Prisma.desc
      (List.filter (Prisma.matches (listWhere userId term st)) (jobTable w)) in
  currentUser w = Some userId ->
  faults w = [] ->
  1 <= size ->
  exists n,
    0 <= n /\
    (forall p, 1 <= p ->
       exists r, pageAt p = (Return r, w) /\
                 totalPages r = Js.Num n /\ count r = Z.of_nat (length ordered) /\
                 (p <= n -> jobs r <> []) /\ (n < p -> jobs r = [])) /\
    concat (List.map (fun p => pageJobs (fst (pageAt (Z.of_nat p)))) (seq 1 (Z.to_nat n))) =
    ordered.
Proof.
  intros pageAt ordered Hu Hq Hl.
  set (matching := List.filter (Prisma.matches (listWhere userId term st)) (jobTable w)).
  assert (length ordered = length matching) as Hlen.
  { unfold ordered. apply Permutation_length. apply sort_perm. }
  destruct (ceilDiv_spec (Z.of_nat (length matching)) size) as (n & Hn & Hb); [lia|lia|].
  assert (0 <= n) as Hn0 by nia.
  assert (forall p, 1 <= p ->
            pageAt p =
            (Return (mkPage (List.firstn (Z.to_nat size)
                               (drop (Z.to_nat ((p - 1) * size)) ordered))
                            (Z.of_nat (length matching)) p (Js.Num n)), w)) as Hrun.
  { intros p Hp. unfold pageAt.
    assert (0 <= (p - 1) * size) as Hskip by nia.
    rewrite (getAllJobsAction_run (mkArgs term st (Some p) (Some size)) w userId Hu (noFault_quiet 2 w Hq) Hskip).
    rewrite !(afterQuery_quiet w Hq).
    change (Js.ceilDiv _ _) with (Js.ceilDiv (Z.of_nat (length matching)) size).
    rewrite Hn. f_equal. f_equal. unfold Prisma.paginate.
    change (default 10 _) with size. change (default 1 _) with p. cbn [Prisma.skipOf].
    destruct (Z.leb_spec 0 size); [reflexivity|lia]. }
  exists n. split; [exact Hn0|]. split.
  - intros p Hp. eexists. split; [apply (Hrun p Hp)|]. cbn [totalPages count jobs].
    split; [reflexivity|]. split; [rewrite Hlen; reflexivity|]. split.
    + intros Hpn Hnil. apply (f_equal (@length _)) in Hnil.
      rewrite length_firstn, length_drop in Hnil. simpl in Hnil. nia.
    + intros Hpn. apply List.length_zero_iff_nil.
      rewrite length_firstn, length_drop. nia.
  - erewrite map_ext_in.
    + rewrite (pages_concat (Z.to_nat size) ordered (Z.to_nat n)).
      apply firstn_all2. nia.
    + intros p [Hp1 Hp2]%in_seq. cbv beta. rewrite (Hrun (Z.of_nat p)); [|lia].
      cbn [fst pageJobs jobs]. do 2 f_equal. nia.
Qed.
End Paging.

Section ListEdges.

(** X13.  The list at the edge of its parameters, for a signed-in caller.
    A page number below 1 with a limit of at least 1 asks the storage for a
    negative skip, which it refuses: the action writes the refusal to the
    console and answers as on a fault - no jobs, count 0, page 1, 0 pages -
    whatever the table holds.  A limit of 0 returns no jobs on every page,
    with the true count, and the total of pages is no integer: it is
    infinite when there are matching rows and not a number when there are
    none. *)
Theorem list_outside_its_domain (w : World) (userId : string)
    (term st : option string) (p size : Z) :
  let matching :=
    List.filter (Prisma.matches (listWhere userId term st)) (jobTable w) in
  currentUser w = Some userId ->
  noFault 2 w = true ->
  (p <= 0 -> 1 <= size ->
   getAllJobsAction (mkArgs term st (Some p) (Some size)) w =
   (Return emptyPage,
    setConsole (console w ++ [("Error fetching jobs:"%string, PrismaError InvalidArgument)])
               (afterQuery w))) /\
  (exists r w',
      getAllJobsAction (mkArgs term st (Some p) (Some 0)) w = (Return r, w') /\
      jobs r = [] /\ count r = Z.of_nat (length matching) /\ pageNumber r = p /\
      (matching <> [] -> totalPages r = Js.PosInfinity) /\
      (matching = [] -> totalPages r = Js.NaN)).
Proof.
  intros matching Hu Hq. split.
  - intros Hp Hs. destruct (noFault_step _ _ Hq) as [Hq1 _].
    unfold getAllJobsAction, mbind, Action_bind. rewrite (authenticate_ok _ _ Hu).
    unfold tryCatch, Prisma.findMany. rewrite (query_ok _ _ Hq1).
    change (default 10 _) with size. change (default 1 _) with p. cbn [Prisma.skipOf].
    destruct (Z.ltb_spec ((p - 1) * size) 0); [reflexivity|nia].
  - assert (0 <= (p - 1) * 0) as Hskip by lia.
    rewrite (getAllJobsAction_run (mkArgs term st (Some p) (Some 0)) w userId Hu Hq Hskip).
    eexists _, _. split; [reflexivity|]. cbn [jobs count pageNumber totalPages].
    change (default 10 _) with 0. change (default 1 _) with p.
    change (Z.of_nat (length _)) with (Z.of_nat (length matching)).
    split; [reflexivity|]. split; [reflexivity|]. split; [reflexivity|].
    unfold Js.ceilDiv. simpl (0 =? 0). cbv iota. split.
    + intros Hne. destruct matching; [contradiction|]. reflexivity.
    + intros ->. reflexivity.
Qed.
End ListEdges.

Section StatsKeys.

Lemma zeroStats_other k :
  (forall s : JobStatus, k <> JobStatus_value s) -> zeroStats !! k = None.
Proof.
  intros Hk. unfold zeroStats.
  rewrite !lookup_insert_ne; [apply lookup_empty|..].
  - apply not_eq_sym, (Hk Rejected).
  - apply not_eq_sym, (Hk Offer).
  - apply not_eq_sym, (Hk Interview).
  - apply not_eq_sym, (Hk Screening).
  - apply not_eq_sym, (Hk Applied).
Qed.

Lemma statsObjectOf_proto g acc :
  acc !! "__proto__"%string = None -> statsObjectOf g acc !! "__proto__"%string = None.
Proof.
  unfold statsObjectOf. revert acc. induction g as [|[k v] g IH]; intros acc Ha; simpl;
    [exact Ha|].
  apply IH. unfold setProperty. destruct (String.eqb_spec k "__proto__") as [->|Hne];
    [exact Ha|]. rewrite lookup_insert_ne; [exact Ha|exact Hne].
Qed.

Lemma statusCount_five (rows : list JobType) :
  Forall (fun j => exists s : JobStatus, status j = JobStatus_value s) rows ->
  statusCount "applied" rows + statusCount "screening" rows + statusCount "interview" rows +
  statusCount "offer" rows + statusCount "rejected" rows = Z.of_nat (length rows).
Proof.
  unfold statusCount. induction 1 as [|j rows [s Hs] Hrows IH]; [reflexivity|].
  cbn [List.map length]. rewrite Hs.
  change (JobStatus_value s :: List.map status rows)
    with ([JobStatus_value s] ++ List.map status rows).
  rewrite !occurrences_app, !occurrences_single. destruct s; simpl; lia.
Qed.

Lemma status_or_other k :
  (exists s : JobStatus, k = JobStatus_value s) \/ (forall s : JobStatus, k <> JobStatus_value s).
Proof.
  destruct (String.eqb_spec k "applied") as [->|H1]; [left; exists Applied; reflexivity|].
  destruct (String.eqb_spec k "screening") as [->|H2]; [left; exists Screening; reflexivity|].
  destruct (String.eqb_spec k "interview") as [->|H3]; [left; exists Interview; reflexivity|].
  destruct (String.eqb_spec k "offer") as [->|H4]; [left; exists Offer; reflexivity|].
  destruct (String.eqb_spec k "rejected") as [->|H5]; [left; exists Rejected; reflexivity|].
  right. intros []; assumption.
Qed.

(** X14.  The keys of the statistics.  For a signed-in caller and an
    answering storage the object has, besides the five statuses, one key
    for every other status that occurs among the caller's rows, with its
    count, and no further key; the key __proto__ is never set.  When every
    row of the caller has one of the five statuses the object has these
    five keys only and their counts add up to the number of the caller's
    rows. *)
Theorem stats_keys_and_total (w : World) (userId : string) :
  let mine := ownedBy userId (jobTable w) in
  currentUser w = Some userId ->
  noFault 1 w = true ->
  exists m w',
    getStatsAction w = (Return m, w') /\
    (forall k, (forall s : JobStatus, k <> JobStatus_value s) -> k <> "__proto__"%string ->
               m !! k = if statusCount k mine =? 0 then None else Some (statusCount k mine)) /\
    m !! "__proto__"%string = None /\
    (Forall (fun j => exists s : JobStatus, status j = JobStatus_value s) mine ->
     (forall k, is_Some (m !! k) <-> exists s : JobStatus, k = JobStatus_value s) /\
     exists a b c d e,
       m !! "applied"%string = Some a /\ m !! "screening"%string = Some b /\
       m !! "interview"%string = Some c /\ m !! "offer"%string = Some d /\
       m !! "rejected"%string = Some e /\
       a + b + c + d + e = Z.of_nat (length mine)).
Proof.
  intros mine Hu Hq. rewrite (getStatsAction_run _ _ Hu Hq). fold mine.
  set (g := statusGroups (List.map status mine)).
  assert (forall k, k <> "__proto__"%string ->
            (statsObjectOf g ∅ ∪ zeroStats) !! k =
            match alookup k g with
            | Some v => Some v
            | None => zeroStats !! k
            end) as Hlook.
  { intros k Hk. rewrite lookup_union.
    rewrite (statsObjectOf_lookup g ∅ k (statusGroups_NoDup _) Hk), lookup_empty.
    destruct (alookup k g), (zeroStats !! k); reflexivity. }
  assert (forall s : JobStatus,
            (statsObjectOf g ∅ ∪ zeroStats) !! JobStatus_value s =
            Some (statusCount (JobStatus_value s) mine)) as Hfive.
  { intros s. rewrite Hlook; [|destruct s; discriminate].
    unfold g. rewrite alookup_statusGroups. fold (statusCount (JobStatus_value s) mine).
    destruct (Z.eqb_spec (statusCount (JobStatus_value s) mine) 0) as [->|_];
      [apply zeroStats_lookup|reflexivity]. }
  assert ((statsObjectOf g ∅ ∪ zeroStats) !! "__proto__"%string = None) as Hproto.
  { rewrite lookup_union, (statsObjectOf_proto g ∅ (lookup_empty _)). reflexivity. }
  eexists _, _. split; [reflexivity|]. split.
  { intros k Hk Hp. rewrite (Hlook k Hp), (zeroStats_other k Hk).
    unfold g. rewrite alookup_statusGroups. fold (statusCount k mine).
    destruct (statusCount k mine =? 0); reflexivity. }
  split; [exact Hproto|].
  intros Hall. split.
  - intros k. split.
    + intros [v Hv].
      destruct (decide (k = "__proto__"%string)) as [->|Hp]; [congruence|].
      destruct (status_or_other k) as [Hs|Hs]; [exact Hs|].
      exfalso. rewrite (Hlook k Hp), (zeroStats_other k Hs) in Hv.
      unfold g in Hv. rewrite alookup_statusGroups in Hv.
      destruct (Z.eqb_spec (occurrences k (List.map status mine)) 0) as [_|Hne];
        [discriminate|].
      apply Hne. unfold occurrences.
      replace (List.filter (String.eqb k) (List.map status mine)) with (@nil string);
        [reflexivity|].
      symmetry. clear -Hall Hs. induction Hall as [|j rows [s Hj] _ IH]; [reflexivity|].
      simpl. destruct (String.eqb_spec k (status j)) as [He|_]; [|exact IH].
      exfalso. apply (Hs s). congruence.
    + intros [s ->]. rewrite Hfive. eexists. reflexivity.
  - exists (statusCount "applied" mine), (statusCount "screening" mine),
      (statusCount "interview" mine), (statusCount "offer" mine),
      (statusCount "rejected" mine).
    split; [apply (Hfive Applied)|]. split; [apply (Hfive Screening)|].
    split; [apply (Hfive Interview)|]. split; [apply (Hfive Offer)|].
    split; [apply (Hfive Rejected)|]. apply statusCount_five, Hall.
Qed.
End StatsKeys.

Section Totals.

Lemma totalOf_addToGroup s g : totalOf (Prisma.addToGroup s g) = totalOf g + 1.
Proof.
  unfold totalOf. induction g as [|[k n] g IH]; simpl; [reflexivity|].
  destruct (String.eqb k s); simpl; lia.
Qed.

Lemma totalOf_statusGroups l : totalOf (statusGroups l) = Z.of_nat (length l).
Proof.
  induction l as [|s l IH] using rev_ind; [reflexivity|].
  rewrite statusGroups_snoc, totalOf_addToGroup, IH, length_app. simpl. lia.
Qed.

(** X15.  The chart loses no application and counts none twice: for a
    signed-in caller and an answering storage, the counts of the points
    add up to the number of the caller's rows whose applied date is not
    before the cutoff, and with no such row there is no point. *)
Theorem chart_counts_add_up (w : World) (userId : string) :
  let cutoff := Dayjs.subtractMonths (tz w) 6 (now w) in
  let included :=
    List.filter (fun j => String.eqb (clerkId j) userId && (cutoff <=? appliedDate j))
                (jobTable w) in
  currentUser w = Some userId ->
  noFault 1 w = true ->
  exists points w',
    getChartsDataAction w = (Return points, w') /\
    totalOf points = Z.of_nat (length included) /\
    (included = [] <-> points = []).
Proof.
  intros cutoff included Hu Hq. rewrite (getChartsDataAction_run _ _ Hu Hq).
  fold cutoff. fold included. eexists _, _. split; [reflexivity|].
  rewrite applicationsPerMonth_groups.
  assert (length (Prisma.orderByAppliedDate Prisma.asc included) = length included) as Hlen
    by apply sort_length.
  split.
  - rewrite totalOf_statusGroups, length_map. rewrite Hlen. reflexivity.
  - split.
    + intros ->. reflexivity.
    + intros Hnil. apply (f_equal totalOf) in Hnil.
      rewrite totalOf_statusGroups, length_map, Hlen in Hnil.
      destruct included; [reflexivity|discriminate].
Qed.

(** X16.  The export list is the whole of the caller's rows: for a
    signed-in caller and an answering storage [getAllJobsForDownloadAction]
    returns every row of the caller and no other, each once, without a
    limit, in descending order of the applied date. *)
Theorem download_list_is_complete (w : World) (userId : string) :
  currentUser w = Some userId ->
  noFault 1 w = true ->
  exists rows w',
    getAllJobsForDownloadAction w = (Return rows, w') /\
    Permutation rows (ownedBy userId (jobTable w)) /\
    length rows = length (ownedBy userId (jobTable w)) /\
    (forall j, In j rows <-> In j (jobTable w) /\ clerkId j = userId) /\
    descendingBy appliedDate rows.
Proof.
  intros Hu Hq. unfold getAllJobsForDownloadAction, mbind, Action_bind.
  rewrite (authenticate_ok _ _ Hu). unfold tryCatch, Prisma.findMany.
  rewrite (query_ok _ _ Hq). cbn [Prisma.skipOf]. change (0 <? 0) with false. cbv iota.
  change (jobTable (afterQuery w)) with (jobTable w).
  rewrite whereClerk_filter. unfold Prisma.paginate, Prisma.orderByAppliedDate.
  cbn [Prisma.skipOf]. change (Z.to_nat 0) with 0%nat. rewrite drop_0.
  eexists _, _. split; [reflexivity|].
  split; [apply sort_perm|]. split; [apply sort_length|]. split.
  - intros j. rewrite sort_In. unfold ownedBy. rewrite filter_In.
    split; intros [Hj Hc]; (split; [exact Hj|]); apply String.eqb_eq; exact Hc.
  - apply sort_desc.
Qed.
End Totals.

(** ** Scenarios of the writes and the reads *)

Section WriteScenarios.

Lemma sampleOffers_uniqueIds : uniqueIds sampleOffers.
Proof. apply (bool_decide_unpack _). vm_compute. exact I. Qed.

Lemma sampleJob_wellFormed i o st md c :
  (exists s : JobStatus, st = JobStatus_value s) ->
  (exists m : JobMode, md = JobMode_value m) ->
  wellFormedJob (sampleJob i o st md c).
Proof.
  intros Hs Hm. split; [exact Hs|]. split; [exact Hm|]. split.
  - intros []; (split; [reflexivity|simpl; lia]).
  - intros []; discriminate.
Qed.

Lemma sampleOffers_wellFormed : Forall wellFormedJob sampleOffers.
Proof.
  unfold sampleOffers.
  repeat (apply List.Forall_cons;
          [apply sampleJob_wellFormed;
           [first [by exists Offer | by exists Applied]
           |first [by exists Remote | by exists Hybrid | by exists Contract
                  | by exists FullTime | by exists PartTime]]|]).
  apply List.Forall_nil.
Qed.

Lemma writes_succeed_or_change_nothing_witness :
  console (snd (@createJobAction Sample.validators sampleInput healthyWorld)) = [] \/
  jobTable (snd (@createJobAction Sample.validators sampleInput healthyWorld)) = sampleOffers.
Proof.
  destruct (@writes_succeed_or_change_nothing Sample.validators healthyWorld "user_1" "j1"
              sampleInput eq_refl) as ([(job & _ & _ & _ & Hc)|(_ & Ht & _)] & _).
  - left. exact Hc.
  - right. exact Ht.
Defined.

Lemma delete_removes_exactly_the_job_witness :
  fst (deleteJobAction "j1" healthyWorld) =
  Return (Some (sampleJob "j1" "user_1" "offer" "remote" 1000)).
Proof.
  destruct (@delete_removes_exactly_the_job Sample.validators healthyWorld "user_1"
              (sampleJob "j1" "user_1" "offer" "remote" 1000)
              eq_refl eq_refl sampleOffers_uniqueIds (or_introl eq_refl) eq_refl)
    as (w' & Hd & _).
  change (id (sampleJob "j1" "user_1" "offer" "remote" 1000)) with "j1"%string in Hd.
  rewrite Hd. reflexivity.
Defined.

Lemma update_rewrites_only_the_form_fields_witness :
  exists job,
    fst (@updateJobAction Sample.validators "j1" sampleInput healthyWorld) = Return (Some job) /\
    createdAt job = 1000 /\ status job = "applied"%string.
Proof.
  destruct (@update_rewrites_only_the_form_fields Sample.validators healthyWorld "user_1"
              (sampleJob "j1" "user_1" "offer" "remote" 1000) sampleInput sampleValidated
              eq_refl eq_refl sampleOffers_uniqueIds (or_introl eq_refl) eq_refl eq_refl)
    as (w' & Hup & _ & (_ & _ & _ & Hcr & _) & _ & Hst & _).
  eexists. split; [|split; [exact Hcr|exact Hst]].
  change (id (sampleJob "j1" "user_1" "offer" "remote" 1000)) with "j1"%string in Hup.
  rewrite Hup. reflexivity.
Defined.

Lemma unknown_id_is_refused_witness :
  fst (deleteJobAction (id rowOfB) sharedWorld) = Return None /\
  jobTable (snd (deleteJobAction (id rowOfB) sharedWorld)) = jobTable sharedWorld.
Proof.
  destruct (@unknown_id_is_refused Sample.validators sharedWorld "user_1" (id rowOfB)
              sampleInput eq_refl) as (_ & Hd & _ & Ht & _).
  - intros r [<-|[<-|[]]]; simpl; discriminate.
  - split; [exact Hd|exact Ht].
Defined.

Lemma writes_keep_rows_well_formed_witness :
  Forall wellFormedJob
    (jobTable (snd (@createJobAction Sample.validators sampleInput healthyWorld))).
Proof.
  destruct (@writes_keep_rows_well_formed Sample.validators healthyWorld "j1" sampleInput
              sampleOffers_wellFormed) as (Hc & _).
  exact Hc.
Defined.

Lemma pages_partition_the_list_witness :
  exists n,
    concat (List.map
              (fun p => pageJobs
                          (fst (getAllJobsAction
                                  (mkArgs None None (Some (Z.of_nat p)) (Some 4)) healthyWorld)))
              (seq 1 (Z.to_nat n))) =
    Prisma.orderByAppliedDate Prisma.desc
      (List.filter (Prisma.matches (listWhere "user_1" None None)) sampleOffers).
Proof.
  destruct (pages_partition_the_list healthyWorld "user_1" None None 4 eq_refl eq_refl)
    as (n & _ & _ & Hc).
  - lia.
  - exists n. exact Hc.
Defined.

Lemma list_outside_its_domain_witness :
  fst (getAllJobsAction (mkArgs None None (Some 0) (Some 10)) healthyWorld) = Return emptyPage.
Proof.
  destruct (list_outside_its_domain healthyWorld "user_1" None None 0 10 eq_refl eq_refl)
    as (Hp & _).
  rewrite Hp; [reflexivity|lia|lia].
Defined.

Lemma stats_keys_and_total_witness :
  exists m, fst (getStatsAction statsWorld) = Return m /\ m !! "__proto__"%string = None.
Proof.
  destruct (stats_keys_and_total statsWorld "user_1" eq_refl eq_refl)
    as (m & w' & Hs & _ & Hp & _).
  exists m. split; [rewrite Hs; reflexivity|exact Hp].
Defined.

Lemma chart_counts_add_up_witness :
  exists points, fst (getChartsDataAction trendWorld) = Return points /\ 0 <= totalOf points.
Proof.
  destruct (chart_counts_add_up trendWorld "user_1" eq_refl eq_refl)
    as (points & w' & Hc & Ht & _).
  exists points. split; [rewrite Hc; reflexivity|]. rewrite Ht. lia.
Defined.

Lemma download_list_is_complete_witness :
  exists rows,
    fst (getAllJobsForDownloadAction healthyWorld) = Return rows /\ length rows = 6%nat.
Proof.
  destruct (download_list_is_complete healthyWorld "user_1" eq_refl eq_refl)
    as (rows & w' & Hd & _ & Hl & _).
  exists rows. split; [rewrite Hd; reflexivity|]. rewrite Hl. reflexivity.
Defined.
End WriteScenarios.

(** ** The route handlers *)

Section RouteFacts.
Context `{Validators}.
Import Routes.

Lemma route_fst {A} (act : Action A) (k : A -> Action NextResponse) msg error w :
  fst (tryCatch (act ≫= k) (fail msg error) w) =
  match act w with
  | (Return a, w') =>
      match k a w' with
      | (Return r, _) => Return r
      | (Throw _, _) => Return (failure error 500)
      end
  | (Throw _, _) => Return (failure error 500)
  end.
Proof.
  unfold tryCatch, mbind, Action_bind.
  destruct (act w) as [[a|e] w']; [|reflexivity].
  destruct (k a w') as [[r|e] w'']; reflexivity.
Qed.

Lemma route_world {A} (act : Action A) (k : A -> NextResponse) msg error w :
  snd (tryCatch (a ← act; mret (k a)) (fail msg error) w) =
  match act w with
  | (Return _, w') => w'
  | (Throw e, w') => setConsole (console w' ++ [(msg, e)]) w'
  end.
Proof.
  unfold tryCatch, mbind, Action_bind.
  destruct (act w) as [[a|e] w']; reflexivity.
Qed.

Lemma getSingleJobAction_never_null ident w :
  fst (getSingleJobAction ident w) <> Return None.
Proof.
  unfold getSingleJobAction, mbind, Action_bind, authenticateAndRedirect.
  destruct (session w) as [s|]; [destruct (Js.truthy s)|]; try discriminate.
  unfold tryCatch, Prisma.findUnique, Prisma.query.
  destruct (faults w) as [|[] fs]; try discriminate;
    destruct (List.find _ _); discriminate.
Qed.

(** X17.  Every handler answers, in every world: no handler throws, not
    even when its action redirects.  The answers are 200 or 500 for the
    reads, 201, 400 or 500 for the creation, and 200, 400 or 500 for the
    update and the delete; the read of one job never answers 404, since
    its action returns a job or throws. *)
Theorem handlers_always_answer (w : World) (searchParams : list (string * string))
    (body : JobInput) (ident : string) :
  (forall handler, Jobs.GET searchParams = Some handler ->
                   answers [200; 500] (fst (handler w))) /\
  answers [201; 400; 500] (fst (Jobs.POST body w)) /\
  answers [200; 500] (fst (Download.GET w)) /\
  answers [200; 500] (fst (Stats.GET w)) /\
  answers [200; 500] (fst (Charts.GET w)) /\
  answers [200; 500] (fst (JobsId.GET ident w)) /\
  answers [200; 400; 500] (fst (JobsId.PUT ident body w)) /\
  answers [200; 400; 500] (fst (JobsId.DELETE ident w)).
Proof.
  split.
  { intros handler. unfold Jobs.GET. destruct (Jobs.queryArgs searchParams) as [args|];
      [|discriminate]. intros [= <-]. rewrite route_fst.
    destruct (getAllJobsAction args w) as [[a|e] w']; eexists; (split; [reflexivity|]);
      simpl; tauto. }
  split.
  { unfold Jobs.POST. rewrite route_fst.
    destruct (createJobAction body w) as [[[j|]|e] w']; eexists; (split; [reflexivity|]);
      simpl; tauto. }
  split.
  { unfold Download.GET. rewrite route_fst.
    destruct (getAllJobsForDownloadAction w) as [[a|e] w']; eexists; (split; [reflexivity|]);
      simpl; tauto. }
  split.
  { unfold Stats.GET. rewrite route_fst.
    destruct (getStatsAction w) as [[a|e] w']; eexists; (split; [reflexivity|]);
      simpl; tauto. }
  split.
  { unfold Charts.GET. rewrite route_fst.
    destruct (getChartsDataAction w) as [[a|e] w']; eexists; (split; [reflexivity|]);
      simpl; tauto. }
  split.
  { unfold JobsId.GET. rewrite route_fst.
    pose proof (getSingleJobAction_never_null ident w) as Hnn.
    destruct (getSingleJobAction ident w) as [[[j|]|e] w'];
      [| destruct Hnn; reflexivity |]; eexists; (split; [reflexivity|]); simpl; tauto. }
  split.
  { unfold JobsId.PUT. rewrite route_fst.
    destruct (updateJobAction ident body w) as [[[j|]|e] w']; eexists; (split; [reflexivity|]);
      simpl; tauto. }
  unfold JobsId.DELETE. rewrite route_fst.
  destruct (deleteJobAction ident w) as [[[j|]|e] w']; eexists; (split; [reflexivity|]);
    simpl; tauto.
Qed.

(** X18.  A request without user id is answered 500 by every handler: the
    redirect to the home page that the action throws is caught by the
    handler, written to the console under the message of the handler, and
    turned into the error answer; nothing else changes. *)
Theorem signed_out_request_is_answered_500 (w : World)
    (searchParams : list (string * string)) (body : JobInput) (ident : string) :
  currentUser w = None ->
  let logged msg := setConsole (console w ++ [(msg, NextRedirect "/")]) w in
  (forall handler, Jobs.GET searchParams = Some handler ->
     handler w = (Return (failure "Failed to fetch jobs" 500), logged "Error fetching jobs:"%string)) /\
  Jobs.POST body w =
    (Return (failure "Failed to create job" 500), logged "Error creating job:"%string) /\
  Download.GET w =
    (Return (failure "Failed to fetch jobs for download" 500),
     logged "Error fetching jobs for download:"%string) /\
  Stats.GET w =
    (Return (failure "Failed to fetch statistics" 500), logged "Error fetching stats:"%string) /\
  Charts.GET w =
    (Return (failure "Failed to fetch chart data" 500),
     logged "Error fetching chart data:"%string) /\
  JobsId.GET ident w =
    (Return (failure "Failed to fetch job" 500), logged "Error fetching job:"%string) /\
  JobsId.PUT ident body w =
    (Return (failure "Failed to update job" 500), logged "Error updating job:"%string) /\
  JobsId.DELETE ident w =
    (Return (failure "Failed to delete job" 500), logged "Error deleting job:"%string).
Proof.
  intros Hu logged.
  assert (forall A (k : string -> Action A),
             (u ← authenticateAndRedirect; k u) w = (Throw (NextRedirect "/"), w)) as Hout.
  { intros A k. unfold mbind, Action_bind. rewrite (authenticate_none _ Hu). reflexivity. }
  split.
  { intros handler. unfold Jobs.GET. destruct (Jobs.queryArgs searchParams) as [args|];
      [|discriminate]. intros [= <-].
    unfold tryCatch at 1. unfold mbind at 1, Action_bind at 1.
    unfold getAllJobsAction. cbv zeta. rewrite Hout. reflexivity. }
  unfold Jobs.POST, Download.GET, Stats.GET, Charts.GET, JobsId.GET, JobsId.PUT, JobsId.DELETE.
  unfold createJobAction, getAllJobsForDownloadAction, getStatsAction, getChartsDataAction,
    getSingleJobAction, updateJobAction, deleteJobAction.
  repeat split;
    (unfold tryCatch at 1; unfold mbind at 1, Action_bind at 1; rewrite Hout; reflexivity).
Qed.
End RouteFacts.

Section SignedInRoutes.
Context `{Validators}.
Import Routes.

(** X19.  The handlers of one job, for a signed-in caller.  With the row
    of the caller under the id - none when the storage fails, when there is
    no such row or when it belongs to another owner - the read answers 200
    with the row, else 500; the delete answers 200 with the row, else 400;
    the update answers 200 with the rewritten row when also the input is
    accepted, else 400. *)
Theorem item_handlers_answer_by_ownership (w : World) (userId ident : string)
    (body : JobInput) :
  currentUser w = Some userId ->
  fst (JobsId.GET ident w) =
    Return (match ownedRow userId ident w with
            | Some j => json (JobJson j)
            | None => failure "Failed to fetch job" 500
            end) /\
  fst (JobsId.DELETE ident w) =
    Return (match ownedRow userId ident w with
            | Some j => json (JobJson j)
            | None => failure "Failed to delete job" 400
            end) /\
  fst (JobsId.PUT ident body w) =
    Return (match createAndEditJobSchema body, ownedRow userId ident w with
            | inr v, Some old => json (JobJson (updatedRow v (now w) old))
            | _, _ => failure "Failed to update job" 400
            end).
Proof.
  intros Hu. unfold ownedRow. split; [|split].
  - unfold JobsId.GET. rewrite route_fst, (getSingleJobAction_run ident w userId Hu).
    destruct (noFault 1 w); [|reflexivity]. destruct (List.find _ _); reflexivity.
  - unfold JobsId.DELETE. rewrite route_fst.
    unfold deleteJobAction, mbind, Action_bind. rewrite (authenticate_ok _ _ Hu).
    unfold tryCatch, Prisma.delete. destruct (noFault 1 w) eqn:Hq.
    + rewrite (query_ok _ _ Hq). change (jobTable (afterQuery w)) with (jobTable w).
      destruct (List.find _ _); reflexivity.
    + rewrite (query_fault _ _ Hq). reflexivity.
  - unfold JobsId.PUT. rewrite route_fst.
    unfold updateJobAction, mbind, Action_bind. rewrite (authenticate_ok _ _ Hu).
    unfold tryCatch, parse. destruct (createAndEditJobSchema body) as [iss|v]; [reflexivity|].
    cbn [mret Action_ret]. unfold Prisma.update. destruct (noFault 1 w) eqn:Hq.
    + rewrite (query_ok _ _ Hq). change (jobTable (afterQuery w)) with (jobTable w).
      destruct (List.find _ _); reflexivity.
    + rewrite (query_fault _ _ Hq). reflexivity.
Qed.

(** X20.  The handlers of the collection, for a signed-in caller.  The
    list and the export list always answer 200, with the empty page and
    with no row when the storage fails; the statistics and the chart answer
    200 when the storage answers and 500 when it fails; the creation
    answers 201 with the new job, which belongs to the caller, when the
    input is accepted and the storage answers, and 400 otherwise. *)
Theorem collection_handlers_answer (w : World) (userId : string)
    (searchParams : list (string * string)) (body : JobInput) :
  currentUser w = Some userId ->
  (forall handler, Jobs.GET searchParams = Some handler ->
     exists result, fst (handler w) = Return (json (PageJson result)) /\
                    (noFault 1 w = false -> result = emptyPage)) /\
  (exists rows, fst (Download.GET w) = Return (json (JobsJson rows)) /\
                (noFault 1 w = false -> rows = [])) /\
  (if noFault 1 w
   then exists stats, fst (Stats.GET w) = Return (json (StatsJson stats))
   else fst (Stats.GET w) = Return (failure "Failed to fetch statistics" 500)) /\
  (if noFault 1 w
   then exists chartData, fst (Charts.GET w) = Return (json (ChartJson chartData))
   else fst (Charts.GET w) = Return (failure "Failed to fetch chart data" 500)) /\
  (match createAndEditJobSchema body with
   | inr _ =>
       if noFault 1 w
       then exists job, fst (Jobs.POST body w) = Return (mkResponse (JobJson job) 201) /\
                        clerkId job = userId
       else fst (Jobs.POST body w) = Return (failure "Failed to create job" 400)
   | inl _ => fst (Jobs.POST body w) = Return (failure "Failed to create job" 400)
   end).
Proof.
  intros Hu. split.
  { intros handler. unfold Jobs.GET. destruct (Jobs.queryArgs searchParams) as [args|];
      [|discriminate]. intros [= <-]. rewrite route_fst.
    unfold getAllJobsAction. cbv zeta. unfold mbind at 1, Action_bind at 1.
    rewrite (authenticate_ok _ _ Hu). unfold tryCatch.
    match goal with |- context [(?body ≫= ?k) w] =>
      destruct ((body ≫= k) w) as [[a|e] w'] eqn:E end.
    - exists a. split; [reflexivity|]. intros Hq. revert E.
      unfold mbind, Action_bind, Prisma.findMany. rewrite (query_fault _ _ Hq). discriminate.
    - eexists. split; [reflexivity|]. reflexivity. }
  split.
  { unfold Download.GET. rewrite route_fst.
    unfold getAllJobsForDownloadAction, mbind, Action_bind. rewrite (authenticate_ok _ _ Hu).
    unfold tryCatch.
    destruct (Prisma.findMany _ _ _ _ w) as [[a|e] w'] eqn:E.
    - exists a. split; [reflexivity|]. intros Hq. revert E.
      unfold Prisma.findMany. rewrite (query_fault _ _ Hq). discriminate.
    - eexists. split; [reflexivity|]. reflexivity. }
  split.
  { unfold Stats.GET. rewrite route_fst. destruct (noFault 1 w) eqn:Hq.
    - rewrite (getStatsAction_run _ _ Hu Hq). eexists. reflexivity.
    - unfold getStatsAction, mbind, Action_bind. rewrite (authenticate_ok _ _ Hu).
      unfold tryCatch, Prisma.groupByStatus. rewrite (query_fault _ _ Hq). reflexivity. }
  split.
  { unfold Charts.GET. rewrite route_fst. destruct (noFault 1 w) eqn:Hq.
    - rewrite (getChartsDataAction_run _ _ Hu Hq). eexists. reflexivity.
    - unfold getChartsDataAction, mbind, Action_bind. rewrite (authenticate_ok _ _ Hu).
      unfold getWorld, tryCatch, Prisma.findMany. rewrite (query_fault _ _ Hq). reflexivity. }
  unfold Jobs.POST. rewrite route_fst.
  unfold createJobAction, mbind, Action_bind. rewrite (authenticate_ok _ _ Hu).
  unfold tryCatch, parse. destruct (createAndEditJobSchema body) as [iss|v]; [reflexivity|].
  cbn [mret Action_ret]. unfold Prisma.create. destruct (noFault 1 w) eqn:Hq.
  - rewrite (query_ok _ _ Hq). eexists. split; reflexivity.
  - rewrite (query_fault _ _ Hq). reflexivity.
Qed.
End SignedInRoutes.

Section QueryStrings.
Import Routes.








End QueryStrings.

(** ** Styles, the client singleton, groups, the report and the form *)

Section Styles.
Import DesignSystem.

Lemma lowerCode_idem c : lowerCode (lowerCode c) = lowerCode c.
Proof. destruct c as [[] [] [] [] [] [] [] []]; reflexivity. Qed.

Lemma toLowerCase_idem s : toLowerCase (toLowerCase s) = toLowerCase s.
Proof. induction s as [|c s IH]; simpl; [reflexivity|]. rewrite lowerCode_idem, IH. reflexivity. Qed.

(** X22.  The two status tables agree and cover every string.  For every
    status text the colour is one of the three status colours and the badge
    class starts with the background of exactly that colour; both are blind
    to the case of the text; a text that is none of the five statuses in
    lower case is styled as applied; and the badge class is a tidy class
    list: one line, single spaces, nothing around. *)
Theorem status_styles_agree (status : string) :
  let color := getStatusColor status in
  let badge := getStatusBadgeClass status in
  (color = "#FFFB46"%string \/ color = "#1BA68A"%string \/ color = "#113B32"%string) /\
  Js.startsWith ("bg-[" +:+ color +:+ "]") badge = true /\
  getStatusColor (toLowerCase status) = color /\
  getStatusBadgeClass (toLowerCase status) = badge /\
  ((forall s : JobStatus, toLowerCase status <> JobStatus_value s) ->
   color = getStatusColor "applied" /\ badge = getStatusBadgeClass "applied") /\
  (forall s : JobStatus,
     toLowerCase status = JobStatus_value s ->
     color = getStatusColor (JobStatus_value s) /\
     badge = getStatusBadgeClass (JobStatus_value s)) /\
  tidy badge.
Proof.
  cbv zeta. unfold getStatusColor, getStatusBadgeClass. cbv zeta.
  rewrite toLowerCase_idem.
  split; [|split; [|split; [reflexivity|split; [reflexivity|split; [|split]]]]].
  - repeat (match goal with
            | |- context [String.eqb ?a ?b] => destruct (String.eqb a b)
            end; [vm_compute; tauto|]). vm_compute. tauto.
  - repeat (match goal with
            | |- context [String.eqb ?a ?b] => destruct (String.eqb a b)
            end; [vm_compute; reflexivity|]). vm_compute. reflexivity.
  - intros Hno.
    destruct (String.eqb_spec (toLowerCase status) "applied"); [split; reflexivity|].
    destruct (String.eqb_spec (toLowerCase status) "screening") as [E|_];
      [destruct (Hno Screening E)|].
    destruct (String.eqb_spec (toLowerCase status) "interview") as [E|_];
      [destruct (Hno Interview E)|].
    destruct (String.eqb_spec (toLowerCase status) "offer") as [E|_];
      [destruct (Hno Offer E)|].
    destruct (String.eqb_spec (toLowerCase status) "rejected") as [E|_];
      [destruct (Hno Rejected E)|].
    split; reflexivity.
  - intros s ->. destruct s; split; reflexivity.
  - repeat (match goal with
            | |- context [String.eqb ?a ?b] => destruct (String.eqb a b)
            end; [split; vm_compute; reflexivity|]). split; vm_compute; reflexivity.
Qed.

Lemma join_app sep (a b : list string) :
  a <> [] -> b <> [] -> join sep (a ++ b) = join sep a +:+ sep +:+ join sep b.
Proof.
  intros Ha Hb. induction a as [|x a IH]; [contradiction|].
  destruct a as [|y a].
  - simpl. destruct b as [|z b]; [contradiction|]. reflexivity.
  - change (join sep ((x :: y :: a) ++ b)) with (x +:+ sep +:+ join sep ((y :: a) ++ b)).
    rewrite IH by discriminate.
    change (join sep (x :: y :: a)) with (x +:+ sep +:+ join sep (y :: a)).
    rewrite !append_assoc. reflexivity.
Qed.

Lemma join_empty sep (l : list string) :
  Forall (fun s => s <> EmptyString) l -> join sep l = EmptyString -> l = [].
Proof.
  intros Hl. destruct Hl as [|x l Hx Hl]; [reflexivity|].
  destruct l as [|y l]; simpl.
  - intros ->. contradiction.
  - destruct x; [contradiction|discriminate].
Qed.

Lemma truthy_classes (classes : list ClassValue) :
  Forall (fun s => s <> EmptyString) (List.map textOf (List.filter toBoolean classes)).
Proof.
  induction classes as [|c classes IH]; simpl; [constructor|].
  destruct c as [s| | |]; simpl; try exact IH.
  destruct (Js.truthy s) eqn:E; [|exact IH]. simpl. constructor; [|exact IH].
  intros ->. discriminate.
Qed.

(** X23.  [cn] joins the classes that are given.  It drops what is
    undefined, null, false or empty wherever it stands; the result is empty
    exactly when nothing is left; and merging two merged lists is merging
    the two lists at once, so that calls of [cn] can be nested. *)
Theorem cn_joins_what_is_given (xs ys : list ClassValue) (c : ClassValue) :
  cn [] = EmptyString /\
  (toBoolean c = false -> cn (xs ++ c :: ys) = cn (xs ++ ys)) /\
  (cn xs = EmptyString <-> Forall (fun x => toBoolean x = false) xs) /\
  cn [ClassName (cn xs); ClassName (cn ys)] = cn (xs ++ ys) /\
  cn [ClassName (cn xs)] = cn xs.
Proof.
  assert (forall zs, cn zs = EmptyString <-> List.filter toBoolean zs = []) as Hempty.
  { intros zs. unfold cn. split.
    - intros E. apply join_empty in E; [|apply truthy_classes].
      destruct (List.filter toBoolean zs); [reflexivity|discriminate].
    - intros ->. reflexivity. }
  assert (forall zs, Js.truthy (cn zs) = false <-> List.filter toBoolean zs = []) as Htr.
  { intros zs. rewrite truthy_false. apply Hempty. }
  split; [reflexivity|]. split.
  { intros Hc. unfold cn. rewrite !List.filter_app. simpl. rewrite Hc. reflexivity. }
  split.
  { rewrite Hempty. clear. induction xs as [|x xs IH]; simpl.
    - split; [constructor|reflexivity].
    - destruct (toBoolean x) eqn:E.
      + split; [discriminate|]. intros Hf. inversion Hf; congruence.
      + rewrite IH. split; [intros Hf; constructor; assumption|].
        intros Hf. inversion Hf; assumption. }
  assert (forall zs, cn [ClassName (cn zs)] = cn zs) as Hone.
  { intros zs. unfold cn at 1. simpl. destruct (Js.truthy (cn zs)) eqn:E; [reflexivity|].
    simpl. symmetry. apply truthy_false, E. }
  split; [|apply Hone].
  unfold cn at 1. simpl.
  destruct (Js.truthy (cn xs)) eqn:Ex; destruct (Js.truthy (cn ys)) eqn:Ey; simpl.
  - unfold cn. rewrite List.filter_app, map_app. symmetry. apply join_app.
    + intros E. apply map_eq_nil in E. apply Htr in E. congruence.
    + intros E. apply map_eq_nil in E. apply Htr in E. congruence.
  - apply Htr in Ey. unfold cn. rewrite List.filter_app, Ey, app_nil_r. reflexivity.
  - apply Htr in Ex. unfold cn. rewrite List.filter_app, Ex. reflexivity.
  - apply Htr in Ex. apply Htr in Ey. unfold cn. rewrite List.filter_app, Ex, Ey. reflexivity.
Qed.
End Styles.

Section Singleton.
Import Db.

(** X24.  The Prisma client is shared outside production.  When
    [NODE_ENV] is not production, any number of evaluations of the module
    export one and the same client: the one already in the global slot, or
    else one that the first evaluation constructs; no other client is
    constructed, and the slot holds that client afterwards.  In production
    with an empty slot every evaluation constructs a client of its own and
    the slot stays empty. *)
Theorem prisma_client_is_shared_outside_production (n : nat) (r : Runtime) :
  (NODE_ENV r <> Some "production"%string ->
   exists client,
     fst (evaluations (S n) r) = repeat client (S n) /\
     globalForPrisma_prisma (snd (evaluations (S n) r)) = Some client /\
     (forall c, globalForPrisma_prisma r = Some c -> client = c) /\
     constructed (snd (evaluations (S n) r)) =
       match globalForPrisma_prisma r with
       | Some _ => constructed r
       | None => S (constructed r)
       end) /\
  (NODE_ENV r = Some "production"%string ->
   globalForPrisma_prisma r = None ->
   fst (evaluations n r) = seq (constructed r) n /\
   globalForPrisma_prisma (snd (evaluations n r)) = None /\
   constructed (snd (evaluations n r)) = (constructed r + n)%nat).
Proof.
  split.
  - intros Henv.
    assert (match NODE_ENV r with
            | Some env => String.eqb env "production"
            | None => false
            end = false) as Hprod.
    { destruct (NODE_ENV r) as [env|]; [|reflexivity].
      destruct (String.eqb_spec env "production"); [congruence|reflexivity]. }
    assert (forall m c k,
              evaluations m (mkRuntime (NODE_ENV r) (Some c) k) =
              (repeat c m, mkRuntime (NODE_ENV r) (Some c) k)) as Hrest.
    { induction m as [|m IH]; intros c k; [reflexivity|].
      cbn [evaluations]. unfold evaluate. cbn [globalForPrisma_prisma NODE_ENV constructed].
      rewrite Hprod. cbn [negb]. rewrite IH. reflexivity. }
    destruct r as [env [c|] k]; cbn [NODE_ENV globalForPrisma_prisma constructed] in *.
    + exists c. rewrite Hrest. repeat split. intros c0 [= <-]. reflexivity.
    + exists k. cbn [evaluations]. unfold evaluate, prismaClientSingleton.
      cbn [globalForPrisma_prisma NODE_ENV constructed]. rewrite Hprod. cbn [negb].
      rewrite Hrest. repeat split. intros c0 [=].
  - revert r. induction n as [|n IH]; intros [env g k]; cbn [NODE_ENV globalForPrisma_prisma constructed];
      intros -> ->.
    + repeat split. cbn. lia.
    + cbn [evaluations]. unfold evaluate, prismaClientSingleton.
      cbn [globalForPrisma_prisma NODE_ENV constructed String.eqb Ascii.eqb Bool.eqb negb].
      simpl (String.eqb _ _). cbn [negb].
      specialize (IH (mkRuntime (Some "production"%string) None (S k)) eq_refl eq_refl).
      cbn [NODE_ENV globalForPrisma_prisma constructed] in IH.
      destruct (evaluations n _) as [clients r2]. cbn [fst snd] in *.
      destruct IH as (H1 & H2 & H3). subst clients. repeat split; [exact H2|lia].
Qed.
End Singleton.

Section Groups.
Import Grouping.

Lemma groupJobsByMonth_snoc tz js j :
  groupJobsByMonth tz (js ++ [j]) =
  push (formatMMM_YYYY tz (createdAt j)) j (groupJobsByMonth tz js).
Proof. unfold groupJobsByMonth. rewrite fold_left_app. reflexivity. Qed.

Lemma glookup_push k m j acc :
  glookup k (push m j acc) =
  if String.eqb m k
  then Some (match glookup m acc with Some l => l ++ [j] | None => [j] end)
  else glookup k acc.
Proof.
  induction acc as [|[k' v] acc IH]; simpl.
  - destruct (String.eqb m k); reflexivity.
  - destruct (String.eqb_spec k' m) as [->|Hne]; simpl.
    + destruct (String.eqb m k); reflexivity.
    + rewrite IH. destruct (String.eqb_spec k' k) as [->|Hne'].
      * destruct (String.eqb_spec m k); [congruence|reflexivity].
      * reflexivity.
Qed.

Lemma keys_push m j acc :
  List.map fst (push m j acc) =
  match glookup m acc with
  | Some _ => List.map fst acc
  | None => List.map fst acc ++ [m]
  end.
Proof.
  induction acc as [|[k' v] acc IH]; simpl; [reflexivity|].
  destruct (String.eqb_spec k' m); simpl; [reflexivity|].
  rewrite IH. destruct (glookup m acc); reflexivity.
Qed.

Lemma existsb_glookup m g :
  existsb (String.eqb m) (List.map fst g) =
  match glookup m g with Some _ => true | None => false end.
Proof.
  induction g as [|[k v] g IH]; simpl; [reflexivity|].
  rewrite String.eqb_sym. destruct (String.eqb k m); [reflexivity|exact IH].
Qed.

Lemma glookup_In k v g :
  NoDup (List.map fst g) -> (In (k, v) g <-> glookup k g = Some v).
Proof.
  induction g as [|[k' v'] g IH]; simpl; intros Hnd.
  - split; [contradiction|discriminate].
  - apply NoDup_cons in Hnd as [Hnot Hnd]. rewrite list_elem_of_In in Hnot.
    destruct (String.eqb_spec k' k) as [->|Hne].
    + split.
      * intros [[= ->]|Hin]; [reflexivity|].
        destruct Hnot. apply (in_map fst) in Hin. exact Hin.
      * intros [= ->]. left. reflexivity.
    + rewrite <- (IH Hnd). split.
      * intros [[= -> _]|Hin]; [contradiction|exact Hin].
      * intros Hin. right. exact Hin.
Qed.

Lemma push_perm m j acc :
  Permutation (concat (List.map snd (push m j acc))) (concat (List.map snd acc) ++ [j]).
Proof.
  induction acc as [|[k v] acc IH]; simpl; [reflexivity|].
  destruct (String.eqb k m); simpl.
  - rewrite <- !app_assoc. apply Permutation_app_head. apply Permutation_app_comm.
  - rewrite IH, app_assoc. reflexivity.
Qed.

Lemma groupJobsByMonth_lookup tz jobs k :
  glookup k (groupJobsByMonth tz jobs) =
  match List.filter (fun j => String.eqb (formatMMM_YYYY tz (createdAt j)) k) jobs with
  | [] => None
  | l => Some l
  end.
Proof.
  induction jobs as [|j jobs IH] using rev_ind; [reflexivity|].
  rewrite groupJobsByMonth_snoc, glookup_push, List.filter_app. cbn [List.filter].
  destruct (String.eqb_spec (formatMMM_YYYY tz (createdAt j)) k) as [->|Hne].
  - rewrite IH. destruct (List.filter _ jobs); reflexivity.
  - rewrite IH, app_nil_r. reflexivity.
Qed.

Lemma groupJobsByMonth_keys tz jobs :
  List.map fst (groupJobsByMonth tz jobs) =
  firstSeen (List.map (fun j => formatMMM_YYYY tz (createdAt j)) jobs).
Proof.
  induction jobs as [|j jobs IH] using rev_ind; [reflexivity|].
  rewrite groupJobsByMonth_snoc, keys_push, map_app.
  change (List.map _ [j]) with [formatMMM_YYYY tz (createdAt j)]. rewrite firstSeen_snoc.
  rewrite <- IH, existsb_glookup.
  destruct (glookup _ (groupJobsByMonth tz jobs)); reflexivity.
Qed.

Lemma groupJobsByMonth_NoDup tz jobs : NoDup (List.map fst (groupJobsByMonth tz jobs)).
Proof.
  induction jobs as [|j jobs IH] using rev_ind; [constructor|].
  rewrite groupJobsByMonth_snoc, keys_push.
  destruct (glookup _ (groupJobsByMonth tz jobs)) eqn:E; [exact IH|].
  apply NoDup_app. split; [exact IH|]. split; [|apply NoDup_singleton].
  intros x Hx [E'|[]]%list_elem_of_In. subst x.
  pose proof (existsb_glookup (formatMMM_YYYY tz (createdAt j)) (groupJobsByMonth tz jobs))
    as Hex.
  rewrite E in Hex. apply Bool.not_true_iff_false in Hex. apply Hex.
  apply existsb_exists. eexists. split; [apply list_elem_of_In, Hx|apply String.eqb_refl].
Qed.

(** X25.  [groupJobsByMonth] holds each job once, under the label of the
    month of its creation: the labels of the groups are distinct and stand
    in the order in which the months first occur; the group of a label is
    the list of the jobs of that label in their order, and never empty;
    all groups together are the jobs given. *)
Theorem groups_hold_each_job_once (tz : Z) (jobs : list JobType) :
  let label j := formatMMM_YYYY tz (createdAt j) in
  let groups := groupJobsByMonth tz jobs in
  NoDup (List.map fst groups) /\
  List.map fst groups = firstSeen (List.map label jobs) /\
  (forall month js,
      In (month, js) groups <->
      js <> [] /\ js = List.filter (fun j => String.eqb (label j) month) jobs) /\
  Permutation (concat (List.map snd groups)) jobs /\
  (jobs = [] <-> groups = []).
Proof.
  intros label groups.
  split; [apply groupJobsByMonth_NoDup|]. split; [apply groupJobsByMonth_keys|]. split.
  { intros month js. unfold groups.
    rewrite (glookup_In _ _ _ (groupJobsByMonth_NoDup tz jobs)), groupJobsByMonth_lookup.
    fold label. destruct (List.filter _ jobs) as [|x l] eqn:E.
    - split; [discriminate|]. intros [Hne ->]. contradiction.
    - split; [intros [= <-]; split; [discriminate|reflexivity]|].
      intros [_ ->]. reflexivity. }
  split.
  { unfold groups. clear. induction jobs as [|j jobs IH] using rev_ind; [reflexivity|].
    rewrite groupJobsByMonth_snoc, push_perm, IH. reflexivity. }
  split; [intros ->; reflexivity|].
  unfold groups. clear. intros Hg. destruct jobs as [|j jobs _] using rev_ind; [reflexivity|].
  rewrite groupJobsByMonth_snoc in Hg.
  destruct (groupJobsByMonth tz jobs) as [|[k v] g]; simpl in Hg; [discriminate|].
  destruct (String.eqb k _); discriminate.
Qed.
End Groups.

Section ExportOfTheList.
Import DownloadDropdown.




End ExportOfTheList.

Section FormSubmission.
Context `{Validators}.
Import CreateJobForm.

Lemma optional_undefined f x : optionalSchema f JsUndefined = OK x -> x = None.
Proof. destruct f; cbn; congruence. Qed.

Lemma handleSubmit_run formData w :
  handleSubmit formData w =
  match createJobAction (jobData formData) w with
  | (Return (Some _), w') => (Return Saved, w')
  | (Return None, w') => (Return (Failed submitError), w')
  | (Throw e, w') =>
      (Return (Failed submitError), setConsole (console w' ++ [("Error creating job:"%string, e)]) w')
  end.
Proof.
  unfold handleSubmit, Routes.Jobs.POST, tryCatch, mbind, Action_bind.
  destruct (createJobAction (jobData formData) w) as [[[j|]|e] w']; reflexivity.
Qed.

Lemma createJobAction_cases values w userId :
  currentUser w = Some userId ->
  (exists v job w',
      createAndEditJobSchema values = inr v /\ noFault 1 w = true /\
      createJobAction values w = (Return (Some job), w') /\
      jobTable w' = jobTable w ++ [job] /\ clerkId job = userId /\
      forall f, jobField f job = sanitizedField f (sanitizeJobInput v)) \/
  ((noFault 1 w = false \/ exists iss, createAndEditJobSchema values = inl iss) /\
   exists w', createJobAction values w = (Return None, w') /\ jobTable w' = jobTable w).
Proof.
  intros Hu. unfold createJobAction, mbind, Action_bind. rewrite (authenticate_ok _ _ Hu).
  unfold tryCatch, parse.
  destruct (createAndEditJobSchema values) as [iss|v].
  { right. split; [right; exists iss; reflexivity|]. eexists. split; reflexivity. }
  cbn [mret Action_ret]. unfold Prisma.create. destruct (noFault 1 w) eqn:Hq.
  - rewrite (query_ok _ _ Hq). left. exists v. eexists _, _.
    split; [reflexivity|]. split; [reflexivity|]. split; [reflexivity|].
    split; [reflexivity|]. split; [reflexivity|]. intros f. destruct f; reflexivity.
  - rewrite (query_fault _ _ Hq). right. split; [left; reflexivity|].
    eexists. split; reflexivity.
Qed.

(** X27.  A submission of the form by a signed-in user.  It is saved
    exactly when the data of the form are accepted by the schema and the
    storage answers; then the table has one more row, of the user, in which
    the resume and the cover letter are null, for which the form has no
    field, and in which every optional text that the form left out or left
    empty is null.  Otherwise the form shows its message and no row has
    changed. *)
Theorem form_submission_is_saved_or_refused (w : World) (userId : string)
    (formData : list (string * string)) :
  currentUser w = Some userId ->
  (fst (handleSubmit formData w) = Return Saved <->
   noFault 1 w = true /\ exists v, createAndEditJobSchema (jobData formData) = inr v) /\
  (fst (handleSubmit formData w) = Return Saved ->
   exists job,
     jobTable (snd (handleSubmit formData w)) = jobTable w ++ [job] /\
     clerkId job = userId /\
     (forall f, formName f = None -> jobField f job = None) /\
     (forall f name, formName f = Some name ->
                     Js.orNull (Routes.get name formData) = None -> jobField f job = None)) /\
  (fst (handleSubmit formData w) <> Return Saved ->
   fst (handleSubmit formData w) = Return (Failed submitError) /\
   jobTable (snd (handleSubmit formData w)) = jobTable w).
Proof.
  intros Hu. rewrite handleSubmit_run.
  destruct (createJobAction_cases (jobData formData) w userId Hu)
    as [(v & job & w' & Hs & Hq & Hc & Ht & Hown & Hf)|([Hq|[iss Hs]] & w' & Hc & Ht)];
    rewrite Hc; cbn [fst snd].
  - split; [split; [intros _; split; [exact Hq|exists v; exact Hs]|reflexivity]|].
    split; [|intros Hne; destruct Hne; reflexivity]. intros _.
    exists job. split; [exact Ht|]. split; [exact Hown|].
    destruct (schema_accepts _ _ Hs) as (_ & _ & _ & Hopt). split.
    + intros f Hn. specialize (Hopt f).
      assert (inputField f (jobData formData) = JsUndefined) as Hin
        by (destruct f; try discriminate; reflexivity).
      rewrite Hin in Hopt. apply optional_undefined in Hopt.
      rewrite Hf, sanitizedField_orNull, Hopt. reflexivity.
    + intros f name Hn Hblank. specialize (Hopt f).
      assert (inputField f (jobData formData) = JsString EmptyString) as Hin.
      { destruct f; try discriminate; injection Hn as <-;
          cbn [inputField jobData in_salaryRange in_jobUrl in_website in_notes];
          unfold orEmpty; rewrite Hblank; reflexivity. }
      rewrite Hin in Hopt. apply optional_empty in Hopt.
      rewrite Hf, sanitizedField_orNull, Hopt. reflexivity.
  - split; [split; [discriminate|intros [Hq' _]; congruence]|].
    split; [discriminate|]. intros _. split; [reflexivity|exact Ht].
  - split; [split; [discriminate|intros [_ [v Hv]]; congruence]|].
    split; [discriminate|]. intros _. split; [reflexivity|exact Ht].
Qed.
End FormSubmission.

(** ** Scenarios of the handlers, the report and the form *)

Section RouteScenarios.
Import Routes.

Lemma signed_out_request_is_answered_500_witness :
  fst (Stats.GET signedOutWorld) = Return (failure "Failed to fetch statistics" 500) /\
  jobTable (snd (JobsId.DELETE "a1" signedOutWorld)) = jobTable signedOutWorld.
Proof.
  destruct (@signed_out_request_is_answered_500 Sample.validators signedOutWorld []
              sampleInput "a1" eq_refl) as (_ & _ & _ & Hs & _ & _ & _ & Hd).
  rewrite Hs, Hd. split; reflexivity.
Defined.

Lemma item_handlers_answer_by_ownership_witness :
  fst (JobsId.GET (id rowOfB) sharedWorld) = Return (failure "Failed to fetch job" 500) /\
  fst (JobsId.DELETE (id rowOfB) sharedWorld) = Return (failure "Failed to delete job" 400).
Proof.
  destruct (@item_handlers_answer_by_ownership Sample.validators sharedWorld "user_1"
              (id rowOfB) sampleInput eq_refl) as (Hg & Hd & _).
  rewrite Hg, Hd. split; reflexivity.
Defined.

Lemma collection_handlers_answer_witness :
  exists job,
    fst (@Jobs.POST Sample.validators sampleInput healthyWorld) =
    Return (mkResponse (JobJson job) 201).
Proof.
  destruct (@collection_handlers_answer Sample.validators healthyWorld "user_1" []
              sampleInput eq_refl) as (_ & _ & _ & _ & Hp).
  change (@createAndEditJobSchema Sample.validators sampleInput) with
    (@inr (list ZodIssue) _ sampleValidated) in Hp.
  change (noFault 1 healthyWorld) with true in Hp.
  destruct Hp as (job & Hj & _). exists job. exact Hj.
Defined.


Lemma form_submission_is_saved_or_refused_witness :
  fst (@CreateJobForm.handleSubmit Sample.validators
         [("position", "Engineer"); ("company", "Acme"); ("location", "Lyon");
          ("status", "applied"); ("mode", "remote"); ("notes", "")]%string
         healthyWorld) = Return CreateJobForm.Saved.
Proof.
  destruct (@form_submission_is_saved_or_refused Sample.validators healthyWorld "user_1"
              [("position", "Engineer"); ("company", "Acme"); ("location", "Lyon");
               ("status", "applied"); ("mode", "remote"); ("notes", "")]%string eq_refl)
    as (Hiff & _).
  apply Hiff. split; [reflexivity|]. eexists. vm_compute. reflexivity.
Defined.
End RouteScenarios.

(** ** The home page *)

Section Home.
Import HomePage.

(** X28.  What the home page shows to a signed-in user.  When the storage
    answers, the grid holds the first hundred of the user's jobs in
    descending order of the applied date and the header counts all of them:
    with more than a hundred jobs the grid shows fewer rows than the header
    counts.  When the storage fails the page shows no job and the count 0,
    as for a user without jobs, and no button to add one in the header. *)
Theorem home_page_shows_the_first_hundred (w : World) (userId : string) :
  let mine := ownedBy userId (jobTable w) in
  currentUser w = Some userId ->
  (noFault 2 w = true ->
   exists data w',
     queryFn w = (Return data, w') /\
     jobsOf data =
       List.firstn 100 (Js.sort (fun a b => appliedDate b <? appliedDate a) mine) /\
     countOf data = Z.of_nat (length mine) /\
     length (jobsOf data) = Nat.min 100 (length mine) /\
     ((100 < length mine)%nat -> Z.of_nat (length (jobsOf data)) < countOf data) /\
     addButton data = negb (Nat.eqb (length mine) 0)) /\
  (noFault 1 w = false ->
   exists data w',
     queryFn w = (Return data, w') /\
     jobsOf data = [] /\ countOf data = 0 /\ addButton data = false).
Proof.
  intros mine Hu.
  assert (Routes.Jobs.GET searchParams =
          Some (tryCatch
                  (result ← getAllJobsAction (mkArgs None None (Some 1) (Some 100));
                   mret (Routes.json (Routes.PageJson result)))
                  (Routes.fail "Error fetching jobs:" "Failed to fetch jobs"))) as Hget
    by reflexivity.
  unfold queryFn. rewrite Hget. split.
  - intros Hq.
    assert (0 <= (1 - 1) * 100) as Hskip by lia.
    pose proof (getAllJobsAction_run (mkArgs None None (Some 1) (Some 100)) w userId
                  Hu Hq Hskip) as Hrun.
    cbv zeta in Hrun.
    unfold mbind at 1, Action_bind at 1, tryCatch. unfold mbind at 1, Action_bind at 1.
    rewrite Hrun. cbn [mret Action_ret Routes.json ok Routes.r_status Routes.r_body].
    eexists _, _. split; [reflexivity|]. cbn [jobsOf countOf jobs count addButton].
    change (listWhere userId (search (mkArgs None None (Some 1) (Some 100)))
              (jobStatus (mkArgs None None (Some 1) (Some 100))))
      with (Prisma.whereClerk userId).
    rewrite whereClerk_filter. fold mine.
    assert (Prisma.paginate (Some ((1 - 1) * 100)) (Some 100)
              (Prisma.orderByAppliedDate Prisma.desc mine) =
            List.firstn 100 (Js.sort (fun a b => appliedDate b <? appliedDate a) mine)) as Hpage
      by reflexivity.
    change (default 1 _) with 1. change (default 10 _) with 100. rewrite Hpage.
    assert (length (Js.sort (fun a b => appliedDate b <? appliedDate a) mine) = length mine)
      as Hlen by apply sort_length.
    split; [reflexivity|]. split; [reflexivity|].
    rewrite length_firstn, Hlen. split; [reflexivity|]. split; [lia|].
    destruct (length mine); reflexivity.
  - intros Hq.
    unfold mbind at 1, Action_bind at 1, tryCatch. unfold mbind at 1, Action_bind at 1.
    unfold getAllJobsAction. cbv zeta. unfold mbind at 1, Action_bind at 1.
    rewrite (authenticate_ok _ _ Hu). unfold tryCatch, mbind, Action_bind, Prisma.findMany.
    rewrite (query_fault _ _ Hq).
    eexists _, _. split; [reflexivity|]. repeat split.
Qed.

Lemma home_page_shows_the_first_hundred_witness :
  exists data,
    fst (queryFn healthyWorld) = Return data /\ countOf data = 6 /\ length (jobsOf data) = 6%nat.
Proof.
  destruct (home_page_shows_the_first_hundred healthyWorld "user_1" eq_refl) as (Hok & _).
  destruct (Hok eq_refl) as (data & w' & Hq & _ & Hc & Hl & _).
  exists data. rewrite Hq, Hc, Hl. repeat split.
Defined.
End Home.

(** ** The dashboard *)

Section Dashboard.




End Dashboard.
